(** * MediGo backend: a shallow embedding of the Mongoose models and the
      Express controllers, with the properties of its specification.

    Conventions of the embedding.
    - A JavaScript string is a Rocq [string], the bytes of its UTF-8 text;
      the text handled here (symptom words, HH:MM times, status names,
      one-time passwords) is ASCII, so [toLowerCase] acts on A-Z and the
      regular expression class [\s] is the ASCII white space.  The [length]
      of a string, which JavaScript counts in UTF-16 code units, is
      [Js.length], which counts these units whatever the text.  MongoDB
      compares strings with the simple binary collation, which on such
      text is [String.compare].
    - A [Date] is its number of milliseconds since the epoch, a [Z]; the
      clock read by [Date.now()] / [new Date()] is an argument [now] of
      every operation that reads it.
    - A BSON number that is only stored or compared (confidences, ratings,
      fees) is the rational it denotes, a [Q].  The weights of the symptom
      matching are multiplied and added by the database: the pipeline is
      embedded over a class of arithmetics, [Specialization.Numbers], of
      which the rationals and the IEEE doubles are instances.
    - A MongoDB collection is a list of documents, or a [gmap] from [_id] to
      document where the code addresses documents by [_id].
    - A request handler returns an [Outcome]: the response it sends, the
      [ApiError] it throws, or another exception. *)

From stdpp Require Import base list strings gmap sorting pretty.
From Stdlib Require Import ZArith QArith Ascii String.
From Stdlib Require OrdersEx Floats Uint63.
Close Scope Q_scope.
Set Warnings "-clear-no-such-hyp".
Open Scope string_scope.
Open Scope Z_scope.

(** MongoDB [ObjectId]s, as their 24 character hexadecimal text. *)
Abbreviation ObjectId := string (only parsing).

(** ** JavaScript strings *)
Module Js.

Definition is_upper (c : ascii) : bool :=
  let n := N_of_ascii c in ((65 <=? n) && (n <=? 90))%N.

Definition lower_char (c : ascii) : ascii :=
  if is_upper c then ascii_of_N (N_of_ascii c + 32) else c.

(** [String.prototype.toLowerCase] *)
Fixpoint toLowerCase (s : string) : string :=
  match s with
  | EmptyString => EmptyString
  | String c s' => String (lower_char c) (toLowerCase s')
  end.

(** The class [\s]: tab, line feed, vertical tab, form feed, carriage
    return and space. *)
Definition is_space (c : ascii) : bool :=
  let n := N_of_ascii c in (((9 <=? n) && (n <=? 13)) || (n =? 32))%N.

(** [s.split(/\s+/)]: the pieces between maximal runs of white space.  A
    leading or trailing run leaves an empty first or last piece, and the
    empty string splits into one empty piece.  [cur] is the piece being
    read and [in_run] tells that the previous character was white space. *)
Fixpoint split_go (s : string) (cur : string) (in_run : bool) : list string :=
  match s with
  | EmptyString => [cur]
  | String c s' =>
      if is_space c then
        if in_run then split_go s' "" true
        else cur :: split_go s' "" true
      else split_go s' (cur ++ String c "") false
  end.

Definition split_ws (s : string) : list string := split_go s "" false.

(** [String.prototype.trim], on the right then on the left. *)
Fixpoint trim_left (s : string) : string :=
  match s with
  | String c s' => if is_space c then trim_left s' else s
  | EmptyString => EmptyString
  end.

Fixpoint trim_right (s : string) : string :=
  match s with
  | EmptyString => EmptyString
  | String c s' =>
      match trim_right s' with
      | EmptyString => if is_space c then EmptyString else String c EmptyString
      | t => String c t
      end
  end.

Definition trim (s : string) : string := trim_left (trim_right s).

(** Truthiness of a value that is a string or is missing: [undefined],
    [null] and the empty string are falsy. *)
Definition truthy (o : option string) : bool :=
  match o with
  | Some s => negb (String.eqb s "")
  | None => false
  end.

(** [s.length], the number of UTF-16 code units of a text.  Where the
    code counts the units of a text that need not be ASCII (a password),
    the string holds the bytes of its UTF-8 encoding: a byte that starts a
    sequence of one, two or three bytes stands for one unit, a byte that
    starts a sequence of four for the two units of a surrogate pair, and a
    continuation byte for none. *)
Definition units (c : ascii) : nat :=
  let n := N_of_ascii c in
  if (n <? 128)%N then 1%nat
  else if (n <? 192)%N then 0%nat
  else if (n <? 240)%N then 1%nat
  else 2%nat.

Fixpoint length (s : string) : nat :=
  match s with
  | EmptyString => 0%nat
  | String c s' => (units c + length s')%nat
  end.

(** Binary string comparison, as MongoDB's [$lt], [$gt] and [$max] do. *)
Definition str_lt (a b : string) : bool := String.ltb a b.
Definition str_le (a b : string) : bool := String.leb a b.

End Js.

(** ** HTTP outcomes of a request handler

    An [ApiError] carries the status code with which the error middleware
    answers; any other exception reaches that middleware without one. *)
Inductive Outcome (A : Type) : Type :=
| Respond (code : Z) (data : A)        (* res.status(code).json(...) *)
| ApiError (code : Z) (message : string) (* throw new ApiError(code, message) *)
| Throw (message : string).            (* any other exception *)
Arguments Respond {A} code data.
Arguments ApiError {A} code message.
Arguments Throw {A} message.

Definition status_of {A} (o : Outcome A) : option Z :=
  match o with
  | Respond c _ => Some c
  | ApiError c _ => Some c
  | Throw _ => None
  end.

(** ** models/specialization.model.js *)
Module Specialization.

(** The numbers of the aggregation pipeline.  A stored [weight] is a BSON
    number, an integer or a double; [$multiply] and [$sum] compute in the
    type of their operands and round where that is a double, [$gt]
    compares with 0, and [$sort] puts all numbers in one total order.  The
    pipeline is embedded over every arithmetic with these operations, so
    that nothing proved of it rests on how a product or a sum is rounded. *)
Class Numbers (num : Type) := {
  multiply : num → nat → num;       (* $multiply: [weight, { $size: ... }] *)
  sum : list num → num;             (* $sum of an array *)
  gt_zero : num → bool;             (* { $gt: 0 } *)
  sort_ge : num → num → bool;       (* the order of $sort: { matchScore: -1 } *)
  sort_ge_total : ∀ x y, sort_ge x y = true ∨ sort_ge y x = true;
  sort_ge_trans : ∀ x y z, sort_ge x y = true → sort_ge y z = true → sort_ge x z = true
}.

Record SymptomEntry (num : Type) := {
  symptom : string;
  keywords : list string;
  weight : num
}.
Arguments symptom {num}.
Arguments keywords {num}.
Arguments weight {num}.

Record UrgencyKeyword := {
  keyword : string;
  urgencyLevel : string
}.

Record t (num : Type) := {
  name : string;
  description : string;
  commonSymptoms : list (SymptomEntry num);
  urgencyKeywords : list UrgencyKeyword;
  isActive : bool
}.
Arguments name {num}.
Arguments description {num}.
Arguments commonSymptoms {num}.
Arguments urgencyKeywords {num}.
Arguments isActive {num}.

(** A document after [$addFields: { matchScore }]. *)
Record Scored (num : Type) := {
  doc : t num;
  matchScore : num
}.
Arguments doc {num}.
Arguments matchScore {num}.

(** [$setIntersection] of two arrays, as a set of strings. *)
Definition setIntersection (a b : list string) : gset string :=
  list_to_set a ∩ list_to_set b.

Section Pipeline.
Context {num : Type} {numbers : Numbers num}.

(** [$multiply: [weight, $size: $setIntersection: [keywords, words]]] *)
Definition entryScore (symptomKeywords : list string) (e : SymptomEntry num) : num :=
  multiply (weight e) (size (setIntersection (keywords e) symptomKeywords)).

(** [$sum] over the [$map] of the entries. *)
Definition computeScore (symptomKeywords : list string) (d : t num) : num :=
  sum (entryScore symptomKeywords <$> commonSymptoms d).

Definition addFields (symptomKeywords : list string) (d : t num) : Scored num :=
  {| doc := d; matchScore := computeScore symptomKeywords d |}.

(** The order of [$sort: { matchScore: -1 }]. *)
Definition score_ge (a b : Scored num) : Prop :=
  sort_ge (matchScore a) (matchScore b) = true.

#[global] Instance score_ge_dec : RelDecision score_ge.
Proof. intros a b. unfold score_ge. apply _. Defined.

(** The documents that reach the [$sort] stage. *)
Definition candidates (coll : list (t num)) (W : list string) : list (Scored num) :=
  filter (λ r, gt_zero (matchScore r) = true)
         (addFields W <$> filter (λ d, isActive d = true) coll).

(** The pipeline of [findBySymptoms]: [$match], [$addFields], [$match],
    [$sort], [$limit].  MongoDB leaves the order of equal scores open; the
    sort used here fixes one, and no property below depends on which. *)
Definition findBySymptoms (coll : list (t num)) (symptoms : string) : list (Scored num) :=
  let symptomKeywords := Js.split_ws (Js.toLowerCase symptoms) in
  let active := filter (λ d, isActive d = true) coll in
  let scored := addFields symptomKeywords <$> active in
  let matching := filter (λ r, gt_zero (matchScore r) = true) scored in
  let sorted := merge_sort score_ge matching in
  take 5 sorted.

End Pipeline.

(** [$max] over strings: the greatest in binary order. *)
Definition str_max (a b : string) : string := if Js.str_lt a b then b else a.

Definition max_of (l : list string) : option string :=
  match l with
  | [] => None
  | x :: l' => Some (foldl str_max x l')
  end.

Section Urgency.
Context {num : Type}.

(** [$unwind: '$urgencyKeywords']: one document per array entry. *)
Definition unwind (coll : list (t num)) : list (t num * UrgencyKeyword) :=
  d ← coll; (λ k, (d, k)) <$> urgencyKeywords d.

(** The levels that survive the [$match] stage of [getUrgencyLevel]. *)
Definition matchedLevels (coll : list (t num)) (symptoms : string) : list string :=
  let symptomText := Js.toLowerCase symptoms in
  let words := Js.split_ws symptomText in
  (λ p, urgencyLevel p.2) <$>
    filter (λ p, isActive p.1 = true ∧ keyword p.2 ∈ words) (unwind coll).

(** [getUrgencyLevel]: [$group] with [_id: null] yields no document on an
    empty input and one document [{ maxUrgency }] otherwise. *)
Definition getUrgencyLevel (coll : list (t num)) (symptoms : string) : list string :=
  match max_of (matchedLevels coll symptoms) with
  | None => []
  | Some m => [m]
  end.

End Urgency.

(** *** Two arithmetics *)

Definition Qltb (x y : Q) : bool := negb (Qle_bool y x).

(** [$sum] of a list of rationals. *)
Definition sumQ (l : list Q) : Q := foldr Qplus 0%Q l.

(** Numbers that are integers or fractions with a power of two below, and
    small enough that no product or sum is rounded: the arithmetic is that
    of the rationals. *)
#[global, refine] Instance exact : Numbers Q := {|
  multiply w n := (w * inject_Z (Z.of_nat n))%Q;
  sum := sumQ;
  gt_zero x := Qltb 0 x;
  sort_ge x y := Qle_bool y x
|}.
Proof.
  - intros x y. destruct (Qlt_le_dec x y) as [Hlt|Hle].
    + right. apply Qle_bool_iff. by apply Qlt_le_weak.
    + left. by apply Qle_bool_iff.
  - intros x y z. rewrite !Qle_bool_iff. intros H1 H2. eapply Qle_trans; eauto.
Defined.

(** The place of a double in the order of [$sort]: [NaN] first, then the
    others in the order of their values. *)
Definition rank (x : SpecFloat.spec_float) : Z * Z * Z :=
  match x with
  | SpecFloat.S754_nan => (-3, 0, 0)
  | SpecFloat.S754_infinity true => (-2, 0, 0)
  | SpecFloat.S754_finite true m e => (-1, - e, - Z.pos m)
  | SpecFloat.S754_zero _ => (0, 0, 0)
  | SpecFloat.S754_finite false m e => (1, e, Z.pos m)
  | SpecFloat.S754_infinity false => (2, 0, 0)
  end.

Definition lex_ge (a b : Z * Z * Z) : bool :=
  let '(a1, a2, a3) := a in
  let '(b1, b2, b3) := b in
  (b1 <? a1) || ((b1 =? a1) && ((b2 <? a2) || ((b2 =? a2) && (b3 <=? a3)))).

(** Doubles: binary64 with every product and every partial sum, taken from
    left to right from 0, rounded to nearest.  For one or two summands
    this is the double nearest to their sum; over more summands the
    server may keep a correction term, which is one more arithmetic of
    the class. *)
#[global, refine] Instance binary64 : Numbers PrimFloat.float := {|
  multiply w n := PrimFloat.mul w (PrimFloat.of_uint63 (Uint63.of_Z (Z.of_nat n)));
  sum l := fold_left PrimFloat.add l PrimFloat.zero;
  gt_zero x := PrimFloat.ltb PrimFloat.zero x;
  sort_ge x y := lex_ge (rank (FloatOps.Prim2SF x)) (rank (FloatOps.Prim2SF y))
|}.
Proof.
  - intros x y. destruct (rank (FloatOps.Prim2SF x)) as [[a1 a2] a3].
    destruct (rank (FloatOps.Prim2SF y)) as [[b1 b2] b3]. unfold lex_ge.
    rewrite !orb_true_iff, !andb_true_iff, !orb_true_iff, !andb_true_iff,
      !Z.ltb_lt, !Z.eqb_eq, !Z.leb_le. lia.
  - intros x y z. destruct (rank (FloatOps.Prim2SF x)) as [[a1 a2] a3].
    destruct (rank (FloatOps.Prim2SF y)) as [[b1 b2] b3].
    destruct (rank (FloatOps.Prim2SF z)) as [[c1 c2] c3]. unfold lex_ge.
    rewrite !orb_true_iff, !andb_true_iff, !orb_true_iff, !andb_true_iff,
      !Z.ltb_lt, !Z.eqb_eq, !Z.leb_le. lia.
Defined.

End Specialization.

(** ** models/appointment.model.js *)
Module Appointment.

Record TimeSlot := {
  startTime : string;
  endTime : string
}.

Record t := {
  _id : ObjectId;
  patient : ObjectId;
  doctor : ObjectId;
  appointmentDate : Z;
  timeSlot : TimeSlot;
  symptoms : string;
  reasonForVisit : string;
  status : string;
  priority : string;
  consultationFee : Q;
  paymentStatus : string;
  notes_patient : option string;
  cancelledAt : option Z;
  cancelledBy : option string;
  cancellationReason : option string
}.

Definition reasonForVisit_enum : list string :=
  ["Regular Checkup"; "Follow-up"; "New Symptom"; "Chronic Condition";
   "Emergency"; "Second Opinion"; "Preventive Care"; "Other"].

Definition status_enum : list string :=
  ["scheduled"; "confirmed"; "in-progress"; "completed"; "cancelled";
   "no-show"; "rescheduled"].

Definition priority_enum : list string := ["low"; "medium"; "high"; "urgent"].
Definition paymentStatus_enum : list string := ["pending"; "paid"; "refunded"; "failed"].
Definition cancelledBy_enum : list string := ["patient"; "doctor"; "admin"; "system"].

Definition in_enum (e : list string) (s : string) : bool := bool_decide (s ∈ e).

Definition is_digit (c : ascii) : bool :=
  let n := N_of_ascii c in ((48 <=? n) && (n <=? 57))%N.
Definition in_range (lo hi : N) (c : ascii) : bool :=
  let n := N_of_ascii c in ((lo <=? n) && (n <=? hi))%N.

(** The schema's [match] on both times:
    [/^([0-1]?[0-9]|2[0-3]):[0-5][0-9]$/]. *)
Definition valid_time (s : string) : bool :=
  match s with
  | String h (String ":"%char (String m1 (String m2 EmptyString))) =>
      is_digit h && in_range 48 53 m1 && is_digit m2
  | String h1 (String h2 (String ":"%char (String m1 (String m2 EmptyString)))) =>
      ((in_range 48 49 h1 && is_digit h2) || (Ascii.eqb h1 "2"%char && in_range 48 51 h2))
      && in_range 48 53 m1 && is_digit m2
  | _ => false
  end.

Definition max_len (n : nat) (s : string) : bool := (String.length s <=? n)%nat.
Definition opt_ok {A} (p : A → bool) (o : option A) : bool :=
  match o with Some x => p x | None => true end.

(** The per-field constraints of [appointmentSchema] (required, match,
    enum, maxlength, min) that Mongoose checks in [validate()]. *)
Definition schema_valid (a : t) : bool :=
  valid_time (startTime (timeSlot a)) && valid_time (endTime (timeSlot a))
  && negb (String.eqb (symptoms a) "") && max_len 1000 (symptoms a)
  && in_enum reasonForVisit_enum (reasonForVisit a)
  && in_enum status_enum (status a)
  && in_enum priority_enum (priority a)
  && Qle_bool 0 (consultationFee a)
  && in_enum paymentStatus_enum (paymentStatus a)
  && opt_ok (max_len 500) (notes_patient a)
  && opt_ok (in_enum cancelledBy_enum) (cancelledBy a)
  && opt_ok (max_len 300) (cancellationReason a).

(** The statuses that occupy a slot. *)
Definition booked_status : list string := ["scheduled"; "confirmed"; "in-progress"].

(** The filter of [checkConflict]'s query on one stored document. *)
Definition conflicts_with (doctorId : ObjectId) (date : Z) (st et : string)
    (excludeAppointmentId : option ObjectId) (b : t) : bool :=
  String.eqb (doctor b) doctorId
  && (appointmentDate b =? date)
  && in_enum booked_status (status b)
  && Js.str_lt (startTime (timeSlot b)) et
  && Js.str_lt st (endTime (timeSlot b))
  && match excludeAppointmentId with
     | Some x => negb (String.eqb (_id b) x)
     | None => true
     end.

(** [checkConflict]: [find(query).length > 0]. *)
Definition checkConflict (m : gmap ObjectId t) (doctorId : ObjectId) (date : Z)
    (st et : string) (excludeAppointmentId : option ObjectId) : bool :=
  bool_decide
    (0 < size (filter (λ kv, conflicts_with doctorId date st et excludeAppointmentId kv.2 = true) m))%nat.

Inductive SaveError :=
| ValidationError
| PastAppointment       (* 'Appointment cannot be scheduled in the past' *)
| SlotBooked            (* 'Time slot is already booked' *)
| DuplicateKey
| DocumentNotFound.

(** [this.isModified(path)] for a document loaded from the collection. *)
Definition isModified_date (old a : t) : bool :=
  negb (appointmentDate old =? appointmentDate a).
Definition isModified_timeSlot (old a : t) : bool :=
  negb (String.eqb (startTime (timeSlot old)) (startTime (timeSlot a))
        && String.eqb (endTime (timeSlot old)) (endTime (timeSlot a))).

(** The condition under which the pre-save hook does its checks. *)
Definition hook_applies (m : gmap ObjectId t) (isNew : bool) (a : t) : bool :=
  isNew ||
  match m !! _id a with
  | Some old => isModified_date old a || isModified_timeSlot old a
  | None => false
  end.

(** [appointmentSchema.pre('save')]. *)
Definition pre_save (now : Z) (m : gmap ObjectId t) (isNew : bool) (a : t)
    : option SaveError :=
  if hook_applies m isNew a then
    if appointmentDate a <? now then Some PastAppointment
    else if checkConflict m (doctor a) (appointmentDate a)
              (startTime (timeSlot a)) (endTime (timeSlot a)) (Some (_id a))
         then Some SlotBooked
         else None
  else None.

(** [doc.save()]: validation, then the pre-save hook, then the write
    (an insert for a new document, an update by [_id] otherwise).
    Mongoose validates the changed paths of a loaded document; here the
    whole document is validated, which is the same for documents that were
    stored through [save]. *)
Definition save (now : Z) (m : gmap ObjectId t) (isNew : bool) (a : t)
    : SaveError + gmap ObjectId t :=
  if negb (schema_valid a) then inl ValidationError
  else match pre_save now m isNew a with
       | Some e => inl e
       | None =>
           match m !! _id a, isNew with
           | Some _, true => inl DuplicateKey
           | None, false => inl DocumentNotFound
           | _, _ => inr (<[_id a := a]> m)
           end
       end.

(** The collection after an attempted save. *)
Definition after_save (now : Z) (m : gmap ObjectId t) (isNew : bool) (a : t)
    : gmap ObjectId t :=
  match save now m isNew a with
  | inr m' => m'
  | inl _ => m
  end.

(** Two slots overlap when each starts before the other ends, times
    compared as strings. *)
Definition overlap (a b : t) : bool :=
  Js.str_lt (startTime (timeSlot a)) (endTime (timeSlot b))
  && Js.str_lt (startTime (timeSlot b)) (endTime (timeSlot a)).

Definition booked (a : t) : bool := in_enum booked_status (status a).

(** The booked appointments of one doctor at one date do not overlap. *)
Definition no_double_booking (m : gmap ObjectId t) : Prop :=
  ∀ i j a b,
    m !! i = Some a → m !! j = Some b → i ≠ j →
    doctor a = doctor b → appointmentDate a = appointmentDate b →
    booked a = true → booked b = true →
    overlap a b = false.

(** Every document is stored under its own [_id]. *)
Definition keyed (m : gmap ObjectId t) : Prop :=
  ∀ i a, m !! i = Some a → _id a = i.

(** *** controllers/appointment.controller.js: [cancelAppointment] *)

Record CancelData := {
  cd_appointmentId : ObjectId;
  cd_status : string;
  cd_cancelledAt : option Z
}.

Definition two_hours_ms : Z := 2 * (1000 * 3600).

(** [hoursDiff < 2], where [hoursDiff = timeDiff / (1000 * 3600)]: on the
    integral [timeDiff] this is [timeDiff < 2 * (1000 * 3600)]. *)
Definition too_late (now : Z) (a : t) : bool :=
  appointmentDate a - now <? two_hours_ms.

Definition cancelAppointment (now : Z) (m : gmap ObjectId t)
    (userId : ObjectId) (appointmentId : ObjectId) (reason : option string)
    : Outcome CancelData * gmap ObjectId t :=
  match m !! appointmentId with
  | Some a =>
      if String.eqb (_id a) appointmentId && String.eqb (patient a) userId
         && in_enum ["scheduled"; "confirmed"] (status a)
      then
        if too_late now a then
          (ApiError 400 "Appointments can only be cancelled at least 2 hours before the scheduled time", m)
        else
          let a' := {| _id := _id a; patient := patient a; doctor := doctor a;
                       appointmentDate := appointmentDate a; timeSlot := timeSlot a;
                       symptoms := symptoms a; reasonForVisit := reasonForVisit a;
                       status := "cancelled"; priority := priority a;
                       consultationFee := consultationFee a;
                       paymentStatus := paymentStatus a;
                       notes_patient := notes_patient a;
                       cancelledAt := Some now;
                       cancelledBy := Some "patient";
                       cancellationReason :=
                         Some (match reason with
                               | Some r => if String.eqb r "" then "Cancelled by patient"
                                           else Js.trim r
                               | None => "Cancelled by patient"
                               end) |} in
          match save now m false a' with
          | inr m' =>
              (Respond 200 {| cd_appointmentId := _id a'; cd_status := status a';
                              cd_cancelledAt := cancelledAt a' |}, m')
          | inl _ => (Throw "ValidationError", m)
          end
      else (ApiError 404 "Appointment not found or cannot be cancelled", m)
  | None => (ApiError 404 "Appointment not found or cannot be cancelled", m)
  end.

End Appointment.

(** ** models/conversation.model.js *)
Module Conversation.

(** A flat JavaScript object: keys with opaque values; the first binding
    of a key is the one in force. *)
Definition Json := list (string * string).

(** [{ ...a, ...b }] *)
Definition spread (a b : Json) : Json := (b ++ a)%list.

Definition json_get (k : string) (o : Json) : option string :=
  snd <$> List.find (λ kv, String.eqb (fst kv) k) o.

Record Metadata := {
  agentType : option string;
  confidence : option Q;
  suggestions : list string
}.

Record Message := {
  messageId : string;
  sender : string;
  content : string;
  timestamp : Z;
  messageType : string;
  metadata : Metadata
}.

Record ErrorEntry := {
  e_timestamp : Z;
  e_error : string;
  e_step : string;
  e_resolved : bool
}.

Record ExtractedData := {
  symptoms : Json;
  recommendedSpecialization : option string;
  selectedDoctor : option ObjectId;
  selectedSlot : option Json
}.

(** [aiContext]: the scalar paths, and the nested [userPreferences]. *)
Record AiContext := {
  fields : Json;
  userPreferences : Json
}.

Record t := {
  user : ObjectId;
  conversationId : string;
  status : string;
  currentStep : string;
  messages : list Message;
  extractedData : ExtractedData;
  aiContext : AiContext;
  appointmentId : option ObjectId;
  sessionTimeout : Z;
  isActive : bool;
  completedAt : option Z;
  errorLog : list ErrorEntry
}.

Definition status_enum : list string :=
  ["started"; "gathering_symptoms"; "analyzing_symptoms"; "recommending_doctor";
   "confirming_doctor"; "checking_availability"; "selecting_slot";
   "confirming_appointment"; "completed"; "cancelled"; "error"].

Definition currentStep_enum : list string :=
  ["initial_greeting"; "symptom_collection"; "symptom_clarification";
   "doctor_recommendation"; "doctor_confirmation"; "slot_selection";
   "appointment_confirmation"; "completed"].

Definition sender_enum : list string := ["user"; "agent"; "system"].
Definition messageType_enum : list string :=
  ["text"; "options"; "confirmation"; "error"; "system"].
Definition severity_enum : list string := ["mild"; "moderate"; "severe"; "urgent"].

Definition in_enum (e : list string) (s : string) : bool := bool_decide (s ∈ e).

Definition message_valid (msg : Message) : bool :=
  negb (String.eqb (messageId msg) "")
  && in_enum sender_enum (sender msg)
  && negb (String.eqb (content msg) "")
  && in_enum messageType_enum (messageType msg).

(** The per-field constraints of [conversationSchema]. *)
Definition schema_valid (c : t) : bool :=
  negb (String.eqb (conversationId c) "")
  && in_enum status_enum (status c)
  && in_enum currentStep_enum (currentStep c)
  && forallb message_valid (messages c)
  && match json_get "severity" (symptoms (extractedData c)) with
     | Some v => in_enum severity_enum v
     | None => true
     end.

Definition thirty_minutes : Z := 30 * 60 * 1000.

(** A fresh [new Conversation({ user, conversationId, status, currentStep })]
    with the schema defaults. *)
Definition create (now : Z) (userId : ObjectId) (cid : string)
    (st step : string) : t :=
  {| user := userId; conversationId := cid; status := st; currentStep := step;
     messages := [];
     extractedData := {| symptoms := []; recommendedSpecialization := None;
                         selectedDoctor := None; selectedSlot := None |};
     aiContext := {| fields := []; userPreferences := [] |};
     appointmentId := None;
     sessionTimeout := now + thirty_minutes;
     isActive := true; completedAt := None; errorLog := [] |}.

Definition set_status (c : t) (st : string) : t :=
  {| user := user c; conversationId := conversationId c; status := st;
     currentStep := currentStep c; messages := messages c;
     extractedData := extractedData c; aiContext := aiContext c;
     appointmentId := appointmentId c; sessionTimeout := sessionTimeout c;
     isActive := isActive c; completedAt := completedAt c;
     errorLog := errorLog c |}.

Definition set_currentStep (c : t) (step : string) : t :=
  {| user := user c; conversationId := conversationId c; status := status c;
     currentStep := step; messages := messages c;
     extractedData := extractedData c; aiContext := aiContext c;
     appointmentId := appointmentId c; sessionTimeout := sessionTimeout c;
     isActive := isActive c; completedAt := completedAt c;
     errorLog := errorLog c |}.

Definition set_messages (c : t) (ms : list Message) : t :=
  {| user := user c; conversationId := conversationId c; status := status c;
     currentStep := currentStep c; messages := ms;
     extractedData := extractedData c; aiContext := aiContext c;
     appointmentId := appointmentId c; sessionTimeout := sessionTimeout c;
     isActive := isActive c; completedAt := completedAt c;
     errorLog := errorLog c |}.

Definition set_extractedData (c : t) (e : ExtractedData) : t :=
  {| user := user c; conversationId := conversationId c; status := status c;
     currentStep := currentStep c; messages := messages c;
     extractedData := e; aiContext := aiContext c;
     appointmentId := appointmentId c; sessionTimeout := sessionTimeout c;
     isActive := isActive c; completedAt := completedAt c;
     errorLog := errorLog c |}.

Definition set_aiContext (c : t) (x : AiContext) : t :=
  {| user := user c; conversationId := conversationId c; status := status c;
     currentStep := currentStep c; messages := messages c;
     extractedData := extractedData c; aiContext := x;
     appointmentId := appointmentId c; sessionTimeout := sessionTimeout c;
     isActive := isActive c; completedAt := completedAt c;
     errorLog := errorLog c |}.

Definition set_appointmentId (c : t) (a : option ObjectId) : t :=
  {| user := user c; conversationId := conversationId c; status := status c;
     currentStep := currentStep c; messages := messages c;
     extractedData := extractedData c; aiContext := aiContext c;
     appointmentId := a; sessionTimeout := sessionTimeout c;
     isActive := isActive c; completedAt := completedAt c;
     errorLog := errorLog c |}.

Definition set_sessionTimeout (c : t) (z : Z) : t :=
  {| user := user c; conversationId := conversationId c; status := status c;
     currentStep := currentStep c; messages := messages c;
     extractedData := extractedData c; aiContext := aiContext c;
     appointmentId := appointmentId c; sessionTimeout := z;
     isActive := isActive c; completedAt := completedAt c;
     errorLog := errorLog c |}.

Definition set_isActive (c : t) (b : bool) : t :=
  {| user := user c; conversationId := conversationId c; status := status c;
     currentStep := currentStep c; messages := messages c;
     extractedData := extractedData c; aiContext := aiContext c;
     appointmentId := appointmentId c; sessionTimeout := sessionTimeout c;
     isActive := b; completedAt := completedAt c;
     errorLog := errorLog c |}.

Definition set_completedAt (c : t) (z : option Z) : t :=
  {| user := user c; conversationId := conversationId c; status := status c;
     currentStep := currentStep c; messages := messages c;
     extractedData := extractedData c; aiContext := aiContext c;
     appointmentId := appointmentId c; sessionTimeout := sessionTimeout c;
     isActive := isActive c; completedAt := z;
     errorLog := errorLog c |}.

Definition set_errorLog (c : t) (l : list ErrorEntry) : t :=
  {| user := user c; conversationId := conversationId c; status := status c;
     currentStep := currentStep c; messages := messages c;
     extractedData := extractedData c; aiContext := aiContext c;
     appointmentId := appointmentId c; sessionTimeout := sessionTimeout c;
     isActive := isActive c; completedAt := completedAt c;
     errorLog := l |}.

(** The virtual [isExpired]: [new Date() > this.sessionTimeout]. *)
Definition isExpired (now : Z) (c : t) : bool := sessionTimeout c <? now.

(** [addMessage]; [rnd] is the random suffix of the message id, and the
    schema trims [content] when it is set. *)
Definition addMessage (now : Z) (rnd : string) (c : t) (sender_ content_ : string)
    (messageType_ : string) (metadata_ : Metadata) : t :=
  let messageId_ := String.append (pretty now) (String.append "_" rnd) in
  let msg := {| messageId := messageId_; sender := sender_;
                content := Js.trim content_; timestamp := now;
                messageType := messageType_; metadata := metadata_ |} in
  set_sessionTimeout (set_messages c (messages c ++ [msg])%list)
                     (now + thirty_minutes).

Definition no_metadata : Metadata :=
  {| agentType := None; confidence := None; suggestions := [] |}.

(** [updateStatus(status, step = null)] *)
Definition updateStatus (now : Z) (c : t) (st : string) (step : option string) : t :=
  let c1 := set_status c st in
  let c2 := match step with
            | Some s => if Js.truthy step then set_currentStep c1 s else c1
            | None => c1
            end in
  set_sessionTimeout c2 (now + thirty_minutes).

(** [updateSymptoms] *)
Definition updateSymptoms (c : t) (symptomsData : Json) : t :=
  let e := extractedData c in
  set_extractedData c
    {| symptoms := spread (symptoms e) symptomsData;
       recommendedSpecialization := recommendedSpecialization e;
       selectedDoctor := selectedDoctor e;
       selectedSlot := selectedSlot e |}.

(** [updateRecommendation] *)
Definition updateRecommendation (c : t) (recommendation : string) : t :=
  let e := extractedData c in
  set_extractedData c
    {| symptoms := symptoms e;
       recommendedSpecialization := Some recommendation;
       selectedDoctor := selectedDoctor e;
       selectedSlot := selectedSlot e |}.

(** [complete(appointmentId = null)] *)
Definition complete (now : Z) (c : t) (appointmentId_ : option ObjectId) : t :=
  let c1 := set_status c "completed" in
  let c2 := set_currentStep c1 "completed" in
  let c3 := set_completedAt c2 (Some now) in
  let c4 := set_isActive c3 false in
  if Js.truthy appointmentId_ then set_appointmentId c4 appointmentId_ else c4.

Definition open_status (c : t) : bool :=
  negb (in_enum ["completed"; "cancelled"] (status c)).

(** [cleanupExpired]: an [updateMany], which runs no validation. *)
Definition cleanupExpired (now : Z) (coll : list t) : list t :=
  (λ c, if (sessionTimeout c <? now) && open_status c && isActive c
        then set_isActive (set_status c "cancelled") false
        else c) <$> coll.

Inductive SaveError := ValidationError | DuplicateKey | DocumentNotFound.

Definition has_id (cid : string) (c : t) : bool := String.eqb (conversationId c) cid.

(** Replace the stored document of the same conversation.  The unique
    [conversationId] never changes after creation and stands for [_id]. *)
Fixpoint replace (c : t) (coll : list t) : list t :=
  match coll with
  | [] => []
  | d :: coll' => if has_id (conversationId c) d then c :: coll'
                  else d :: replace c coll'
  end.

(** [doc.save()]: validation, then an insert or an update. *)
Definition save (coll : list t) (isNew : bool) (c : t) : SaveError + list t :=
  if negb (schema_valid c) then inl ValidationError
  else if isNew then
    if existsb (has_id (conversationId c)) coll then inl DuplicateKey
    else inr (coll ++ [c])%list
  else
    if existsb (has_id (conversationId c)) coll then inr (replace c coll)
    else inl DocumentNotFound.

(** The status of a stored document is one of the schema's. *)
Definition status_ok (c : t) : Prop := status c ∈ status_enum.

End Conversation.

(** ** controllers/chat.controller.js *)
Module Chat.
Import Conversation.

(** The [extractedData] object of an agent reply: all its keys, and the
    schema-compliant parts the controller looks at. *)
Record AgentExtracted := {
  x_all : Json;
  x_symptoms : option Json;
  x_recommendation : option string;
  x_selectedDoctor : option ObjectId;
  x_selectedSlot : option Json
}.

(** The [aiContext] object of an agent reply: its keys for the scalar
    paths, and its [userPreferences] object if it has one.  The values of
    a reply are taken to be of the types that the schema declares for the
    paths they are assigned to, an id being the text of an ObjectId, so
    that no value of the reply fails to cast; the cast error of
    [cast_error] below does not depend on them. *)
Record AgentAiContext := {
  a_fields : Json;
  a_userPreferences : option Json
}.

Record AgentResponse := {
  r_message : string;
  r_agentType : option string;
  r_confidence : option Q;
  r_suggestions : list string;
  r_requiresInput : option bool;
  r_newStatus : option string;
  r_newStep : option string;
  r_extractedData : option AgentExtracted;
  r_aiContext : option AgentAiContext;
  r_appointmentId : option ObjectId
}.

(** What [fetch] and [response.json()] do: the request throws, or a
    response of some status arrives whose body parses or not. *)
Inductive FetchResult :=
| FetchThrows
| FetchResponse (status : Z) (json : option AgentResponse).

(** [response.ok] *)
Definition response_ok (status : Z) : bool := (200 <=? status) && (status <=? 299).

Definition fallback : AgentResponse :=
  {| r_message := "I'm currently experiencing some technical difficulties. Please try again in a moment, or you can call our helpline for immediate assistance.";
     r_agentType := Some "system";
     r_confidence := Some 0%Q;
     r_suggestions := ["Try again"; "Contact support"];
     r_requiresInput := Some false;
     r_newStatus := Some "error";
     r_newStep := None;
     r_extractedData := None;
     r_aiContext := None;
     r_appointmentId := None |}.

(** [callAIAgentService]: every failure inside the [try] is caught and
    answered with the fallback. *)
Definition callAIAgentService (f : FetchResult) : AgentResponse :=
  match f with
  | FetchThrows => fallback
  | FetchResponse status json =>
      if negb (response_ok status) then fallback
      else match json with
           | Some data => data
           | None => fallback
           end
  end.

(** The values a request draws from its environment: the clock, a
    [uuidv4()] and the random parts of two message ids. *)
Record Env := {
  now : Z;
  uuid : string;
  rnd1 : string;
  rnd2 : string
}.

Record ChatData := {
  d_conversationId : string;
  d_message : string;
  d_status : string;
  d_currentStep : string;
  d_suggestions : list string;
  d_agentType : option string;
  d_confidence : option Q;
  d_requiresInput : bool;
  d_isComplete : bool;
  d_appointment : option ObjectId
}.

Definition findOne (p : t → bool) (coll : list t) : option t := List.find p coll.

(** [conversation.save()] of the document the request works on.
    [castError] tells whether an assignment has recorded a cast error on
    the document; Mongoose keeps such an error, and every validation of
    the document reports it. *)
Definition save_loaded (castError : bool) (coll : list t) (c : t) : SaveError + list t :=
  if castError then inl ValidationError else save coll false c.

(** The [catch] block of [chatWithAgent]. *)
Definition on_error (env : Env) (castError : bool) (coll : list t) (c : t)
    (msg : string) : Outcome ChatData * list t :=
  let c' := set_errorLog c (errorLog c ++
              [{| e_timestamp := now env; e_error := msg;
                  e_step := currentStep c; e_resolved := false |}])%list in
  match save_loaded castError coll c' with
  | inr coll' => (ApiError 500 (String.append "AI Agent Error: " msg), coll')
  | inl _ => (Throw "ValidationError", coll)
  end.

(** [if (agentResponse.extractedData) { ... }].  [agentData] is no path
    of the schema: what is assigned to [conversation.aiContext.agentData]
    stays on the object in memory and is never stored. *)
Definition apply_extracted (c : t) (o : option AgentExtracted) : t :=
  match o with
  | None => c
  | Some x =>
      let c1 := c in
      let c2 := match x_symptoms x with
                | Some s => updateSymptoms c1 s
                | None => c1
                end in
      let c3 := match x_recommendation x with
                | Some r => if Js.truthy (Some r) then updateRecommendation c2 r else c2
                | None => c2
                end in
      let c4 := if Js.truthy (x_selectedDoctor x)
                then set_extractedData c3
                       {| symptoms := symptoms (extractedData c3);
                          recommendedSpecialization := recommendedSpecialization (extractedData c3);
                          selectedDoctor := x_selectedDoctor x;
                          selectedSlot := selectedSlot (extractedData c3) |}
                else c3 in
      match x_selectedSlot x with
      | Some s => set_extractedData c4
                    {| symptoms := symptoms (extractedData c4);
                       recommendedSpecialization := recommendedSpecialization (extractedData c4);
                       selectedDoctor := selectedDoctor (extractedData c4);
                       selectedSlot := Some s |}
      | None => c4
      end
  end.

Definition is_hex (c : ascii) : bool :=
  let n := N_of_ascii c in
  ((48 <=? n) && (n <=? 57) || (65 <=? n) && (n <=? 70)
   || (97 <=? n) && (n <=? 102))%N.

(** The texts that cast to an ObjectId: 24 hexadecimal digits. *)
Definition is_object_id (s : string) : bool :=
  (String.length s =? 24)%nat && forallb is_hex (list_ascii_of_string s).

(** Whether [conversation.aiContext = { ...conversation.aiContext,
    ...agentResponse.aiContext, agentData }] records a cast error.  The
    first spread copies the nested [userPreferences] of the document
    itself, which reads its value from the document.  The assignment
    empties [aiContext] before it sets the keys, so that this value reads
    as [undefined] when it is set, and Mongoose records a cast error at
    [aiContext.userPreferences], unless the reply carries a
    [userPreferences] object of its own, which the second spread puts in
    its place. *)
Definition cast_error (o : option AgentAiContext) : bool :=
  match o with
  | None => false
  | Some x => negb (bool_decide (is_Some (a_userPreferences x)))
  end.

(** [if (agentResponse.aiContext) { ... }]: the scalar paths are merged,
    [userPreferences] is replaced, and [agentData] is not stored. *)
Definition apply_aiContext (c : t) (o : option AgentAiContext) : t :=
  match o with
  | None => c
  | Some x =>
      set_aiContext c
        {| fields := spread (fields (aiContext c)) (a_fields x);
           userPreferences := default [] (a_userPreferences x) |}
  end.

(** The body of the [try] block once the agent has answered. *)
Definition process_reply (env : Env) (appts : gmap ObjectId Appointment.t)
    (coll : list t) (c : t) (r : AgentResponse) : Outcome ChatData * list t :=
  let c2 := addMessage (now env) (rnd2 env) c "agent" (r_message r) "text"
              {| agentType := r_agentType r; confidence := r_confidence r;
                 suggestions := r_suggestions r |} in
  let c3 := match r_newStatus r with
            | Some st => if Js.truthy (Some st)
                         then updateStatus (now env) c2 st (r_newStep r) else c2
            | None => c2
            end in
  let c4 := apply_extracted c3 (r_extractedData r) in
  let c5 := apply_aiContext c4 (r_aiContext r) in
  let c6 := if Js.truthy (r_appointmentId r)
            then complete (now env) c5 (r_appointmentId r) else c5 in
  let castError := cast_error (r_aiContext r) in
  match save_loaded castError coll c6 with
  | inl _ => on_error env castError coll c6 "Conversation validation failed"
  | inr coll' =>
      let data ap :=
        {| d_conversationId := conversationId c6;
           d_message := r_message r;
           d_status := status c6;
           d_currentStep := currentStep c6;
           d_suggestions := r_suggestions r;
           d_agentType := r_agentType r;
           d_confidence := r_confidence r;
           d_requiresInput := default true (r_requiresInput r);
           d_isComplete := String.eqb (status c6) "completed";
           d_appointment := ap |} in
      if String.eqb (status c6) "completed" && Js.truthy (appointmentId c6) then
        match appointmentId c6 ≫= (λ i, appts !! i) with
        | Some ap => (Respond 200 (data (Some (Appointment._id ap))), coll')
        | None => on_error env castError coll' c6 "Cannot read properties of null"
        end
      else (Respond 200 (data None), coll')
  end.

(** [chatWithAgent] *)
Definition chatWithAgent (env : Env) (appts : gmap ObjectId Appointment.t)
    (coll : list t) (userId : ObjectId)
    (message conversationId_ : option string) (f : FetchResult)
    : Outcome ChatData * list t :=
  if negb (Js.truthy message) || (String.length (Js.trim (default "" message)) =? 0)%nat
  then (ApiError 400 "Message is required", coll)
  else
    let msg := default "" message in
    let proceed (c : t) (coll1 : list t) :=
      let c1 := addMessage (now env) (rnd1 env) c "user" (Js.trim msg) "text" no_metadata in
      process_reply env appts coll1 c1 (callAIAgentService f) in
    (* if (conversationId) { ... } else { ... } *)
    match (if Js.truthy conversationId_ then conversationId_ else None) with
    | Some cid =>
        match findOne (λ c, has_id cid c && String.eqb (user c) userId && isActive c) coll with
        | None => (ApiError 404 "Conversation not found or expired", coll)
        | Some c =>
            if isExpired (now env) c then
              let c' := set_isActive (set_status c "cancelled") false in
              match save coll false c' with
              | inr coll' =>
                  (ApiError 410 "Conversation session expired. Please start a new conversation.", coll')
              | inl _ => (Throw "ValidationError", coll)
              end
            else proceed c coll
        end
    | None =>
        let c := create (now env) userId (uuid env) "started" "initial_greeting" in
        match save coll true c with
        | inr coll1 => proceed c coll1
        | inl _ => (Throw "save failed", coll)
        end
    end.

Definition greeting : string :=
  "Hello! I'm MediGo, your AI medical assistant. I'm here to help you find the right doctor and book an appointment. Could you please tell me about your symptoms or health concerns?".

(** The [updateMany] of [startNewConversation]. *)
Definition deactivate_open (userId : ObjectId) (coll : list t) : list t :=
  (λ c, if String.eqb (user c) userId && isActive c && open_status c
        then set_status (set_isActive c false) "cancelled"
        else c) <$> coll.

(** [startNewConversation] *)
Definition startNewConversation (env : Env) (coll : list t) (userId : ObjectId)
    : Outcome ChatData * list t :=
  let coll0 := deactivate_open userId coll in
  let c := create (now env) userId (uuid env) "started" "initial_greeting" in
  match save coll0 true c with
  | inl _ => (Throw "save failed", coll0)
  | inr coll1 =>
      let c1 := addMessage (now env) (rnd1 env) c "agent" greeting "text"
                  {| agentType := Some "symptom_analyzer";
                     confidence := Some 1%Q; suggestions := [] |} in
      match save coll1 false c1 with
      | inl _ => (Throw "save failed", coll1)
      | inr coll2 =>
          (Respond 201
             {| d_conversationId := conversationId c1;
                d_message := default "" (content <$> head (messages c1));
                d_status := status c1;
                d_currentStep := currentStep c1;
                d_suggestions := [];
                d_agentType := Some "symptom_analyzer";
                d_confidence := Some 1%Q;
                d_requiresInput := true;
                d_isComplete := false;
                d_appointment := None |}, coll2)
      end
  end.

(** [endConversation] *)
Definition endConversation (env : Env) (coll : list t) (userId : ObjectId)
    (cid : string) : Outcome ChatData * list t :=
  match findOne (λ c, has_id cid c && String.eqb (user c) userId && isActive c) coll with
  | None => (ApiError 404 "Active conversation not found", coll)
  | Some c =>
      let c1 := set_isActive (set_status c "cancelled") false in
      let c2 := addMessage (now env) (rnd1 env) c1 "system"
                  "Conversation ended by user" "text" no_metadata in
      match save coll false c2 with
      | inl _ => (Throw "ValidationError", coll)
      | inr coll' =>
          (Respond 200
             {| d_conversationId := conversationId c2;
                d_message := "";
                d_status := status c2;
                d_currentStep := currentStep c2;
                d_suggestions := [];
                d_agentType := None;
                d_confidence := None;
                d_requiresInput := false;
                d_isComplete := false;
                d_appointment := None |}, coll')
      end
  end.

(** The agent cannot be reached, or answers with a status outside 2xx. *)
Definition agent_down (f : FetchResult) : Prop :=
  f = FetchThrows ∨ ∃ st json, f = FetchResponse st json ∧ response_ok st = false.

(** The conversation as the fallback leaves it. *)
Definition after_fallback (env : Env) (c : t) (msg : string) : t :=
  updateStatus (now env)
    (addMessage (now env) (rnd2 env)
       (addMessage (now env) (rnd1 env) c "user" (Js.trim msg) "text" no_metadata)
       "agent" (r_message fallback) "text"
       {| agentType := Some "system"; confidence := Some 0%Q;
          suggestions := ["Try again"; "Contact support"] |})
    "error" None.

(** The conversation a chat request works on: the active one of the user
    with the given id, not expired, or a new one under a fresh uuid. *)
Definition resolves (env : Env) (coll : list t) (userId : ObjectId)
    (cid : option string) (c : t) : Prop :=
  match cid with
  | Some id =>
      id ≠ ""
      ∧ findOne (λ c, has_id id c && String.eqb (user c) userId && isActive c) coll = Some c
      ∧ isExpired (now env) c = false
      ∧ schema_valid c = true
  | None =>
      uuid env ≠ "" ∧ existsb (has_id (uuid env)) coll = false
      ∧ c = create (now env) userId (uuid env) "started" "initial_greeting"
  end.

End Chat.

(** ** models/user.model.js

    The record keeps the fields the controllers below touch.  The schema
    file at hand predates the controller: the one-time-password fields
    ([emailOTP], [emailOTPExpiry], [resetPasswordOTP],
    [resetPasswordOTPExpiry]) are those that controllers/user.controller.js
    reads and writes. *)
Module User.

Record t := {
  _id : ObjectId;
  firstName : string;
  lastName : string;
  email : string;
  phone : string;
  isActive : bool;
  isEmailVerified : bool;
  emailOTP : option string;
  emailOTPExpiry : option Z;
  resetPasswordOTP : option string;
  resetPasswordOTPExpiry : option Z
}.

Definition set_emailOTP (u : t) (otp : option string) (expiry : option Z) : t :=
  {| _id := _id u; firstName := firstName u; lastName := lastName u;
     email := email u; phone := phone u; isActive := isActive u;
     isEmailVerified := isEmailVerified u;
     emailOTP := otp; emailOTPExpiry := expiry;
     resetPasswordOTP := resetPasswordOTP u;
     resetPasswordOTPExpiry := resetPasswordOTPExpiry u |}.

Definition set_isEmailVerified (u : t) (b : bool) : t :=
  {| _id := _id u; firstName := firstName u; lastName := lastName u;
     email := email u; phone := phone u; isActive := isActive u;
     isEmailVerified := b;
     emailOTP := emailOTP u; emailOTPExpiry := emailOTPExpiry u;
     resetPasswordOTP := resetPasswordOTP u;
     resetPasswordOTPExpiry := resetPasswordOTPExpiry u |}.

Definition set_resetOTP (u : t) (otp : option string) (expiry : option Z) : t :=
  {| _id := _id u; firstName := firstName u; lastName := lastName u;
     email := email u; phone := phone u; isActive := isActive u;
     isEmailVerified := isEmailVerified u;
     emailOTP := emailOTP u; emailOTPExpiry := emailOTPExpiry u;
     resetPasswordOTP := otp; resetPasswordOTPExpiry := expiry |}.

(** The documents of the collection, in some order. *)
Definition docs (users : gmap ObjectId t) : list t := (map_to_list users).*2.

(** [User.findOne(filter)] *)
Definition findOne (p : t → bool) (users : gmap ObjectId t) : option t :=
  List.find p (docs users).

(** [User.findById(id)] *)
Definition findById (users : gmap ObjectId t) (id : option ObjectId) : option t :=
  id ≫= (λ i, users !! i).

(** [findByEmailOrPhone].  Mongoose casts the values of a query filter
    with the setters of their paths, and [email] and [phone] are declared
    [trim: true]: both are compared with the trimmed identifier. *)
Definition findByEmailOrPhone (users : gmap ObjectId t) (identifier : string) : option t :=
  findOne (λ u, (String.eqb (email u) (Js.trim identifier)
                 || String.eqb (phone u) (Js.trim identifier))
                && isActive u) users.

(** [user.save()] of a loaded document whose changed paths carry no
    constraint: an update by [_id]. *)
Definition save (users : gmap ObjectId t) (u : t) : gmap ObjectId t :=
  <[_id u := u]> users.

End User.

(** ** controllers/user.controller.js *)
Module UserController.
Import User.

(** What a request draws from its environment: the clock, the value of
    [generateOTP()], the [_id] given to a created document, and whether
    the mail transport delivers. *)
Record Env := {
  now : Z;
  otp : string;
  newId : ObjectId;
  mailOk : bool
}.

Definition ten_minutes : Z := 10 * 60 * 1000.
Definition fifteen_minutes : Z := 15 * 60 * 1000.

(** [verifyEmail]; [reqUserId] is [req.user.id] and [otp_] the text of
    [req.body.otp]. *)
Definition verifyEmail (env : Env) (users : gmap ObjectId t)
    (reqUserId : ObjectId) (otp_ : option string) : Outcome unit * gmap ObjectId t :=
  if negb (Js.truthy otp_) then (ApiError 400 "Email OTP is required", users)
  else
    match findById users (Some reqUserId) with
    | Some u =>
        if bool_decide (emailOTP u = otp_)
           && match emailOTPExpiry u with
              | Some e => now env <? e
              | None => false
              end
        then
          let u1 := set_isEmailVerified u true in
          let u2 := set_emailOTP u1 None None in
          (Respond 200 (), save users u2)
        else (ApiError 400 "Invalid or expired email OTP", users)
    | None => (ApiError 400 "Invalid or expired email OTP", users)
    end.

(** [resendEmailOTP] *)
Definition resendEmailOTP (env : Env) (users : gmap ObjectId t)
    (reqUserId : ObjectId) : Outcome unit * gmap ObjectId t :=
  match findById users (Some reqUserId) with
  | None => (ApiError 404 "User not found", users)
  | Some u =>
      if isEmailVerified u then (ApiError 400 "Email is already verified", users)
      else
        let newOTP := otp env in
        let u' := set_emailOTP u (Some newOTP) (Some (now env + ten_minutes)) in
        let users' := save users u' in
        if mailOk env then (Respond 200 (), users')
        else (ApiError 500 "Failed to send verification email. Please try again.", users')
  end.

(** [forgotPassword] *)
Definition forgotPassword (env : Env) (users : gmap ObjectId t)
    (email_ : option string) : Outcome unit * gmap ObjectId t :=
  match email_ with
  | None => (ApiError 400 "Email is required", users)
  | Some e =>
      if negb (Js.truthy (Some e)) then (ApiError 400 "Email is required", users)
      else
        match findOne (λ u, String.eqb (email u) (Js.trim (Js.toLowerCase e))
                            && isActive u) users with
        | None => (Respond 200 (), users)
        | Some u =>
            let resetOTP := otp env in
            let resetOTPExpires := now env + fifteen_minutes in
            let u1 := set_resetOTP u (Some resetOTP) (Some resetOTPExpires) in
            let users1 := save users u1 in
            if mailOk env then (Respond 200 (), users1)
            else
              let u2 := set_resetOTP u1 None None in
              (ApiError 500 "Failed to send password reset email. Please try again.",
               save users1 u2)
        end
  end.

Record SignupBody := {
  b_firstName : option string;
  b_lastName : option string;
  b_email : option string;
  b_phone : option string;
  b_password : option string;
  b_dateOfBirth : option string;
  b_gender : option string;
  b_city : option string;
  b_state : option string;
  b_zipCode : option string
}.

Section Signup.
(** The validators of the user schema on a document to create. *)
Variable schema_valid : User.t → bool.

(** The unique indexes on [email] and on [phone]. *)
Definition unique_ok (users : gmap ObjectId t) (u : t) : bool :=
  forallb (λ v, negb (String.eqb (email v) (email u))
                && negb (String.eqb (phone v) (phone u))) (docs users).

(** The document that [signup] hands to [User.create]. *)
Definition userData (env : Env) (b : SignupBody) : t :=
  {| _id := newId env;
     firstName := Js.trim (default "" (b_firstName b));
     lastName := Js.trim (default "" (b_lastName b));
     email := Js.trim (Js.toLowerCase (default "" (b_email b)));
     phone := Js.trim (default "" (b_phone b));
     isActive := true;
     isEmailVerified := false;
     emailOTP := Some (otp env);
     emailOTPExpiry := Some (now env + ten_minutes);
     resetPasswordOTP := None;
     resetPasswordOTPExpiry := None |}.

(** [signup] *)
Definition signup (env : Env) (users : gmap ObjectId t) (b : SignupBody)
    : Outcome ObjectId * gmap ObjectId t :=
  if negb (Js.truthy (b_firstName b) && Js.truthy (b_lastName b) && Js.truthy (b_email b)
           && Js.truthy (b_phone b) && Js.truthy (b_password b)
           && Js.truthy (b_dateOfBirth b) && Js.truthy (b_gender b))
  then (ApiError 400 "All required fields must be provided", users)
  else
    let email_ := default "" (b_email b) in
    let phone_ := default "" (b_phone b) in
    match findByEmailOrPhone users email_, findByEmailOrPhone users phone_ with
    | None, None =>
        if negb (Js.truthy (b_city b) && Js.truthy (b_state b) && Js.truthy (b_zipCode b))
        then (ApiError 400 "Address city, state, and zipCode are required", users)
        else
          let userData := userData env b in
          if negb (schema_valid userData) then (Throw "ValidationError", users)
          else if negb (unique_ok users userData) || bool_decide (is_Some (users !! newId env))
          then (Throw "E11000 duplicate key", users)
          else (Respond 201 (newId env), <[newId env := userData]> users)
    | _, _ => (ApiError 409 "User with this email or phone already exists", users)
    end.
End Signup.

End UserController.

(** ** middleware/auth.middleware.js and the routers *)
Module Auth.

Record Request := {
  cookie_token : option string;       (* req.cookies?.token *)
  authorization : option string       (* req.header("Authorization") *)
}.

(** [s.replace(pat, "")]: the first occurrence of [pat] is removed. *)
Fixpoint remove_first (pat s : string) : string :=
  if String.prefix pat s then String.substring (String.length pat) (String.length s - String.length pat) s
  else match s with
       | EmptyString => EmptyString
       | String c s' => String c (remove_first pat s')
       end.

(** [req.cookies?.token || req.header("Authorization")?.replace("Bearer ", "")] *)
Definition token_of (req : Request) : option string :=
  if Js.truthy (cookie_token req) then cookie_token req
  else remove_first "Bearer " <$> authorization req.

(** The payload of a token minted by [generateAuthToken]. *)
Record Payload := {
  id : option ObjectId
}.

(** The ways [jwt.verify] ends. *)
Inductive JwtResult :=
| Verified (p : Payload)
| JsonWebTokenError
| TokenExpiredError
| NotBeforeError.

Inductive MiddlewareResult :=
| Next (req_user : User.t)
| Rejected (code : Z) (message : string).

Section Authenticate.
(** [jwt.verify(token, process.env.JWT_SECRET)] at the time of the
    request. *)
Variable jwt_verify : string → JwtResult.

(** [authenticate] *)
Definition authenticate (users : gmap ObjectId User.t) (req : Request)
    : MiddlewareResult :=
  let token := token_of req in
  if negb (Js.truthy token) then Rejected 401 "Access token is required"
  else
    match jwt_verify (default "" token) with
    | JsonWebTokenError => Rejected 401 "Invalid access token"
    | TokenExpiredError => Rejected 401 "Access token has expired"
    | NotBeforeError => Rejected 401 "Access token not active"
    | Verified decodedToken =>
        match User.findById users (id decodedToken) with
        | None => Rejected 401 "Invalid access token"
        | Some user =>
            if negb (User.isActive user) then Rejected 403 "Account has been deactivated"
            else Next user
        end
    end.

Inductive Middleware := authenticate_mw.

Inductive Handler :=
| chatWithAgent | startNewConversation | getUserConversations
| getConversationHistory | endConversation
| getUserAppointments | getAppointmentStats | getAppointmentDetails
| cancelAppointment | rescheduleAppointment | getDoctorAvailableSlots
| signup | login | forgotPassword | resetPassword | logout
| getProfile | updateProfile | verifyEmail | changePassword | resendEmailOTP.

(** An entry of an Express router: [router.use(mw)] or a route with its
    own middleware. *)
Inductive RouterItem :=
| Use (mw : Middleware)
| Route (method path : string) (mws : list Middleware) (h : Handler).

Record Endpoint := {
  ep_method : string;
  ep_path : string;
  ep_chain : list Middleware;
  ep_handler : Handler
}.

(** The middleware in front of each route: what [use] installed before
    the route was declared, then the route's own. *)
Fixpoint endpoints_from (installed : list Middleware) (r : list RouterItem)
    : list Endpoint :=
  match r with
  | [] => []
  | Use mw :: r' => endpoints_from (installed ++ [mw])%list r'
  | Route m p mws h :: r' =>
      {| ep_method := m; ep_path := p; ep_chain := (installed ++ mws)%list;
         ep_handler := h |} :: endpoints_from installed r'
  end.

Definition endpoints (r : list RouterItem) : list Endpoint := endpoints_from [] r.

(** routes/chat.routes.js *)
Definition chatRouter : list RouterItem :=
  [ Use authenticate_mw;
    Route "POST" "/message" [] chatWithAgent;
    Route "POST" "/start" [] startNewConversation;
    Route "GET" "/conversations" [] getUserConversations;
    Route "GET" "/conversations/:conversationId" [] getConversationHistory;
    Route "DELETE" "/conversations/:conversationId" [] endConversation ].

(** routes/appointment.routes.js *)
Definition appointmentRouter : list RouterItem :=
  [ Use authenticate_mw;
    Route "GET" "/" [] getUserAppointments;
    Route "GET" "/stats" [] getAppointmentStats;
    Route "GET" "/:appointmentId" [] getAppointmentDetails;
    Route "PATCH" "/:appointmentId/cancel" [] cancelAppointment;
    Route "PATCH" "/:appointmentId/reschedule" [] rescheduleAppointment;
    Route "GET" "/doctors/:doctorId/slots" [] getDoctorAvailableSlots ].

(** routes/user.routes.js *)
Definition userRouter : list RouterItem :=
  [ Route "POST" "/signup" [] signup;
    Route "POST" "/login" [] login;
    Route "POST" "/forgot-password" [] forgotPassword;
    Route "POST" "/reset-password" [] resetPassword;
    Route "POST" "/logout" [authenticate_mw] logout;
    Route "GET" "/profile" [authenticate_mw] getProfile;
    Route "PUT" "/profile" [authenticate_mw] updateProfile;
    Route "POST" "/verify-email" [authenticate_mw] verifyEmail;
    Route "POST" "/change-password" [authenticate_mw] changePassword;
    Route "POST" "/resend-email-otp" [authenticate_mw] resendEmailOTP ].

(** The endpoints the specification calls protected. *)
Definition protected_endpoints : list Endpoint :=
  (filter (λ e, ep_path e = "/profile") (endpoints userRouter)
   ++ endpoints chatRouter ++ endpoints appointmentRouter)%list.

Inductive Served :=
| Invoked (h : Handler) (req_user : option User.t)
| Refused (code : Z) (message : string).

(** Express runs the chain in order; a middleware that throws ends the
    request, one that calls [next()] hands over, [req.user] set. *)
Fixpoint run_chain (users : gmap ObjectId User.t) (req : Request)
    (chain : list Middleware) (req_user : option User.t) (h : Handler) : Served :=
  match chain with
  | [] => Invoked h req_user
  | authenticate_mw :: chain' =>
      match authenticate users req with
      | Next u => run_chain users req chain' (Some u) h
      | Rejected c m => Refused c m
      end
  end.

Definition serve (users : gmap ObjectId User.t) (req : Request) (e : Endpoint) : Served :=
  run_chain users req (ep_chain e) None (ep_handler e).

End Authenticate.

End Auth.


(** ** Sample documents, used to run the operations on concrete input *)
Module Samples.

Definition slot_10_11 : Appointment.TimeSlot :=
  {| Appointment.startTime := "10:00"; Appointment.endTime := "11:00" |}.

Definition appt (id patient_ : ObjectId) (date : Z) (status_ : string) : Appointment.t :=
  {| Appointment._id := id;
     Appointment.patient := patient_;
     Appointment.doctor := "doc1";
     Appointment.appointmentDate := date;
     Appointment.timeSlot := slot_10_11;
     Appointment.symptoms := "headache";
     Appointment.reasonForVisit := "New Symptom";
     Appointment.status := status_;
     Appointment.priority := "medium";
     Appointment.consultationFee := 500%Q;
     Appointment.paymentStatus := "pending";
     Appointment.notes_patient := None;
     Appointment.cancelledAt := None;
     Appointment.cancelledBy := None;
     Appointment.cancellationReason := None |}.

(** Two appointments of two patients with one doctor, same date and slot. *)
Definition apptA : Appointment.t := appt "a" "pat1" 100000000 "scheduled".
Definition apptA_cancelled : Appointment.t := appt "a" "pat1" 100000000 "cancelled".
Definition apptB : Appointment.t := appt "b" "pat2" 100000000 "scheduled".

(** The collection after four saves at time 0: A is booked, A is
    cancelled, B is booked in the freed slot, A is set back to scheduled. *)
Definition store1 : gmap ObjectId Appointment.t := Appointment.after_save 0 ∅ true apptA.
Definition store2 : gmap ObjectId Appointment.t := Appointment.after_save 0 store1 false apptA_cancelled.
Definition store3 : gmap ObjectId Appointment.t := Appointment.after_save 0 store2 true apptB.
Definition store4 : gmap ObjectId Appointment.t := Appointment.after_save 0 store3 false apptA.

(** A conversation of user u1 that has reached slot selection, one that has
    just started, the environment of a request, and an agent reply that
    asks to start over. *)
Definition conv_slot : Conversation.t :=
  Conversation.create 0 "u1" "c1" "selecting_slot" "slot_selection".

Definition conv_started : Conversation.t :=
  Conversation.create 0 "u1" "c1" "started" "initial_greeting".

Definition env1 : Chat.Env :=
  {| Chat.now := 1000; Chat.uuid := "c2"; Chat.rnd1 := "r1"; Chat.rnd2 := "r2" |}.

Definition reply_restart : Chat.AgentResponse :=
  {| Chat.r_message := "Let us start over";
     Chat.r_agentType := Some "symptom_analyzer";
     Chat.r_confidence := Some 1%Q;
     Chat.r_suggestions := [];
     Chat.r_requiresInput := Some true;
     Chat.r_newStatus := Some "started";
     Chat.r_newStep := Some "initial_greeting";
     Chat.r_extractedData := None;
     Chat.r_aiContext := None;
     Chat.r_appointmentId := None |}.


(** A registered user awaiting verification, and two environments that
    differ in whether mail is delivered. *)
Definition user1 : User.t :=
  {| User._id := "u1"; User.firstName := "Asha"; User.lastName := "Rao";
     User.email := "asha@example.com"; User.phone := "+919900000000";
     User.isActive := true; User.isEmailVerified := false;
     User.emailOTP := Some "123456"; User.emailOTPExpiry := Some 600000;
     User.resetPasswordOTP := None; User.resetPasswordOTPExpiry := None |}.

Definition users1 : gmap ObjectId User.t := {[ "u1" := user1 ]}.

Definition uenv_ok : UserController.Env :=
  {| UserController.now := 1000; UserController.otp := "654321";
     UserController.newId := "u2"; UserController.mailOk := true |}.

Definition uenv_mail_down : UserController.Env :=
  {| UserController.now := 1000; UserController.otp := "654321";
     UserController.newId := "u2"; UserController.mailOk := false |}.


(** Three specializations: two active ones and an inactive one. *)
Definition cardiology : Specialization.t Q :=
  {| Specialization.name := "Cardiology";
     Specialization.description := "Heart and circulation";
     Specialization.commonSymptoms :=
       [ {| Specialization.symptom := "Chest pain";
            Specialization.keywords := ["chest"; "pain"; "chest"];
            Specialization.weight := (3 # 2)%Q |};
         {| Specialization.symptom := "Palpitations";
            Specialization.keywords := ["palpitations"; "racing"];
            Specialization.weight := 1%Q |} ];
     Specialization.urgencyKeywords :=
       [ {| Specialization.keyword := "chest"; Specialization.urgencyLevel := "high" |};
         {| Specialization.keyword := "pain"; Specialization.urgencyLevel := "medium" |};
         {| Specialization.keyword := "collapse"; Specialization.urgencyLevel := "urgent" |} ];
     Specialization.isActive := true |}.

Definition dermatology : Specialization.t Q :=
  {| Specialization.name := "Dermatology";
     Specialization.description := "Skin";
     Specialization.commonSymptoms :=
       [ {| Specialization.symptom := "Rash";
            Specialization.keywords := ["rash"; "itching"];
            Specialization.weight := 2%Q |} ];
     Specialization.urgencyKeywords :=
       [ {| Specialization.keyword := "rash"; Specialization.urgencyLevel := "low" |} ];
     Specialization.isActive := true |}.

Definition retired : Specialization.t Q :=
  {| Specialization.name := "Retired";
     Specialization.description := "No longer offered";
     Specialization.commonSymptoms :=
       [ {| Specialization.symptom := "Pain";
            Specialization.keywords := ["pain"];
            Specialization.weight := 10%Q |} ];
     Specialization.urgencyKeywords :=
       [ {| Specialization.keyword := "pain"; Specialization.urgencyLevel := "urgent" |} ];
     Specialization.isActive := false |}.


(** A token verifier standing for [jwt.verify] under one secret and clock:
    'good' is a valid token of u1, 'ghost' a valid token of nobody, 'old'
    has expired, anything else is malformed. *)
Definition sample_jwt (tok : string) : Auth.JwtResult :=
  if String.eqb tok "good" then Auth.Verified {| Auth.id := Some "u1" |}
  else if String.eqb tok "ghost" then Auth.Verified {| Auth.id := Some "nobody" |}
  else if String.eqb tok "old" then Auth.TokenExpiredError
  else Auth.JsonWebTokenError.


End Samples.


(** ** Weights that are no halves, as doubles and as the rationals those
       doubles denote: the doubles nearest to 0.1, 0.4, 0.2 and 1.1 *)
Module DoubleSamples.
Import PrimFloat.

Definition specialization {num} (name_ : string) (k1 : list string) (w1 : num)
    (k2 : list string) (w2 : num) : Specialization.t num :=
  {| Specialization.name := name_;
     Specialization.description := "";
     Specialization.commonSymptoms :=
       [ {| Specialization.symptom := "first"; Specialization.keywords := k1;
            Specialization.weight := w1 |};
         {| Specialization.symptom := "second"; Specialization.keywords := k2;
            Specialization.weight := w2 |} ];
     Specialization.urgencyKeywords := [];
     Specialization.isActive := true |}.

Definition joints : Specialization.t float :=
  specialization "Joints" ["stiff"] 0x1.999999999999ap-4%float
    ["joint"; "knee"; "swollen"] 0x1.999999999999ap-2%float.

Definition back : Specialization.t float :=
  specialization "Back" ["ache"] 0x1.999999999999ap-3%float
    ["sore"] 0x1.199999999999ap+0%float.

Definition joints_exact : Specialization.t Q :=
  specialization "Joints" ["stiff"] (3602879701896397 # 36028797018963968)%Q
    ["joint"; "knee"; "swollen"] (3602879701896397 # 9007199254740992)%Q.

Definition back_exact : Specialization.t Q :=
  specialization "Back" ["ache"] (3602879701896397 # 18014398509481984)%Q
    ["sore"] (2476979795053773 # 2251799813685248)%Q.

End DoubleSamples.

(** ** The order of statuses that the specification calls linear *)
Module StatusOrder.

Definition linear_order : list string :=
  ["started"; "gathering_symptoms"; "analyzing_symptoms"; "recommending_doctor";
   "confirming_doctor"; "checking_availability"; "selecting_slot";
   "confirming_appointment"; "completed"].

Fixpoint index_of (s : string) (l : list string) : option nat :=
  match l with
  | [] => None
  | x :: l' => if String.eqb x s then Some 0%nat else S <$> index_of s l'
  end.

(** [new] comes strictly after [old] in the order. *)
Definition forward (old new : string) : bool :=
  match index_of old linear_order, index_of new linear_order with
  | Some i, Some j => (i <? j)%nat
  | _, _ => false
  end.

End StatusOrder.


(** ** Predicates on the conversation collection *)
Module Collection.
Import Conversation.

(** The unique index on [conversationId]. *)
Definition unique_ids (coll : list t) : Prop := NoDup (conversationId <$> coll).

(** The conversations of everybody but [userId]. *)
Definition others (userId : ObjectId) (coll : list t) : list t :=
  filter (λ c, user c ≠ userId) coll.

(** A stored conversation with this id belongs to [userId]. *)
Definition owns (userId : ObjectId) (cid : string) (coll : list t) : Prop :=
  ∃ d, d ∈ coll ∧ conversationId d = cid ∧ user d = userId.

(** The filter by which the chat controller looks a conversation up. *)
Definition active_of (userId : ObjectId) (cid : string) (c : t) : bool :=
  has_id cid c && String.eqb (user c) userId && isActive c.

(** The owner and the id of a conversation survive every update that the
    chat controller makes to it. *)
Definition same_identity (c c' : t) : Prop :=
  user c' = user c ∧ conversationId c' = conversationId c.

(** Two documents that differ at most in [extractedData] and [aiContext]. *)
Definition same_core (c c' : t) : Prop :=
  user c' = user c ∧ conversationId c' = conversationId c
  ∧ status c' = status c ∧ currentStep c' = currentStep c
  ∧ messages c' = messages c ∧ appointmentId c' = appointmentId c
  ∧ sessionTimeout c' = sessionTimeout c ∧ isActive c' = isActive c
  ∧ completedAt c' = completedAt c ∧ errorLog c' = errorLog c.

(** The conversation as the [try] block of [chatWithAgent] leaves it
    before it is saved: the document [c6] of [process_reply]. *)
Definition replied (env : Chat.Env) (c : t) (r : Chat.AgentResponse) : t :=
  let c2 := addMessage (Chat.now env) (Chat.rnd2 env) c "agent" (Chat.r_message r) "text"
              {| agentType := Chat.r_agentType r; confidence := Chat.r_confidence r;
                 suggestions := Chat.r_suggestions r |} in
  let c3 := match Chat.r_newStatus r with
            | Some st => if Js.truthy (Some st)
                         then updateStatus (Chat.now env) c2 st (Chat.r_newStep r) else c2
            | None => c2
            end in
  let c4 := Chat.apply_extracted c3 (Chat.r_extractedData r) in
  let c5 := Chat.apply_aiContext c4 (Chat.r_aiContext r) in
  if Js.truthy (Chat.r_appointmentId r)
  then complete (Chat.now env) c5 (Chat.r_appointmentId r) else c5.

(** The message [addMessage] appends. *)
Definition message_of (now : Z) (rnd : string) (sender_ content_ messageType_ : string)
    (metadata_ : Metadata) : Message :=
  {| messageId := String.append (pretty now) (String.append "_" rnd);
     sender := sender_; content := Js.trim content_; timestamp := now;
     messageType := messageType_; metadata := metadata_ |}.

End Collection.


(** ** More sample values *)
Module MoreSamples.

(** An agent reply that names a status the schema does not know. *)
Definition reply_unknown_status : Chat.AgentResponse :=
  {| Chat.r_message := "All done";
     Chat.r_agentType := Some "booking_coordinator";
     Chat.r_confidence := Some 1%Q;
     Chat.r_suggestions := [];
     Chat.r_requiresInput := Some false;
     Chat.r_newStatus := Some "finished";
     Chat.r_newStep := None;
     Chat.r_extractedData := None;
     Chat.r_aiContext := None;
     Chat.r_appointmentId := None |}.

(** An agent reply that reports a booked appointment. *)
Definition reply_booked : Chat.AgentResponse :=
  {| Chat.r_message := "Your appointment is booked";
     Chat.r_agentType := Some "booking_coordinator";
     Chat.r_confidence := Some 1%Q;
     Chat.r_suggestions := [];
     Chat.r_requiresInput := Some false;
     Chat.r_newStatus := Some "confirming_appointment";
     Chat.r_newStep := Some "appointment_confirmation";
     Chat.r_extractedData := None;
     Chat.r_aiContext := None;
     Chat.r_appointmentId := Some "64b7f0c2a1d3e4f5a6b7c8d9" |}.

(** An agent reply with an [aiContext] that has no [userPreferences]. *)
Definition reply_context : Chat.AgentResponse :=
  {| Chat.r_message := "Which day suits you?";
     Chat.r_agentType := Some "booking_coordinator";
     Chat.r_confidence := Some 1%Q;
     Chat.r_suggestions := [];
     Chat.r_requiresInput := Some true;
     Chat.r_newStatus := None;
     Chat.r_newStep := None;
     Chat.r_extractedData := None;
     Chat.r_aiContext :=
       Some {| Chat.a_fields := [("lastAgentResponse", "Which day suits you?")];
               Chat.a_userPreferences := None |};
     Chat.r_appointmentId := None |}.

(** A request two hours after [Samples.env1], when the session of a
    conversation created at time 0 has run out. *)
Definition env_late : Chat.Env :=
  {| Chat.now := 7200000; Chat.uuid := "c3"; Chat.rnd1 := "r3"; Chat.rnd2 := "r4" |}.

End MoreSamples.


(** ** Predicates on the user collection *)
Module Users.

(** The unique indexes on [email] and on [phone]. *)
Definition distinct_contacts (users : gmap ObjectId User.t) : Prop :=
  ∀ i j u v, users !! i = Some u → users !! j = Some v → i ≠ j →
    User.email u ≠ User.email v ∧ User.phone u ≠ User.phone v.

(** Every document is stored under its own [_id]. *)
Definition keyed (users : gmap ObjectId User.t) : Prop :=
  ∀ i u, users !! i = Some u → User._id u = i.

(** A complete sign-up body. *)
Definition body1 : UserController.SignupBody :=
  {| UserController.b_firstName := Some "Ravi";
     UserController.b_lastName := Some "Iyer";
     UserController.b_email := Some "Ravi@Example.com";
     UserController.b_phone := Some "+919811111111";
     UserController.b_password := Some "correct horse";
     UserController.b_dateOfBirth := Some "1990-02-28";
     UserController.b_gender := Some "male";
     UserController.b_city := Some "Pune";
     UserController.b_state := Some "MH";
     UserController.b_zipCode := Some "411001" |}.

(** The sample user of [Samples], deactivated. *)
Definition user1_inactive : User.t :=
  {| User._id := "u1"; User.firstName := "Asha"; User.lastName := "Rao";
     User.email := "asha@example.com"; User.phone := "+919900000000";
     User.isActive := false; User.isEmailVerified := false;
     User.emailOTP := None; User.emailOTPExpiry := None;
     User.resetPasswordOTP := None; User.resetPasswordOTPExpiry := None |}.

(** A sign-up body with the email and phone of that user. *)
Definition body_again : UserController.SignupBody :=
  {| UserController.b_firstName := Some "Asha";
     UserController.b_lastName := Some "Rao";
     UserController.b_email := Some "asha@example.com";
     UserController.b_phone := Some "+919900000000";
     UserController.b_password := Some "correct horse";
     UserController.b_dateOfBirth := Some "1990-02-28";
     UserController.b_gender := Some "female";
     UserController.b_city := Some "Pune";
     UserController.b_state := Some "MH";
     UserController.b_zipCode := Some "411001" |}.

End Users.


(** ** models/doctor.model.js *)
Module Doctor.

Record Slot := {
  startTime : string;
  endTime : string;
  maxPatients : Q
}.

Record DayAvailability := {
  day : string;
  slots : list Slot
}.

Record t := {
  _id : ObjectId;
  name : string;
  specialization : string;
  hospital : string;
  experience : Q;
  consultationFee : Q;
  rating : Q;
  availability : list DayAvailability;
  isActive : bool
}.

(** [getAvailableSlotsForDate]; [dayName] is the weekday name that
    [date.toLocaleDateString('en-US', { weekday: 'long' })] gives. *)
Definition getAvailableSlotsForDate (d : t) (dayName : string) : list Slot :=
  match List.find (λ avail, String.eqb (day avail) dayName) (availability d) with
  | None => []
  | Some dayAvailability => slots dayAvailability
  end.

End Doctor.

(** ** The virtuals of models/appointment.model.js *)
Module AppointmentVirtuals.
Import Appointment.

(** [s.split(sep)] for a separator of one character. *)
Fixpoint split_go (sep : ascii) (s : string) (cur : string) : list string :=
  match s with
  | EmptyString => [cur]
  | String c s' =>
      if Ascii.eqb c sep then cur :: split_go sep s' ""
      else split_go sep s' (String.append cur (String c ""))
  end.

Definition split (sep : ascii) (s : string) : list string := split_go sep s "".

Definition digit_value (c : ascii) : option Z :=
  if is_digit c then Some (Z.of_N (N_of_ascii c) - 48) else None.

Fixpoint digits_value (acc : Z) (s : string) : option Z :=
  match s with
  | EmptyString => Some acc
  | String c s' =>
      match digit_value c with
      | Some d => digits_value (acc * 10 + d) s'
      | None => None
      end
  end.

(** [Number(s)] on the strings met here: a string of decimal digits is
    the number it writes, the empty string is 0.  A string with any other
    character is not evaluated ([None]); for most of them [Number] is
    [NaN]. *)
Definition Number (s : string) : option Z := digits_value 0 s.

(** [const [hours, minutes] = time.split(':').map(Number)] *)
Definition hours_minutes (time : string) : option (Z * Z) :=
  match split ":" time with
  | h :: m :: _ =>
      match Number h, Number m with
      | Some hours, Some minutes => Some (hours, minutes)
      | _, _ => None
      end
  | _ => None
  end.

Definition total_minutes (time : string) : option Z :=
  (λ hm, hm.1 * 60 + hm.2) <$> hours_minutes time.

(** The virtual [duration], in minutes. *)
Definition duration (a : t) : option Z :=
  match total_minutes (startTime (timeSlot a)), total_minutes (endTime (timeSlot a)) with
  | Some startTotalMinutes, Some endTotalMinutes =>
      Some (endTotalMinutes - startTotalMinutes)
  | _, _ => None
  end.

(** The virtual [isUpcoming]. *)
Definition isUpcoming (now : Z) (a : t) : bool :=
  (now <? appointmentDate a) && in_enum ["scheduled"; "confirmed"] (status a).

End AppointmentVirtuals.

(** ** controllers/appointment.controller.js, further handlers *)
Module AppointmentController.
Import Appointment.

Definition with_schedule (a : t) (date : Z) (slot : TimeSlot) (status_ : string)
    (notes : option string) : t :=
  {| _id := _id a; patient := patient a; doctor := doctor a;
     appointmentDate := date; timeSlot := slot;
     symptoms := symptoms a; reasonForVisit := reasonForVisit a;
     status := status_; priority := priority a;
     consultationFee := consultationFee a; paymentStatus := paymentStatus a;
     notes_patient := notes;
     cancelledAt := cancelledAt a; cancelledBy := cancelledBy a;
     cancellationReason := cancellationReason a |}.

Record RescheduleData := {
  rd_appointmentId : ObjectId;
  rd_appointmentDate : Z;
  rd_timeSlot : TimeSlot;
  rd_status : string
}.

(** [rescheduleAppointment]; [newDate] is the time that the text
    [req.body.newDate] denotes, [None] when the body has none. *)
Definition rescheduleAppointment (now : Z) (m : gmap ObjectId t)
    (userId appointmentId : ObjectId) (newDate : option Z)
    (newStartTime newEndTime reason : option string)
    : Outcome RescheduleData * gmap ObjectId t :=
  match newDate with
  | None => (ApiError 400 "New date and time slots are required", m)
  | Some newAppointmentDate =>
      if negb (Js.truthy newStartTime) || negb (Js.truthy newEndTime)
      then (ApiError 400 "New date and time slots are required", m)
      else
        let st := default "" newStartTime in
        let et := default "" newEndTime in
        match m !! appointmentId with
        | None => (ApiError 404 "Appointment not found or cannot be rescheduled", m)
        | Some a =>
            if negb (String.eqb (_id a) appointmentId && String.eqb (patient a) userId
                     && in_enum ["scheduled"; "confirmed"] (status a))
            then (ApiError 404 "Appointment not found or cannot be rescheduled", m)
            else if newAppointmentDate <? now
            then (ApiError 400 "New appointment date must be in the future", m)
            else if checkConflict m (doctor a) newAppointmentDate st et (Some appointmentId)
            then (ApiError 409 "The selected time slot is not available", m)
            else
              let a' := with_schedule a newAppointmentDate
                          {| startTime := st; endTime := et |} "scheduled"
                          (if Js.truthy reason then Js.trim <$> reason
                           else notes_patient a) in
              match save now m false a' with
              | inr m' =>
                  (Respond 200
                     {| rd_appointmentId := _id a';
                        rd_appointmentDate := appointmentDate a';
                        rd_timeSlot := timeSlot a';
                        rd_status := status a' |}, m')
              | inl _ => (Throw "save failed", m)
              end
        end
  end.

(** The bookings that [getDoctorAvailableSlots] reads for one day, which
    runs from [dayStart] to [dayEnd]. *)
Definition existingAppointments (m : gmap ObjectId t) (doctorId : ObjectId)
    (dayStart dayEnd : Z) : list t :=
  List.filter (λ a, String.eqb (doctor a) doctorId
                    && (dayStart <=? appointmentDate a) && (appointmentDate a <? dayEnd)
                    && in_enum booked_status (status a))
              (map_to_list m).*2.

(** The slots of a day that [getDoctorAvailableSlots] offers: those that
    no booking repeats with the same start and the same end. *)
Definition availableSlotsForDay (daySlots : list Doctor.Slot) (existing : list t)
    : list Doctor.Slot :=
  List.filter
    (λ slot, negb (existsb (λ appointment,
        String.eqb (startTime (timeSlot appointment)) (Doctor.startTime slot)
        && String.eqb (endTime (timeSlot appointment)) (Doctor.endTime slot)) existing))
    daySlots.

(** The Mongo query that [getUserAppointments] builds, as the test a
    document has to pass.  Later assignments to [query.status] and
    [query.appointmentDate] replace earlier ones.  [startDate] and
    [endDate] are the times that the query texts denote, [None] for a
    missing or empty text. *)
Definition user_query (now : Z) (userId : ObjectId) (status_ upcoming : option string)
    (startDate endDate : option Z) (a : t) : bool :=
  String.eqb (patient a) userId
  && (if bool_decide (upcoming = Some "true")
      then in_enum ["scheduled"; "confirmed"] (status a)
      else match status_ with
           | Some s => if Js.truthy status_ then String.eqb (status a) s else true
           | None => true
           end)
  && match startDate, endDate with
     | Some s, Some e => (s <=? appointmentDate a) && (appointmentDate a <=? e)
     | _, _ => if bool_decide (upcoming = Some "true") then now <=? appointmentDate a
               else true
     end.

Definition date_le (a b : t) : Prop := appointmentDate a ≤ appointmentDate b.
Definition date_ge (a b : t) : Prop := appointmentDate b ≤ appointmentDate a.

#[global] Instance date_le_dec (a b : t) : Decision (date_le a b) :=
  Z_le_dec (appointmentDate a) (appointmentDate b).
#[global] Instance date_ge_dec (a b : t) : Decision (date_ge a b) :=
  Z_le_dec (appointmentDate b) (appointmentDate a).

(** [.limit(limit).skip((page - 1) * limit)]; [page] and [limit] are the
    numbers the query text denotes, both at least 1. *)
Definition paginate {A} (page limit : positive) (l : list A) : list A :=
  take (Pos.to_nat limit) (drop ((Pos.to_nat page - 1) * Pos.to_nat limit) l).

(** [Math.ceil(total / limit)] *)
Definition totalPages (total : nat) (limit : positive) : nat :=
  ((total + Pos.to_nat limit - 1) / Pos.to_nat limit)%nat.

Record Page (A : Type) := {
  items : list A;
  pg_totalPages : nat;
  pg_currentPage : positive;
  pg_total : nat;
  pg_hasNext : bool;
  pg_hasPrev : bool
}.
Arguments items {A}.
Arguments pg_totalPages {A}.
Arguments pg_currentPage {A}.
Arguments pg_total {A}.
Arguments pg_hasNext {A}.
Arguments pg_hasPrev {A}.

(** The documents matching the query, in the order of the sort. *)
Definition findUserAppointments (now : Z) (m : gmap ObjectId t) (userId : ObjectId)
    (status_ upcoming : option string) (startDate endDate : option Z) : list t :=
  let found := List.filter (user_query now userId status_ upcoming startDate endDate)
                           (map_to_list m).*2 in
  if bool_decide (upcoming = Some "true") then merge_sort date_le found
  else merge_sort date_ge found.

(** [getUserAppointments] *)
Definition getUserAppointments (now : Z) (m : gmap ObjectId t) (userId : ObjectId)
    (page limit : positive) (status_ upcoming : option string)
    (startDate endDate : option Z) : Page t :=
  let all := findUserAppointments now m userId status_ upcoming startDate endDate in
  let total := List.length all in
  {| items := paginate page limit all;
     pg_totalPages := totalPages total limit;
     pg_currentPage := page;
     pg_total := total;
     pg_hasNext := (Pos.to_nat page <? totalPages total limit)%nat;
     pg_hasPrev := (1 <? Pos.to_nat page)%nat |}.

(** [findByDateRange] of the model; the options are the optional
    [doctor], [patient] and [status] filters. *)
Definition findByDateRange (m : gmap ObjectId t) (startDate endDate : Z)
    (o_doctor o_patient o_status : option string) : list t :=
  let opt (o : option string) (v : string) :=
    match o with
    | Some x => if Js.truthy o then String.eqb v x else true
    | None => true
    end in
  merge_sort date_le
    (List.filter (λ a, (startDate <=? appointmentDate a) && (appointmentDate a <=? endDate)
                       && opt o_doctor (doctor a) && opt o_patient (patient a)
                       && opt o_status (status a))
                 (map_to_list m).*2).

End AppointmentController.


(** ** Character codes, for the times of day *)
Module Chars.

Definition code (c : ascii) : Z := Z.of_N (N_of_ascii c).

Definition all_ascii : list ascii := List.map ascii_of_nat (seq 0 256).

End Chars.



(** ** controllers/user.controller.js: the handlers that read or write
       the password *)
Module Account.
Import User UserController.

(** The [password] path of the user documents, by [_id]; queries leave
    it out unless they ask for it. *)
Abbreviation Passwords := (gmap ObjectId string) (only parsing).

Record LoginData := {
  ld_user : option User.t;
  ld_token : string
}.

Section Bcrypt.
(** [bcrypt.hash(password, 12)], as the pre-save hook of the user schema
    calls it when [password] was modified, and
    [bcrypt.compare(candidate, stored)]. *)
Variable hash : string → string.
Variable compare : string → string → bool.
(** [user.generateAuthToken()]: [jwt.sign] of the user's [_id], [email]
    and role. *)
Variable generateAuthToken : User.t → string.

(** [user.comparePassword(candidate)]; [None] when the comparison throws,
    the document having no password. *)
Definition comparePassword (pw : Passwords) (u : User.t) (candidate : string)
    : option bool :=
  compare candidate <$> pw !! _id u.

(** [login] *)
Definition login (users : gmap ObjectId User.t) (pw : Passwords)
    (identifier password : option string) : Outcome LoginData :=
  if negb (Js.truthy identifier) || negb (Js.truthy password)
  then ApiError 400 "Email/Phone and password are required"
  else
    match findByEmailOrPhone users (Js.trim (Js.toLowerCase (default "" identifier))) with
    | None => ApiError 401 "Invalid credentials"
    | Some user =>
        if negb (isActive user)
        then ApiError 403 "Account has been deactivated. Please contact support."
        else
          match comparePassword pw user (default "" password) with
          | None => Throw "Password comparison failed"
          | Some false => ApiError 401 "Invalid credentials"
          | Some true =>
              Respond 200 {| ld_user := findById users (Some (_id user));
                             ld_token := generateAuthToken user |}
          end
    end.

(** The filter of the query in [resetPassword]. *)
Definition reset_query (env : Env) (email_ otp_ : option string) (u : User.t) : bool :=
  String.eqb (email u) (Js.trim (Js.toLowerCase (default "" email_)))
  && bool_decide (resetPasswordOTP u = otp_)
  && match resetPasswordOTPExpiry u with
     | Some e => now env <? e
     | None => false
     end
  && isActive u.

(** [resetPassword]; whether the confirmation mail goes out has no effect
    on it. *)
Definition resetPassword (env : Env) (users : gmap ObjectId User.t) (pw : Passwords)
    (email_ otp_ newPassword : option string)
    : Outcome unit * (gmap ObjectId User.t * Passwords) :=
  if negb (Js.truthy email_) || negb (Js.truthy otp_) || negb (Js.truthy newPassword)
  then (ApiError 400 "Email, OTP and new password are required", (users, pw))
  else if (Js.length (default "" newPassword) <? 8)%nat
  then (ApiError 400 "Password must be at least 8 characters long", (users, pw))
  else
    match findOne (reset_query env email_ otp_) users with
    | None => (ApiError 400 "Invalid or expired password reset OTP", (users, pw))
    | Some user =>
        (Respond 200 (),
         (save users (set_resetOTP user None None),
          <[_id user := hash (default "" newPassword)]> pw))
    end.

(** [changePassword]; [reqUserId] is [req.user.id]. *)
Definition changePassword (users : gmap ObjectId User.t) (pw : Passwords)
    (reqUserId : ObjectId) (currentPassword newPassword : option string)
    : Outcome unit * Passwords :=
  if negb (Js.truthy currentPassword) || negb (Js.truthy newPassword)
  then (ApiError 400 "Current password and new password are required", pw)
  else if (Js.length (default "" newPassword) <? 8)%nat
  then (ApiError 400 "New password must be at least 8 characters long", pw)
  else
    match findById users (Some reqUserId) with
    | None => (ApiError 404 "User not found", pw)
    | Some user =>
        match comparePassword pw user (default "" currentPassword) with
        | None => (Throw "Password comparison failed", pw)
        | Some false => (ApiError 400 "Current password is incorrect", pw)
        | Some true =>
            match comparePassword pw user (default "" newPassword) with
            | None => (Throw "Password comparison failed", pw)
            | Some true =>
                (ApiError 400 "New password must be different from current password", pw)
            | Some false =>
                (Respond 200 (), <[_id user := hash (default "" newPassword)]> pw)
            end
        end
    end.

End Bcrypt.

End Account.

(** ** middleware/auth.middleware.js: [optionalAuth] *)
Module OptionalAuth.
Import Auth.

Section OptionalAuth.
Variable jwt_verify : string → JwtResult.

(** [optionalAuth]: the value of [req.user] with which [next()] is
    called; every failure is swallowed. *)
Definition optionalAuth (users : gmap ObjectId User.t) (req : Request)
    : option User.t :=
  let token := token_of req in
  if Js.truthy token then
    match jwt_verify (default "" token) with
    | Verified decodedToken =>
        match User.findById users (id decodedToken) with
        | Some user => if User.isActive user then Some user else None
        | None => None
        end
    | _ => None
    end
  else None.

End OptionalAuth.

End OptionalAuth.

(** ** controllers/doctor.controller.js *)
Module DoctorController.

(** A value of [req.query] after the destructuring with defaults. *)
Inductive QueryValue :=
| QBool (b : bool)
| QString (s : string).

(** [v === 'true'] *)
Definition is_true_text (v : QueryValue) : bool :=
  match v with
  | QString s => String.eqb s "true"
  | QBool _ => false
  end.

Definition name_le {num} (a b : Specialization.t num) : Prop :=
  Js.str_le (Specialization.name a) (Specialization.name b) = true.

#[global] Instance name_le_dec {num} : RelDecision (@name_le num).
Proof. intros a b. unfold name_le. apply _. Defined.

(** [getSpecializations] for a request without [search];
    [isActive_] is the text of the query parameter, if there is one. *)
Definition getSpecializations {num} (coll : list (Specialization.t num))
    (isActive_ : option string) : list (Specialization.t num) :=
  let isActive := match isActive_ with
                  | None => QBool true           (* { isActive = true } = req.query *)
                  | Some s => QString s
                  end in
  let wanted := is_true_text isActive in
  merge_sort name_le
    (List.filter (λ s, Bool.eqb (Specialization.isActive s) wanted) coll).

Record SearchData (num : Type) := {
  sd_doctors : list Doctor.t;
  sd_specializations : list (Specialization.Scored num);
  sd_urgencyLevel : option string;
  sd_totalDoctors : nat
}.
Arguments sd_doctors {num}.
Arguments sd_specializations {num}.
Arguments sd_urgencyLevel {num}.
Arguments sd_totalDoctors {num}.

Definition rating_ge (a b : Doctor.t) : Prop :=
  Qle_bool (Doctor.rating b) (Doctor.rating a) = true.

#[global] Instance rating_ge_dec : RelDecision rating_ge.
Proof. intros a b. unfold rating_ge. apply _. Defined.

(** [searchDoctorsBySymptoms]; [page] and [limit] are the numbers the
    query texts denote, both at least 1. *)
Definition searchDoctorsBySymptoms {num} {numbers : Specialization.Numbers num}
    (specs : list (Specialization.t num)) (doctors : list Doctor.t)
    (symptoms : option string) (page limit : positive) : Outcome (SearchData num) :=
  match symptoms with
  | None => ApiError 400 "Symptoms are required"
  | Some s =>
      if negb (Js.truthy symptoms) || (String.length (Js.trim s) =? 0)%nat
      then ApiError 400 "Symptoms are required"
      else
        let matchingSpecializations := Specialization.findBySymptoms specs s in
        if (List.length matchingSpecializations =? 0)%nat
        then Respond 200 {| sd_doctors := []; sd_specializations := [];
                            sd_urgencyLevel := None; sd_totalDoctors := 0 |}
        else
          let specializationNames :=
            (λ spec, Specialization.name (Specialization.doc spec))
              <$> take 3 matchingSpecializations in
          let found :=
            AppointmentController.paginate page limit
              (merge_sort rating_ge
                 (List.filter (λ d, bool_decide (Doctor.specialization d ∈ specializationNames)
                                    && Doctor.isActive d) doctors)) in
          let urgencyLevel :=
            match Specialization.getUrgencyLevel specs s with
            | maxUrgency :: _ => maxUrgency
            | [] => "medium"
            end in
          Respond 200 {| sd_doctors := found;
                         sd_specializations := take 3 matchingSpecializations;
                         sd_urgencyLevel := Some urgencyLevel;
                         sd_totalDoctors := List.length found |}
  end.

End DoctorController.

(** ** Saving a document of a model whose schema declares field
       constraints and unique indexes only *)
Module Crud.

Inductive SaveError := ValidationError | DuplicateKey | DocumentNotFound.

Section Model.
Context {D : Type}.

(** The per-field constraints that the schema declares. *)
Variable validators : D → bool.

(** The paths that carry a unique index. *)
Variable unique : list (D → string).

(** Another stored document has the value of [d] at a unique path. *)
Definition clashes (m : gmap ObjectId D) (id : ObjectId) (d : D) : bool :=
  existsb (λ kv, negb (String.eqb kv.1 id)
                 && existsb (λ path, String.eqb (path kv.2) (path d)) unique)
          (map_to_list m).

(** [doc.save()]: validation, then the write (an insert for a new
    document, an update by [_id] otherwise), which the unique indexes
    refuse when another document holds a value of the document. *)
Definition save (m : gmap ObjectId D) (isNew : bool) (id : ObjectId) (d : D)
    : SaveError + gmap ObjectId D :=
  if negb (validators d) then inl ValidationError
  else match m !! id, isNew with
       | Some _, true => inl DuplicateKey
       | None, false => inl DocumentNotFound
       | _, _ => if clashes m id d then inl DuplicateKey
                 else inr (<[id := d]> m)
       end.

End Model.

(** models/user.model.js: unique indexes on [email] and on [phone].  The
    pre-save hook replaces a modified password by its hash and refuses
    nothing. *)
Definition save_user (validators : User.t → bool) :=
  save validators [User.email; User.phone].

(** models/doctor.model.js: no unique index and no hook. *)
Definition save_doctor (validators : Doctor.t → bool) :=
  save validators [].

(** The specialization schema: [name] is [unique: true]; no hook. *)
Definition save_specialization {num} (validators : Specialization.t num → bool) :=
  save validators [Specialization.name].

End Crud.

(** ** Three doctors *)
Module DoctorSamples.

Definition doctor (id name_ spec : string) (rating_ : Q) (active : bool) : Doctor.t :=
  {| Doctor._id := id; Doctor.name := name_; Doctor.specialization := spec;
     Doctor.hospital := "City Hospital"; Doctor.experience := 10;
     Doctor.consultationFee := 500; Doctor.rating := rating_;
     Doctor.availability := []; Doctor.isActive := active |}.

Definition doctors : list Doctor.t :=
  [ doctor "d1" "Dr. Iyer" "Cardiology" (4 # 1) true;
    doctor "d2" "Dr. Shah" "Dermatology" (5 # 1) true;
    doctor "d3" "Dr. Rao" "Cardiology" (9 # 2) true;
    doctor "d4" "Dr. Bose" "Cardiology" (5 # 1) false ].

End DoctorSamples.

(** ** Sample accounts *)
Module AccountSamples.

(** Stand-ins for bcrypt and for the token signer: the hash of a password
    is the password behind a prefix, and the token of every user is the
    token 'good' of [Samples.sample_jwt]. *)
Definition hash (p : string) : string := String.append "h:" p.
Definition compare (candidate stored : string) : bool := String.eqb (hash candidate) stored.
Definition token (u : User.t) : string := "good".

Definition passwords1 : gmap ObjectId string := {[ "u1" := hash "old secret" ]}.

End AccountSamples.



(** ** utils/userUtils.js: [calculateAge], and the virtual [age] of the
       user schema, which has the same body *)
Module UserUtils.

(** What the code reads of a [Date]: [getFullYear()], [getMonth()] and
    [getDate()]. *)
Record Day := {
  fullYear : Z;
  month : Z;
  date : Z
}.

(** [calculateAge]; [today] is [new Date()], and [None] is [null]. *)
Definition calculateAge (today : Day) (dateOfBirth : option Day) : option Z :=
  match dateOfBirth with
  | None => None
  | Some dob =>
      let age := fullYear today - fullYear dob in
      let monthDiff := month today - month dob in
      if (monthDiff <? 0) || ((monthDiff =? 0) && (date today <? date dob))
      then Some (age - 1)
      else Some age
  end.

(** The order of days in the calendar. *)
Definition day_lt (a b : Day) : Prop :=
  fullYear a < fullYear b
  ∨ (fullYear a = fullYear b
     ∧ (month a < month b ∨ (month a = month b ∧ date a < date b))).

(** The day of the birthday [k] years after the birth. *)
Definition birthday (dob : Day) (k : Z) : Day :=
  {| fullYear := fullYear dob + k; month := month dob; date := date dob |}.

End UserUtils.



(** * Properties *)

(** ** Symptom matching *)
Section SpecializationProps.
Import Specialization.

Lemma Qltb_lt (x y : Q) : Qltb x y = true ↔ (x < y)%Q.
Proof.
  unfold Qltb. rewrite negb_true_iff. split.
  - intros H. apply Qnot_le_lt. intros Hle. apply Qle_bool_iff in Hle. congruence.
  - intros H. destruct (Qle_bool y x) eqn:E; [|done].
    apply Qle_bool_iff in E. exfalso. eapply Qlt_not_le; eauto.
Qed.

Lemma take_elem_of {A} (n : nat) (l : list A) (x : A) : x ∈ take n l → x ∈ l.
Proof.
  intros H. rewrite <- (take_drop n l). apply elem_of_app. by left.
Qed.

(** What is left out of the first [n] of a sorted list comes after all of
    them, and then there are [n] of them. *)
Lemma sorted_top {A} (R : relation A) (n : nat) (L : list A) (x : A) :
  StronglySorted R L → x ∈ L →
  x ∈ take n L ∨ (List.length (take n L) = n ∧ ∀ r, r ∈ take n L → R r x).
Proof.
  intros HL Hin. rewrite <- (take_drop n L) in Hin, HL.
  apply elem_of_app in Hin as [Hin|Hin]; [by left|]. right. split.
  - rewrite length_take.
    destruct (decide (n ≤ List.length L)%nat) as [|Hn]; [lia|].
    rewrite drop_ge in Hin by lia. by apply elem_of_nil in Hin.
  - intros r Hr. exact (StronglySorted_app_1_elem_of _ _ _ _ _ HL Hr Hin).
Qed.

Context {num : Type} {numbers : Numbers num}.

#[global] Instance score_ge_total : Total (score_ge (num := num)).
Proof. intros a b. unfold score_ge. apply sort_ge_total. Qed.

#[global] Instance score_ge_trans : Transitive (score_ge (num := num)).
Proof. intros a b c. unfold score_ge. apply sort_ge_trans. Qed.

Lemma candidates_elem_of (coll : list (t num)) W r :
  r ∈ candidates coll W ↔
  ∃ d, d ∈ coll ∧ isActive d = true ∧ r = addFields W d
       ∧ gt_zero (computeScore W d) = true.
Proof.
  unfold candidates. rewrite list_elem_of_filter, list_elem_of_fmap. split.
  - intros [Hs (d & -> & Hd)]. apply list_elem_of_filter in Hd as [Ha Hd].
    exists d. repeat split; auto.
  - intros (d & Hd & Ha & -> & Hs). split; [done|].
    exists d. split; [done|]. apply list_elem_of_filter. auto.
Qed.

(** [findBySymptoms] is the first five of the candidates in sorted order. *)
Lemma findBySymptoms_sorted (coll : list (t num)) (s : string) :
  ∃ L, findBySymptoms coll s = take 5 L
       ∧ StronglySorted score_ge L
       ∧ L ≡ₚ candidates coll (Js.split_ws (Js.toLowerCase s)).
Proof.
  exists (merge_sort score_ge (candidates coll (Js.split_ws (Js.toLowerCase s)))).
  split_and!.
  - reflexivity.
  - apply (StronglySorted_merge_sort _).
  - apply merge_sort_Permutation.
Qed.

(** C1. [findBySymptoms] returns documents that are active and whose
    [matchScore] is the sum, over the entries of [commonSymptoms], of the
    weight multiplied by the number of the entry's keywords found among
    the white-space separated words of the lowercased text, and is above
    0; they come in descending order of [matchScore], at most five of
    them, each from the collection and none more often than there; and an
    active document with such a sum above 0 is left out only when five
    documents that the sort puts before it are returned.  The sum and the
    product are those of the pipeline's arithmetic, whatever it is. *)
Theorem findBySymptoms_spec (coll : list (t num)) (s : string) :
  let W := Js.split_ws (Js.toLowerCase s) in
  let score (d : t num) : num :=
    sum ((λ e, multiply (weight e)
                 (size (list_to_set (keywords e) ∩ list_to_set W : gset string)))
         <$> commonSymptoms d) in
  let res := findBySymptoms coll s in
  (List.length res ≤ 5)%nat
  ∧ StronglySorted (λ a b, sort_ge (matchScore a) (matchScore b) = true) res
  ∧ res ⊆+ ((λ d, {| doc := d; matchScore := score d |}) <$> coll)
  ∧ (∀ r, r ∈ res →
       doc r ∈ coll ∧ isActive (doc r) = true
       ∧ matchScore r = score (doc r)
       ∧ gt_zero (matchScore r) = true)
  ∧ (∀ d, d ∈ coll → isActive d = true → gt_zero (score d) = true →
       {| doc := d; matchScore := score d |} ∈ res
       ∨ (List.length res = 5%nat
          ∧ ∀ r, r ∈ res → sort_ge (matchScore r) (score d) = true)).
Proof.
  intros W score res.
  destruct (findBySymptoms_sorted coll s) as (L & Hres & HL & HP).
  fold W in HP. fold res in Hres.
  assert (Hadd : ∀ d, addFields W d = {| doc := d; matchScore := score d |})
    by reflexivity.
  split_and!.
  - rewrite Hres, length_take. lia.
  - rewrite Hres. rewrite <- (take_drop 5 L) in HL.
    by apply StronglySorted_app_1_l in HL.
  - rewrite Hres. trans L; [apply sublist_submseteq, sublist_take|].
    rewrite HP. apply sublist_submseteq. unfold candidates.
    etrans; [apply sublist_filter|].
    change (λ d, {| doc := d; matchScore := score d |}) with (addFields W).
    apply fmap_sublist, sublist_filter.
  - intros r Hr. rewrite Hres in Hr. apply take_elem_of in Hr.
    rewrite HP in Hr. apply candidates_elem_of in Hr as (d & Hd & Ha & -> & Hs).
    simpl. auto.
  - intros d Hd Ha Hs.
    assert (Hin : addFields W d ∈ L).
    { rewrite HP. apply candidates_elem_of. eauto 6. }
    rewrite Hres.
    destruct (sorted_top score_ge 5 L _ HL Hin) as [Htop|[Hlen Hge]]; [by left|].
    right. split; [done|]. intros r Hr. exact (Hge r Hr).
Qed.

End SpecializationProps.

(** ** Symptom matching in two arithmetics *)
Section SpecializationExamples.
Import Specialization.

(** With weights that are integers and halves no product or sum is
    rounded. *)
Example findBySymptoms_example :
  (λ r, (name (doc r), matchScore r)) <$>
    findBySymptoms [Samples.dermatology; Samples.retired; Samples.cardiology]
                   " Chest PAIN  with a rash"
  = [("Cardiology", (6 # 2)%Q); ("Dermatology", (2 # 1)%Q)].
Proof. vm_compute. reflexivity. Qed.

(** In doubles the first specialization scores 0.1 + 0.4 * 3, which rounds
    to 1.3000000000000003, and the second 0.2 + 1.1, which rounds to 1.3:
    the first is listed first.  The rationals that these four doubles
    denote, added and multiplied without rounding, give the other order. *)
Example findBySymptoms_doubles :
  (λ r, name (doc r)) <$>
    findBySymptoms [DoubleSamples.back; DoubleSamples.joints] "stiff swollen knee joint sore ache"
  = ["Joints"; "Back"]
  ∧ (λ r, name (doc r)) <$>
      findBySymptoms [DoubleSamples.back_exact; DoubleSamples.joints_exact]
                     "stiff swollen knee joint sore ache"
    = ["Back"; "Joints"].
Proof. split; vm_compute; reflexivity. Qed.

End SpecializationExamples.

(** ** Binary order on strings *)
Section StringOrder.

Lemma compare_as_OT (a b : string) :
  OrdersEx.String_as_OT.compare a b = String.compare a b.
Proof.
  revert b. induction a as [|c a IH]; intros [|d b]; simpl; reflexivity.
Qed.

Lemma str_lt_iff (a b : string) : Js.str_lt a b = true ↔ String.compare a b = Lt.
Proof. unfold Js.str_lt, String.ltb. destruct (String.compare a b); naive_solver. Qed.

Lemma str_le_iff (a b : string) : Js.str_le a b = true ↔ String.compare a b ≠ Gt.
Proof. unfold Js.str_le, String.leb. destruct (String.compare a b); naive_solver. Qed.

Lemma compare_lt_trans (a b c : string) :
  String.compare a b = Lt → String.compare b c = Lt → String.compare a c = Lt.
Proof.
  rewrite <- !compare_as_OT. intros H1 H2.
  exact (StrictOrder_Transitive (R := OrdersEx.String_as_OT.lt) a b c H1 H2).
Qed.

Lemma compare_refl (a : string) : String.compare a a = Eq.
Proof.
  destruct (String.compare a a) eqn:E; [done| |].
  - rewrite <- compare_as_OT in E.
    by destruct (StrictOrder_Irreflexive (R := OrdersEx.String_as_OT.lt) a).
  - rewrite String.compare_antisym in E. destruct (String.compare a a) eqn:E'; try done.
    rewrite <- compare_as_OT in E'.
    by destruct (StrictOrder_Irreflexive (R := OrdersEx.String_as_OT.lt) a).
Qed.

Lemma str_le_refl (a : string) : Js.str_le a a = true.
Proof. apply str_le_iff. by rewrite compare_refl. Qed.

Lemma str_le_trans (a b c : string) :
  Js.str_le a b = true → Js.str_le b c = true → Js.str_le a c = true.
Proof.
  rewrite !str_le_iff. intros H1 H2.
  destruct (String.compare a b) eqn:E1; [|clear H1|done].
  - apply String.compare_eq_iff in E1. by subst.
  - destruct (String.compare b c) eqn:E2; [| |done].
    + apply String.compare_eq_iff in E2. subst. by rewrite E1.
    + by rewrite (compare_lt_trans a b c).
Qed.

Lemma str_lt_le (a b : string) : Js.str_lt a b = true → Js.str_le a b = true.
Proof. rewrite str_lt_iff, str_le_iff. by intros ->. Qed.

Lemma str_not_lt_le (a b : string) : Js.str_lt a b = false → Js.str_le b a = true.
Proof.
  intros H. apply str_le_iff. rewrite String.compare_antisym.
  destruct (String.compare a b) eqn:E; simpl; try done.
  apply str_lt_iff in E. congruence.
Qed.

End StringOrder.

(** ** Urgency level *)
Section UrgencyProps.
Import Specialization.
Context {num : Type}.

Lemma str_max_cases (a b : string) :
  (str_max a b = a ∨ str_max a b = b)
  ∧ Js.str_le a (str_max a b) = true ∧ Js.str_le b (str_max a b) = true.
Proof.
  unfold str_max. destruct (Js.str_lt a b) eqn:E.
  - split_and!; auto using str_lt_le, str_le_refl.
  - split_and!; auto using str_not_lt_le, str_le_refl.
Qed.

Lemma foldl_str_max (l : list string) (x : string) :
  foldl str_max x l ∈ x :: l
  ∧ ∀ y, y ∈ x :: l → Js.str_le y (foldl str_max x l) = true.
Proof.
  revert x. induction l as [|z l IH]; intros x; simpl.
  - split; [apply elem_of_cons; by left|].
    intros y ->%list_elem_of_singleton. apply str_le_refl.
  - destruct (IH (str_max x z)) as [Hin Hmax].
    destruct (str_max_cases x z) as (Hc & Hx & Hz).
    assert (Htop : Js.str_le (str_max x z) (foldl str_max (str_max x z) l) = true).
    { apply Hmax, elem_of_cons. by left. }
    split.
    + apply elem_of_cons in Hin as [Hin|Hin].
      * rewrite Hin. destruct Hc as [->| ->].
        -- apply elem_of_cons. by left.
        -- apply elem_of_cons. right. apply elem_of_cons. by left.
      * apply elem_of_cons. right. apply elem_of_cons. by right.
    + intros y Hy. apply elem_of_cons in Hy as [->|Hy].
      * eapply str_le_trans; [exact Hx|exact Htop].
      * apply elem_of_cons in Hy as [->|Hy].
        -- eapply str_le_trans; [exact Hz|exact Htop].
        -- apply Hmax, elem_of_cons. by right.
Qed.

Lemma max_of_spec (l : list string) :
  match max_of l with
  | None => l = []
  | Some m => m ∈ l ∧ ∀ y, y ∈ l → Js.str_le y m = true
  end.
Proof. destruct l as [|x l]; simpl; [done|]. apply foldl_str_max. Qed.

Lemma matchedLevels_elem_of (coll : list (t num)) (s l : string) :
  l ∈ matchedLevels coll s ↔
  ∃ d k, d ∈ coll ∧ k ∈ urgencyKeywords d ∧ isActive d = true
         ∧ keyword k ∈ Js.split_ws (Js.toLowerCase s) ∧ urgencyLevel k = l.
Proof.
  unfold matchedLevels, unwind. rewrite list_elem_of_fmap. split.
  - intros ([d k] & -> & H). apply list_elem_of_filter in H as [[Ha Hk] H].
    apply list_elem_of_bind in H as (d' & H & Hd).
    apply list_elem_of_fmap in H as (k' & [= -> ->] & Hk').
    exists d', k'. auto.
  - intros (d & k & Hd & Hk & Ha & Hw & <-). exists (d, k). split; [done|].
    apply list_elem_of_filter. split; [done|].
    apply list_elem_of_bind. exists d. split; [|done].
    apply list_elem_of_fmap. eauto.
Qed.

(** C9. [getUrgencyLevel] reports the greatest, in the binary order of
    strings, of the levels of the urgency keywords of active
    specializations that occur among the words of the lowercased text, and
    nothing when none occurs.  In that order 'high' is below 'medium': when
    a 'high' and a 'medium' keyword both match, the report is never 'high',
    and it is 'medium' unless an 'urgent' keyword matches too. *)
Theorem getUrgencyLevel_spec (coll : list (t num)) (s : string) :
  let L := matchedLevels coll s in
  (∀ l, l ∈ L ↔
     ∃ d k, d ∈ coll ∧ k ∈ urgencyKeywords d ∧ isActive d = true
            ∧ keyword k ∈ Js.split_ws (Js.toLowerCase s) ∧ urgencyLevel k = l)
  ∧ (L = [] → getUrgencyLevel coll s = [])
  ∧ (L ≠ [] → ∃ m, getUrgencyLevel coll s = [m] ∧ m ∈ L
                   ∧ ∀ l, l ∈ L → Js.str_le l m = true)
  ∧ Js.str_lt "high" "medium" = true
  ∧ ("high" ∈ L → "medium" ∈ L →
     (∀ l, l ∈ L → l ∈ ["low"; "medium"; "high"; "urgent"]) →
     getUrgencyLevel coll s ≠ ["high"]
     ∧ getUrgencyLevel coll s =
         [if bool_decide ("urgent" ∈ L) then "urgent" else "medium"]).
Proof.
  intros L. split_and!.
  - intros l. apply matchedLevels_elem_of.
  - unfold getUrgencyLevel. fold L. by intros ->.
  - intros HL. unfold getUrgencyLevel. fold L.
    pose proof (max_of_spec L) as HM. destruct (max_of L) as [m|]; [|done].
    destruct HM as [Hin Hmax]. exists m. auto.
  - reflexivity.
  - intros Hh Hm Henum. unfold getUrgencyLevel. fold L.
    pose proof (max_of_spec L) as HM. destruct (max_of L) as [m|].
    2:{ rewrite HM in Hh. by apply elem_of_nil in Hh. }
    destruct HM as [Hin Hmax].
    assert (Hmm : Js.str_le "medium" m = true) by auto.
    assert (Hcases : m = "low" ∨ m = "medium" ∨ m = "high" ∨ m = "urgent").
    { pose proof (Henum m Hin) as He.
      repeat (apply elem_of_cons in He as [He|He]; [tauto|]).
      by apply elem_of_nil in He. }
    case_bool_decide as Hu.
    + assert (Hum : Js.str_le "urgent" m = true) by auto.
      destruct Hcases as [->|[->|[->| ->]]];
        try (vm_compute in Hum; discriminate). by split.
    + destruct Hcases as [->|[->|[->| ->]]];
        try (vm_compute in Hmm; discriminate); [by split|done].
Qed.

(** C9, as stated, fails: of the urgency keywords of cardiology 'chest'
    is 'high', 'pain' is 'medium' and 'collapse' is 'urgent'.  All three
    occur in the text, so a 'high' and a 'medium' keyword both match, every
    matched level is one of the four, and the report is 'urgent', not
    'medium'. *)
Lemma high_and_medium_yet_urgent :
  let L := matchedLevels [Samples.cardiology] "chest pain then collapse" in
  "high" ∈ L ∧ "medium" ∈ L
  ∧ (∀ l, l ∈ L → l ∈ ["low"; "medium"; "high"; "urgent"])
  ∧ getUrgencyLevel [Samples.cardiology] "chest pain then collapse" = ["urgent"]
  ∧ getUrgencyLevel [Samples.cardiology] "chest pain then collapse" ≠ ["medium"].
Proof.
  cbv zeta.
  assert (matchedLevels [Samples.cardiology] "chest pain then collapse"
          = ["high"; "medium"; "urgent"]) as -> by (vm_compute; reflexivity).
  assert (getUrgencyLevel [Samples.cardiology] "chest pain then collapse"
          = ["urgent"]) as -> by (vm_compute; reflexivity).
  split_and!; [| | |reflexivity|discriminate].
  - apply elem_of_cons. by left.
  - apply elem_of_cons. right. apply elem_of_cons. by left.
  - intros l Hl. rewrite !elem_of_cons in Hl. rewrite !elem_of_cons. tauto.
Qed.

Example getUrgencyLevel_example :
  getUrgencyLevel [Samples.dermatology; Samples.retired; Samples.cardiology] "Chest pain" = ["medium"]
  ∧ getUrgencyLevel [Samples.cardiology] "chest pain then collapse" = ["urgent"]
  ∧ getUrgencyLevel [Samples.cardiology] "cough" = [].
Proof. vm_compute. split_and!; reflexivity. Qed.


End UrgencyProps.

(** ** Appointments *)
Section AppointmentProps.
Import Appointment.

Lemma checkConflict_true (m : gmap ObjectId t) d date st et ex :
  checkConflict m d date st et ex = true ↔
  ∃ j b, m !! j = Some b ∧ conflicts_with d date st et ex b = true.
Proof.
  unfold checkConflict. rewrite bool_decide_eq_true. split.
  - intros H.
    destruct (map_size_ne_0_lookup_1
                (filter (λ kv, conflicts_with d date st et ex kv.2 = true) m))
      as (j & b & Hb); [lia|].
    apply map_lookup_filter_Some in Hb as [Hb Hc]. eauto.
  - intros (j & b & Hb & Hc).
    assert (Hne : size (filter (λ kv : ObjectId * t,
                     conflicts_with d date st et ex kv.2 = true) m) ≠ 0%nat).
    { apply (map_size_ne_0_lookup_2 _ j). exists b.
      apply map_lookup_filter_Some. auto. }
    lia.
Qed.

Lemma checkConflict_false (m : gmap ObjectId t) d date st et ex :
  checkConflict m d date st et ex = false ↔
  ∀ j b, m !! j = Some b → conflicts_with d date st et ex b = false.
Proof.
  split.
  - intros H j b Hb. destruct (conflicts_with d date st et ex b) eqn:E; [|done].
    assert (checkConflict m d date st et ex = true) by (apply checkConflict_true; eauto).
    congruence.
  - intros H. destruct (checkConflict m d date st et ex) eqn:E; [|done].
    apply checkConflict_true in E as (j & b & Hb & Hc). rewrite (H j b Hb) in Hc. done.
Qed.

(** What the query of [checkConflict] selects, spelled out. *)
Lemma conflicts_with_true d date st et x (b : t) :
  conflicts_with d date st et (Some x) b = true ↔
  doctor b = d ∧ appointmentDate b = date ∧ booked b = true
  ∧ Js.str_lt (startTime (timeSlot b)) et = true
  ∧ Js.str_lt st (endTime (timeSlot b)) = true
  ∧ _id b ≠ x.
Proof.
  unfold conflicts_with, booked.
  rewrite !andb_true_iff, negb_true_iff, String.eqb_eq, Z.eqb_eq, String.eqb_neq.
  tauto.
Qed.

Lemma save_keyed now (m m' : gmap ObjectId t) isNew a :
  keyed m → save now m isNew a = inr m' → keyed m'.
Proof.
  unfold save. intros Hk Hs.
  destruct (negb (schema_valid a)); [done|].
  destruct (pre_save now m isNew a); [done|].
  assert (m' = <[_id a := a]> m) as ->.
  { destruct (m !! _id a), isNew; congruence. }
  intros i b [[<- <-]|[_ Hb]]%lookup_insert_Some; [done|]. by apply Hk.
Qed.

Lemma save_rejected_unchanged now (m : gmap ObjectId t) isNew a e :
  save now m isNew a = inl e → after_save now m isNew a = m.
Proof. unfold after_save. by intros ->. Qed.

Lemma save_inr now (m m' : gmap ObjectId t) isNew a :
  save now m isNew a = inr m' ↔
  schema_valid a = true ∧ pre_save now m isNew a = None
  ∧ (if isNew then m !! _id a = None else is_Some (m !! _id a))
  ∧ m' = <[_id a := a]> m.
Proof.
  unfold save. destruct (schema_valid a); simpl; [|naive_solver].
  destruct (pre_save now m isNew a); [naive_solver|].
  destruct (m !! _id a) eqn:E, isNew; split; try naive_solver.
Qed.

Lemma pre_save_None now (m : gmap ObjectId t) isNew a :
  pre_save now m isNew a = None ↔
  (hook_applies m isNew a = true →
     now ≤ appointmentDate a
     ∧ checkConflict m (doctor a) (appointmentDate a) (startTime (timeSlot a))
         (endTime (timeSlot a)) (Some (_id a)) = false).
Proof.
  unfold pre_save. destruct (hook_applies m isNew a); [|naive_solver].
  destruct (Z.ltb_spec (appointmentDate a) now).
  - split; [done|]. intros H'. destruct (H' eq_refl). lia.
  - destruct (checkConflict _ _ _ _ _ _); naive_solver.
Qed.

Lemma overlap_sym (a b : t) : overlap a b = overlap b a.
Proof. unfold overlap. apply andb_comm. Qed.

Lemma hook_skipped (m : gmap ObjectId t) isNew a old :
  hook_applies m isNew a = false → m !! _id a = Some old →
  appointmentDate old = appointmentDate a
  ∧ startTime (timeSlot old) = startTime (timeSlot a)
  ∧ endTime (timeSlot old) = endTime (timeSlot a).
Proof.
  unfold hook_applies. intros H Ho. rewrite Ho in H.
  apply orb_false_iff in H as [_ H]. apply orb_false_iff in H as [Hd Hs].
  unfold isModified_date in Hd. unfold isModified_timeSlot in Hs.
  apply negb_false_iff in Hd, Hs. apply Z.eqb_eq in Hd.
  apply andb_true_iff in Hs as [H1 H2]. apply String.eqb_eq in H1, H2. auto.
Qed.

(** The saved appointment does not overlap a booked one of the same doctor
    and date that is stored under another key. *)
Lemma saved_clear_of_others now (m : gmap ObjectId t) isNew a j b :
  keyed m → no_double_booking m →
  pre_save now m isNew a = None →
  (hook_applies m isNew a = true
   ∨ ∃ old, m !! _id a = Some old ∧ doctor old = doctor a
            ∧ (booked a = true → booked old = true)) →
  m !! j = Some b → j ≠ _id a →
  doctor a = doctor b → appointmentDate a = appointmentDate b →
  booked a = true → booked b = true →
  overlap a b = false.
Proof.
  intros Hk Hinv Hpre Hcase Hb Hj Hdoc Hdate Hba Hbb.
  destruct (hook_applies m isNew a) eqn:Hh.
  - destruct (proj1 (pre_save_None _ _ _ _) Hpre Hh) as [_ Hc].
    pose proof (proj1 (checkConflict_false _ _ _ _ _ _) Hc j b Hb) as Hcw.
    destruct (overlap a b) eqn:Ho; [|done].
    unfold overlap in Ho. apply andb_true_iff in Ho as [H1 H2].
    assert (conflicts_with (doctor a) (appointmentDate a) (startTime (timeSlot a))
              (endTime (timeSlot a)) (Some (_id a)) b = true); [|congruence].
    apply conflicts_with_true. split_and!; auto.
    rewrite (Hk j b Hb). done.
  - destruct Hcase as [?|(old & Ho & Hd & Hact)]; [done|].
    destruct (hook_skipped m isNew a old Hh Ho) as (Hdt & Hst & Het).
    assert (Hov : overlap old b = false).
    { apply (Hinv (_id a) j); auto; congruence. }
    unfold overlap in *. by rewrite <- Hst, <- Het.
Qed.

(** An accepted save that the hook checked, or that left the doctor as it
    was and booked nothing that was not booked, keeps the invariant. *)
Lemma save_keeps_no_double_booking now (m m' : gmap ObjectId t) isNew a :
  keyed m → no_double_booking m → save now m isNew a = inr m' →
  (hook_applies m isNew a = true
   ∨ ∃ old, m !! _id a = Some old ∧ doctor old = doctor a
            ∧ (booked a = true → booked old = true)) →
  no_double_booking m'.
Proof.
  intros Hk Hinv Hs Hcase.
  apply save_inr in Hs as (_ & Hpre & _ & ->).
  intros i j x y Hx Hy Hij Hdoc Hdate Hbx Hby.
  apply lookup_insert_Some in Hx as [[<- <-]|[Hi Hx]];
    apply lookup_insert_Some in Hy as [[<- <-]|[Hj Hy]].
  - done.
  - eapply saved_clear_of_others; eauto.
  - rewrite overlap_sym. eapply saved_clear_of_others; eauto.
  - eapply Hinv; eauto.
Qed.

Lemma keyed_empty : keyed ∅.
Proof. intros i a H. by rewrite lookup_empty in H. Qed.

Lemma no_double_booking_empty : no_double_booking ∅.
Proof. intros i j a b H. by rewrite lookup_empty in H. Qed.

Lemma store1_keyed : keyed Samples.store1.
Proof. by apply (save_keyed 0 ∅ _ true Samples.apptA keyed_empty). Qed.

Lemma store2_keyed : keyed Samples.store2.
Proof. by apply (save_keyed 0 Samples.store1 _ false Samples.apptA_cancelled store1_keyed). Qed.

Lemma store3_keyed : keyed Samples.store3.
Proof. by apply (save_keyed 0 Samples.store2 _ true Samples.apptB store2_keyed). Qed.

Lemma store3_no_double_booking : no_double_booking Samples.store3.
Proof.
  apply (save_keeps_no_double_booking 0 Samples.store2 _ true Samples.apptB store2_keyed);
    [|reflexivity|by left].
  apply (save_keeps_no_double_booking 0 Samples.store1 _ false Samples.apptA_cancelled store1_keyed);
    [|reflexivity|].
  - apply (save_keeps_no_double_booking 0 ∅ _ true Samples.apptA keyed_empty);
      [apply no_double_booking_empty|reflexivity|by left].
  - right. exists Samples.apptA. split_and!; [reflexivity|reflexivity|].
    intros H. vm_compute in H. discriminate.
Qed.

(** C4, as the code has it.  On a collection keyed by [_id], a save that
    the hook checks (a new document, or one whose date or time slot
    changed) is rejected and leaves the collection as it was when the date
    is before the current time or when another stored appointment of the
    same doctor at the same date, with a booked status, overlaps the slot
    in string order.  An accepted save keeps the booked appointments of a
    doctor at one date free of overlaps provided the hook checked it, or it
    left the doctor unchanged and did not turn an unbooked status into a
    booked one. *)
Theorem save_checks_slot (now : Z) (m : gmap ObjectId t) (isNew : bool) (a : t) :
  keyed m →
  (hook_applies m isNew a = true →
   (appointmentDate a < now
    ∨ ∃ j b, m !! j = Some b ∧ j ≠ _id a ∧ doctor b = doctor a
             ∧ appointmentDate b = appointmentDate a
             ∧ status b ∈ booked_status
             ∧ Js.str_lt (startTime (timeSlot b)) (endTime (timeSlot a)) = true
             ∧ Js.str_lt (startTime (timeSlot a)) (endTime (timeSlot b)) = true) →
   (∃ e, save now m isNew a = inl e) ∧ after_save now m isNew a = m)
  ∧ (∀ m', no_double_booking m → save now m isNew a = inr m' →
       (hook_applies m isNew a = true
        ∨ ∃ old, m !! _id a = Some old ∧ doctor old = doctor a
                 ∧ (booked a = true → booked old = true)) →
       no_double_booking m').
Proof.
  intros Hk. split.
  - intros Hh Hbad.
    assert (Hrej : ∃ e, save now m isNew a = inl e).
    { destruct (save now m isNew a) as [e|m'] eqn:Hs; [eauto|]. exfalso.
      apply save_inr in Hs as (_ & Hpre & _ & _).
      destruct (proj1 (pre_save_None _ _ _ _) Hpre Hh) as [Hnow Hc].
      destruct Hbad as [Hpast|(j & b & Hb & Hj & Hd & Hdt & Hst & H1 & H2)]; [lia|].
      pose proof (proj1 (checkConflict_false _ _ _ _ _ _) Hc j b Hb) as Hcw.
      assert (conflicts_with (doctor a) (appointmentDate a) (startTime (timeSlot a))
                (endTime (timeSlot a)) (Some (_id a)) b = true); [|congruence].
      apply conflicts_with_true. split_and!; auto.
      - unfold booked, in_enum. by apply bool_decide_eq_true.
      - by rewrite (Hk j b Hb). }
    split; [done|]. destruct Hrej as [e He]. by eapply save_rejected_unchanged.
  - intros m' Hinv Hs Hcase. by eapply save_keeps_no_double_booking.
Qed.

(** The collection [store1] holds A, booked; saving B for the same doctor,
    date and slot is refused, and saving it on the empty collection keeps
    the invariant. *)
Lemma save_checks_slot_witness :
  ((∃ e, save 0 Samples.store1 true Samples.apptB = inl e)
   ∧ after_save 0 Samples.store1 true Samples.apptB = Samples.store1)
  ∧ no_double_booking (<[_id Samples.apptB := Samples.apptB]> ∅).
Proof.
  split.
  - apply (proj1 (save_checks_slot 0 Samples.store1 true Samples.apptB store1_keyed)).
    + reflexivity.
    + right. exists "a", Samples.apptA.
      split_and!; try reflexivity; try done.
      apply elem_of_cons. by left.
  - apply (proj2 (save_checks_slot 0 ∅ true Samples.apptB keyed_empty)).
    + apply no_double_booking_empty.
    + reflexivity.
    + by left.
Defined.

(** C4, as stated, fails: every save below is accepted, the collection
    before the last one has no double booking, and after it A and B are
    both scheduled with the same doctor, date and slot.  The last save
    changes only the status, so the hook checks nothing. *)
Lemma double_booking_by_status_save :
  save 0 ∅ true Samples.apptA = inr Samples.store1
  ∧ save 0 Samples.store1 false Samples.apptA_cancelled = inr Samples.store2
  ∧ save 0 Samples.store2 true Samples.apptB = inr Samples.store3
  ∧ save 0 Samples.store3 false Samples.apptA = inr Samples.store4
  ∧ hook_applies Samples.store3 false Samples.apptA = false
  ∧ no_double_booking Samples.store3
  ∧ ¬ no_double_booking Samples.store4.
Proof.
  split_and!; try reflexivity.
  - apply store3_no_double_booking.
  - intros H.
    specialize (H "a" "b" Samples.apptA Samples.apptB).
    assert (overlap Samples.apptA Samples.apptB = false) as Ho.
    { apply H; try reflexivity. done. }
    vm_compute in Ho. discriminate.
Qed.

(** C3, as stated, fails: both documents satisfy every field constraint
    and carry an [_id] not yet in the collection, and the save is refused,
    once for the date and once for the slot. *)
Lemma valid_fields_yet_rejected :
  schema_valid Samples.apptA = true
  ∧ (∅ : gmap ObjectId t) !! _id Samples.apptA = None
  ∧ save 200000000 ∅ true Samples.apptA = inl PastAppointment
  ∧ schema_valid Samples.apptB = true
  ∧ Samples.store1 !! _id Samples.apptB = None
  ∧ save 0 Samples.store1 true Samples.apptB = inl SlotBooked.
Proof. split_and!; reflexivity. Qed.

Lemma conversation_save_inr (coll coll' : list Conversation.t) isNew c :
  Conversation.save coll isNew c = inr coll' ↔
  Conversation.schema_valid c = true
  ∧ existsb (Conversation.has_id (Conversation.conversationId c)) coll = negb isNew
  ∧ coll' = if isNew then (coll ++ [c])%list else Conversation.replace c coll.
Proof.
  unfold Conversation.save.
  destruct (Conversation.schema_valid c); simpl; [|naive_solver].
  destruct isNew, (existsb _ coll); simpl; naive_solver.
Qed.

Lemma crud_clashes_false {D} (unique : list (D → string)) (m : gmap ObjectId D)
    (id : ObjectId) (d : D) :
  Crud.clashes unique m id d = false ↔
  ∀ j v, m !! j = Some v → j ≠ id → Forall (λ path, path v ≠ path d) unique.
Proof.
  unfold Crud.clashes. rewrite <- not_true_iff_false, existsb_exists. split.
  - intros H j v Hj Hne. apply Forall_forall. intros path Hp Heq.
    apply H. exists (j, v). split.
    + apply list_elem_of_In, elem_of_map_to_list. exact Hj.
    + simpl. apply andb_true_iff. split.
      * apply negb_true_iff, String.eqb_neq. exact Hne.
      * apply existsb_exists. exists path. split; [by apply list_elem_of_In|].
        by apply String.eqb_eq.
  - intros H ([j v] & Hin & Hc). simpl in Hc.
    apply list_elem_of_In, elem_of_map_to_list in Hin.
    apply andb_true_iff in Hc as [Hne Hex].
    apply negb_true_iff, String.eqb_neq in Hne.
    apply existsb_exists in Hex as (path & Hp & Heq).
    apply String.eqb_eq in Heq.
    pose proof (H j v Hin Hne) as HF. rewrite Forall_forall in HF.
    apply (HF path); [by apply list_elem_of_In|done].
Qed.

Lemma crud_save_accepted {D} (validators : D → bool) (unique : list (D → string))
    (m : gmap ObjectId D) (isNew : bool) (id : ObjectId) (d : D) :
  (∃ m', Crud.save validators unique m isNew id d = inr m') ↔
  validators d = true
  ∧ (if isNew then m !! id = None else is_Some (m !! id))
  ∧ ∀ j v, m !! j = Some v → j ≠ id → Forall (λ path, path v ≠ path d) unique.
Proof.
  rewrite <- crud_clashes_false. unfold Crud.save.
  destruct (validators d); simpl; [|split; [by intros [? ?]|by intros [? _]]].
  destruct (m !! id) as [old|] eqn:E, isNew; simpl.
  - split; [by intros [? ?]|by intros (_ & ? & _)].
  - destruct (Crud.clashes unique m id d).
    + split; [by intros [? ?]|by intros (_ & _ & ?)].
    + split; [by eauto|by eauto].
  - destruct (Crud.clashes unique m id d).
    + split; [by intros [? ?]|by intros (_ & _ & ?)].
    + split; [by eauto|by eauto].
  - split; [by intros [? ?]|]. intros (_ & [? ?] & _). done.
Qed.

(** C3, as the code has it.  A User, a Doctor, a Specialization and a
    Conversation are saved exactly when the per-field constraints of the
    schema hold, the [_id] is new for an insert and present for an update,
    and no other stored document holds the value at a unique path: [email]
    or [phone] of a User, [name] of a Specialization, [conversationId] of
    a Conversation (which stands for its [_id]); a Doctor has no unique
    path.  An Appointment is saved exactly when its fields satisfy the
    schema constraints, its [_id] is new for an insert and present for an
    update, and in addition, for a new document or one whose date or time
    slot changed, the date is not before the current time and no other
    stored document matches the conflict query. *)
Theorem save_accepted_iff (now : Z) (m : gmap ObjectId t) (isNew : bool) (a : t)
    (coll : list Conversation.t) (cNew : bool) (c : Conversation.t) :
  ((∃ coll', Conversation.save coll cNew c = inr coll') ↔
     Conversation.schema_valid c = true
     ∧ existsb (Conversation.has_id (Conversation.conversationId c)) coll = negb cNew)
  ∧ ((∃ m', save now m isNew a = inr m') ↔
     schema_valid a = true
     ∧ (if isNew then m !! _id a = None else is_Some (m !! _id a))
     ∧ (hook_applies m isNew a = true →
          now ≤ appointmentDate a
          ∧ ∀ j b, m !! j = Some b →
              conflicts_with (doctor a) (appointmentDate a) (startTime (timeSlot a))
                (endTime (timeSlot a)) (Some (_id a)) b = false))
  ∧ (∀ (valid : User.t → bool) (users : gmap ObjectId User.t) (uNew : bool)
       (u : User.t),
       (∃ users', Crud.save_user valid users uNew (User._id u) u = inr users') ↔
       valid u = true
       ∧ (if uNew then users !! User._id u = None else is_Some (users !! User._id u))
       ∧ ∀ j v, users !! j = Some v → j ≠ User._id u →
           User.email v ≠ User.email u ∧ User.phone v ≠ User.phone u)
  ∧ (∀ (valid : Doctor.t → bool) (doctors : gmap ObjectId Doctor.t) (dNew : bool)
       (d : Doctor.t),
       (∃ doctors', Crud.save_doctor valid doctors dNew (Doctor._id d) d = inr doctors') ↔
       valid d = true
       ∧ (if dNew then doctors !! Doctor._id d = None
          else is_Some (doctors !! Doctor._id d)))
  ∧ (∀ (num : Type) (valid : Specialization.t num → bool)
       (specs : gmap ObjectId (Specialization.t num)) (sNew : bool) (id : ObjectId)
       (sp : Specialization.t num),
       (∃ specs', Crud.save_specialization valid specs sNew id sp = inr specs') ↔
       valid sp = true
       ∧ (if sNew then specs !! id = None else is_Some (specs !! id))
       ∧ ∀ j v, specs !! j = Some v → j ≠ id →
           Specialization.name v ≠ Specialization.name sp).
Proof.
  split_and!.
  - split.
    + intros [coll' H]. apply conversation_save_inr in H. tauto.
    + intros [H1 H2]. eexists. apply conversation_save_inr. eauto.
  - split.
    + intros [m' H]. apply save_inr in H as (Hv & Hpre & Hid & _).
      split_and!; auto. intros Hh.
      destruct (proj1 (pre_save_None _ _ _ _) Hpre Hh) as [Hnow Hc].
      split; [done|]. by apply checkConflict_false.
    + intros (Hv & Hid & Hh). eexists. apply save_inr. split_and!; eauto.
      apply pre_save_None. intros Hhook. destruct (Hh Hhook) as [Hnow Hc].
      split; [done|]. by apply checkConflict_false.
  - intros valid users uNew u. unfold Crud.save_user.
    etrans; [apply crud_save_accepted|]. do 2 apply and_iff_compat_l.
    split; intros H j v Hj Hne; specialize (H j v Hj Hne).
    + inversion H as [|? ? H1 H2]; subst. inversion H2; subst. auto.
    + destruct H. repeat constructor; auto.
  - intros valid doctors dNew d. unfold Crud.save_doctor.
    etrans; [apply crud_save_accepted|]. split.
    + intros (? & ? & _). auto.
    + intros (? & ?). split_and!; auto.
  - intros num valid specs sNew id sp. unfold Crud.save_specialization.
    etrans; [apply crud_save_accepted|]. do 2 apply and_iff_compat_l.
    split; intros H j v Hj Hne; specialize (H j v Hj Hne).
    + inversion H; subst. auto.
    + repeat constructor; auto.
Qed.

(** A user with the email of a stored one is refused by the index under
    a new [_id] and stored under its own; a doctor equal to a stored one
    is stored beside it. *)
Example plain_saves :
  let dr := DoctorSamples.doctor "d1" "Dr. Iyer" "Cardiology" (4 # 1) true in
  Crud.save_user (λ _, true) Samples.users1 true "u2" Samples.user1
    = inl Crud.DuplicateKey
  ∧ match Crud.save_user (λ _, true) Samples.users1 false "u1" Samples.user1 with
    | inr users' => users' !! "u1" = Some Samples.user1
    | inl _ => False
    end
  ∧ match Crud.save_doctor (λ _, true) {[ "d1" := dr ]} true "d9" dr with
    | inr doctors' => doctors' !! "d1" = Some dr ∧ doctors' !! "d9" = Some dr
    | inl _ => False
    end.
Proof. vm_compute. split_and!; reflexivity. Qed.

End AppointmentProps.

(** ** Conversations *)
Section ConversationProps.
Import Conversation Chat.

Lemma schema_valid_status (c : t) : schema_valid c = true → status_ok c.
Proof.
  unfold schema_valid. rewrite !andb_true_iff. intros ((((_ & H) & _) & _) & _).
  unfold in_enum in H. by apply bool_decide_eq_true in H.
Qed.

Lemma replace_Forall (P : t → Prop) (c : t) (coll : list t) :
  P c → Forall P coll → Forall P (replace c coll).
Proof.
  intros Hc. induction 1 as [|d coll Hd Hcoll IH]; simpl; [constructor|].
  destruct (has_id (conversationId c) d); constructor; auto.
Qed.

Lemma save_status_ok (coll coll' : list t) isNew c :
  Forall status_ok coll → save coll isNew c = inr coll' → Forall status_ok coll'.
Proof.
  intros Hcoll Hs. apply conversation_save_inr in Hs as (Hv & _ & ->).
  apply schema_valid_status in Hv. destruct isNew.
  - apply Forall_app. split; [done|]. by constructor.
  - by apply replace_Forall.
Qed.

Lemma save_loaded_inr (castError : bool) (coll coll' : list t) (c : t) :
  save_loaded castError coll c = inr coll' ↔
  castError = false ∧ save coll false c = inr coll'.
Proof. unfold save_loaded. destruct castError; naive_solver. Qed.

Lemma on_error_status_ok env castError coll c msg :
  Forall status_ok coll → Forall status_ok (on_error env castError coll c msg).2.
Proof.
  intros H. unfold on_error.
  destruct (save_loaded castError coll _) as [e|coll'] eqn:Hs; simpl; [done|].
  apply save_loaded_inr in Hs as [_ Hs]. by eapply save_status_ok.
Qed.

Lemma process_reply_status_ok env appts coll c r :
  Forall status_ok coll → Forall status_ok (process_reply env appts coll c r).2.
Proof.
  intros H. unfold process_reply.
  destruct (save_loaded _ coll _) as [e|coll'] eqn:Hs.
  - by apply on_error_status_ok.
  - apply save_loaded_inr in Hs as [_ Hs].
    assert (Forall status_ok coll') by (by eapply save_status_ok).
    destruct (_ && _); [|done].
    destruct (_ ≫= _); [done|]. by apply on_error_status_ok.
Qed.

Lemma cancelled_ok : "cancelled" ∈ status_enum.
Proof.
  unfold status_enum. do 9 (apply elem_of_cons; right). apply elem_of_cons. by left.
Qed.

Lemma deactivate_open_status_ok userId coll :
  Forall status_ok coll → Forall status_ok (deactivate_open userId coll).
Proof.
  intros H. unfold deactivate_open. apply Forall_fmap.
  eapply Forall_impl; [exact H|]. intros c Hc. simpl.
  destruct (_ && _); [apply cancelled_ok|done].
Qed.

Lemma cleanupExpired_status_ok now coll :
  Forall status_ok coll → Forall status_ok (cleanupExpired now coll).
Proof.
  intros H. unfold cleanupExpired. apply Forall_fmap.
  eapply Forall_impl; [exact H|]. intros c Hc. simpl.
  destruct (_ && _); [apply cancelled_ok|done].
Qed.

Lemma chatWithAgent_status_ok env appts coll userId message cid f :
  Forall status_ok coll →
  Forall status_ok (chatWithAgent env appts coll userId message cid f).2.
Proof.
  intros H. unfold chatWithAgent.
  destruct (_ || _); [done|].
  assert (Hnew : Forall status_ok
            (match save coll true (create (now env) userId (uuid env) "started" "initial_greeting") with
             | inr coll1 =>
                 process_reply env appts coll1
                   (addMessage (now env) (rnd1 env)
                      (create (now env) userId (uuid env) "started" "initial_greeting")
                      "user" (Js.trim (default "" message)) "text" no_metadata)
                   (callAIAgentService f)
             | inl _ => (Throw "save failed", coll)
             end).2).
  { destruct (save coll true _) as [e|coll1] eqn:Hs; [done|].
    apply process_reply_status_ok. by eapply save_status_ok. }
  destruct (if Js.truthy cid then cid else None) as [cid'|]; [|exact Hnew].
  destruct (findOne _ coll) as [c|]; [|done].
  destruct (isExpired (now env) c).
  - destruct (save coll false _) as [e|coll'] eqn:Hs; [done|].
    exact (save_status_ok _ _ _ _ H Hs).
  - by apply process_reply_status_ok.
Qed.

Lemma startNewConversation_status_ok env coll userId :
  Forall status_ok coll →
  Forall status_ok (startNewConversation env coll userId).2.
Proof.
  intros H. unfold startNewConversation.
  pose proof (deactivate_open_status_ok userId coll H) as H0.
  destruct (save (deactivate_open userId coll) true _) as [e|coll1] eqn:Hs1; [done|].
  assert (H1 : Forall status_ok coll1) by exact (save_status_ok _ _ _ _ H0 Hs1).
  destruct (save coll1 false _) as [e|coll2] eqn:Hs2; [done|].
  exact (save_status_ok _ _ _ _ H1 Hs2).
Qed.

Lemma endConversation_status_ok env coll userId cid :
  Forall status_ok coll →
  Forall status_ok (endConversation env coll userId cid).2.
Proof.
  intros H. unfold endConversation.
  destruct (findOne _ coll) as [c|]; [|done].
  destruct (save coll false _) as [e|coll'] eqn:Hs; [done|].
  exact (save_status_ok _ _ _ _ H Hs).
Qed.

Lemma replace_elem_of (c : t) (coll : list t) :
  existsb (has_id (conversationId c)) coll = true → c ∈ replace c coll.
Proof.
  induction coll as [|d coll IH]; simpl; [done|].
  destruct (has_id (conversationId c) d); simpl.
  - intros _. apply elem_of_cons. by left.
  - intros H. apply elem_of_cons. right. by apply IH.
Qed.

(** C2, as the code has it.  Every operation on the collection keeps the
    status of every stored conversation within the schema's enumeration.
    No operation compares the new status with the old one: [updateStatus]
    stores the status it is given, [complete] stores 'completed', and
    [endConversation] stores 'cancelled', whatever the status was. *)
Theorem status_enum_invariant (coll : list t) :
  Forall status_ok coll →
  (∀ env appts userId message cid f,
     Forall status_ok (chatWithAgent env appts coll userId message cid f).2)
  ∧ (∀ env userId, Forall status_ok (startNewConversation env coll userId).2)
  ∧ (∀ env userId cid, Forall status_ok (endConversation env coll userId cid).2)
  ∧ (∀ now, Forall status_ok (cleanupExpired now coll))
  ∧ (∀ isNew c coll', save coll isNew c = inr coll' → Forall status_ok coll')
  ∧ (∀ now c st step, status (updateStatus now c st step) = st)
  ∧ (∀ now c ap, status (complete now c ap) = "completed")
  ∧ (∀ env userId cid code d coll',
       endConversation env coll userId cid = (Respond code d, coll') →
       d_status d = "cancelled"
       ∧ ∃ c, c ∈ coll' ∧ conversationId c = cid ∧ status c = "cancelled").
Proof.
  intros H. split_and!.
  - intros. by apply chatWithAgent_status_ok.
  - intros. by apply startNewConversation_status_ok.
  - intros. by apply endConversation_status_ok.
  - intros. by apply cleanupExpired_status_ok.
  - intros isNew c coll' Hs. exact (save_status_ok _ _ _ _ H Hs).
  - intros now c st [step|]; unfold updateStatus; [|done].
    by destruct (Js.truthy (Some step)).
  - intros now c ap. unfold complete. by destruct (Js.truthy ap).
  - intros env userId cid code d coll'. unfold endConversation.
    destruct (findOne _ coll) as [c|] eqn:Hf; [|done].
    destruct (save coll false _) as [e|coll''] eqn:Hs; [done|].
    intros [= <- <- <-]. split; [done|].
    apply conversation_save_inr in Hs as (_ & Hex & ->). simpl in Hex.
    eexists. split; [by apply replace_elem_of|]. split; [|done].
    unfold findOne in Hf. apply find_some in Hf as [_ Hf].
    apply andb_true_iff in Hf as [Hf _]. apply andb_true_iff in Hf as [Hf _].
    unfold has_id in Hf. apply String.eqb_eq in Hf. done.
Qed.

Lemma status_enum_invariant_witness :
  Forall status_ok
    (chatWithAgent Samples.env1 ∅ [Samples.conv_slot] "u1" (Some "hello") (Some "c1")
       (FetchResponse 200 (Some Samples.reply_restart))).2.
Proof.
  apply (status_enum_invariant [Samples.conv_slot]).
  constructor; [|constructor].
  unfold status_ok, status_enum. simpl.
  do 6 (apply elem_of_cons; right). apply elem_of_cons. by left.
Defined.

(** C2, as stated, fails.  A conversation at 'selecting_slot' is sent back
    to 'started' by the status the agent's reply names, and a conversation
    at 'started' is moved by [endConversation] to 'cancelled', which is not
    on the linear order; both requests are answered with 200. *)
Lemma status_moves_backward :
  let r := chatWithAgent Samples.env1 ∅ [Samples.conv_slot] "u1" (Some "hello") (Some "c1")
             (FetchResponse 200 (Some Samples.reply_restart)) in
  let e := endConversation Samples.env1 [Samples.conv_started] "u1" "c1" in
  status_of r.1 = Some 200
  ∧ status <$> r.2 = ["started"]
  ∧ StatusOrder.forward "selecting_slot" "started" = false
  ∧ status_of e.1 = Some 200
  ∧ status <$> e.2 = ["cancelled"]
  ∧ StatusOrder.forward "started" "cancelled" = false.
Proof. vm_compute. split_and!; reflexivity. Qed.


Lemma messageId_nonempty (now : Z) (rnd : string) :
  String.eqb (String.append (pretty now) (String.append "_" rnd)) "" = false.
Proof. by destruct (pretty now). Qed.

Lemma create_valid now userId cid :
  cid ≠ "" → schema_valid (create now userId cid "started" "initial_greeting") = true.
Proof.
  intros H. unfold schema_valid. simpl.
  apply String.eqb_neq in H. by rewrite H.
Qed.

Lemma deactivate_open_has_id userId cid coll :
  existsb (has_id cid) (deactivate_open userId coll) = existsb (has_id cid) coll.
Proof.
  unfold deactivate_open. induction coll as [|d coll IH]; simpl; [done|].
  rewrite <- IH. f_equal. by destruct (_ && _).
Qed.

(** After the [updateMany], no conversation of the user is both active
    and of an open status. *)
Lemma deactivate_open_none_left userId coll :
  filter (λ x, user x = userId ∧ isActive x = true ∧ open_status x = true)
         (deactivate_open userId coll) = [].
Proof.
  unfold deactivate_open. induction coll as [|d coll IH]; [done|].
  rewrite fmap_cons, filter_cons, IH.
  destruct (decide _) as [(Hu & Ha & Ho)|]; [|done]. exfalso.
  destruct (String.eqb (user d) userId && isActive d && open_status d) eqn:E.
  - simpl in Ha. done.
  - simpl in *. subst. rewrite String.eqb_refl, Ha, Ho in E. done.
Qed.

Lemma replace_app_fresh (c c' : t) (coll : list t) :
  existsb (has_id (conversationId c')) coll = false →
  has_id (conversationId c') c = true →
  replace c' (coll ++ [c]) = (coll ++ [c'])%list.
Proof.
  intros Hf Hc. induction coll as [|d coll IH]; simpl.
  - by rewrite Hc.
  - simpl in Hf. apply orb_false_iff in Hf as [Hd Hf]. rewrite Hd. f_equal. by apply IH.
Qed.

(** C10. With a fresh, non-empty uuid [startNewConversation] answers 201;
    and whenever it answers, the user's conversations that are active and
    of a status other than 'completed' and 'cancelled' are exactly one, the
    new conversation, at status 'started' and step 'initial_greeting'. *)
Theorem startNewConversation_one_open (env : Env) (coll : list t) (userId : ObjectId) :
  (uuid env ≠ "" → existsb (has_id (uuid env)) coll = false →
     ∃ d coll', startNewConversation env coll userId = (Respond 201 d, coll'))
  ∧ (∀ code d coll',
       startNewConversation env coll userId = (Respond code d, coll') →
       code = 201
       ∧ ∃ c, filter (λ x, user x = userId ∧ isActive x = true ∧ open_status x = true) coll'
              = [c]
              ∧ conversationId c = uuid env
              ∧ status c = "started" ∧ currentStep c = "initial_greeting"
              ∧ d_conversationId d = uuid env
              ∧ d_status d = "started" ∧ d_currentStep d = "initial_greeting").
Proof.
  set (c0 := create (now env) userId (uuid env) "started" "initial_greeting").
  set (c1 := addMessage (now env) (rnd1 env) c0 "agent" greeting "text"
               {| agentType := Some "symptom_analyzer"; confidence := Some 1%Q;
                  suggestions := [] |}).
  assert (Hc1 : uuid env ≠ "" → schema_valid c1 = true).
  { intros H. unfold schema_valid. simpl. apply String.eqb_neq in H. rewrite H. simpl.
    unfold message_valid. simpl. by rewrite messageId_nonempty. }
  split.
  - intros Hne Hfresh. unfold startNewConversation. fold c0. fold c1.
    assert (Hs1 : save (deactivate_open userId coll) true c0
                  = inr (deactivate_open userId coll ++ [c0])%list).
    { apply conversation_save_inr. split_and!; [by apply create_valid| |done].
      rewrite deactivate_open_has_id. done. }
    rewrite Hs1.
    assert (Hs2 : ∃ coll2, save (deactivate_open userId coll ++ [c0])%list false c1 = inr coll2).
    { eexists. apply conversation_save_inr. split_and!; [by apply Hc1| |done].
      simpl. rewrite existsb_app. simpl. unfold has_id at 2. simpl.
      rewrite String.eqb_refl. by rewrite orb_true_r. }
    destruct Hs2 as [coll2 Hs2]. rewrite Hs2. eauto.
  - intros code d coll'. unfold startNewConversation. fold c0. fold c1.
    destruct (save (deactivate_open userId coll) true c0) as [e|coll1] eqn:Hs1; [done|].
    destruct (save coll1 false c1) as [e|coll2] eqn:Hs2; [done|].
    intros [= <- <- <-]. split; [done|].
    apply conversation_save_inr in Hs1 as (_ & Hfresh & ->).
    apply conversation_save_inr in Hs2 as (_ & _ & ->).
    simpl in Hfresh.
    exists c1. split_and!; try done.
    rewrite (replace_app_fresh c0 c1); [| done | apply String.eqb_refl].
    rewrite filter_app, deactivate_open_none_left. simpl.
    rewrite filter_cons. destruct (decide _) as [|Hn]; [done|].
    exfalso. apply Hn. done.
Qed.


Lemma trim_right_idem (s : string) : Js.trim_right (Js.trim_right s) = Js.trim_right s.
Proof.
  induction s as [|c s IH]; simpl; [done|].
  destruct (Js.trim_right s) as [|d t] eqn:E.
  - destruct (Js.is_space c) eqn:Ec; simpl; [done|]. by rewrite Ec.
  - simpl in *. by rewrite IH.
Qed.

Lemma trim_left_idem (s : string) : Js.trim_left (Js.trim_left s) = Js.trim_left s.
Proof.
  induction s as [|c s IH]; simpl; [done|].
  destruct (Js.is_space c) eqn:Ec; [done|]. simpl. by rewrite Ec.
Qed.

Lemma trim_right_left (s : string) :
  Js.trim_right s = s → Js.trim_right (Js.trim_left s) = Js.trim_left s.
Proof.
  induction s as [|c s IH]; simpl; [done|].
  destruct (Js.is_space c) eqn:Ec.
  - destruct (Js.trim_right s) as [|d t] eqn:E; [done|].
    intros [= H]. apply IH. congruence.
  - intros H. simpl. rewrite Ec. exact H.
Qed.

Lemma trim_idem (s : string) : Js.trim (Js.trim s) = Js.trim s.
Proof.
  unfold Js.trim.
  rewrite (trim_right_left (Js.trim_right s)) by apply trim_right_idem.
  apply trim_left_idem.
Qed.

Lemma schema_valid_iff (c : t) :
  schema_valid c = true ↔
  String.eqb (conversationId c) "" = false
  ∧ in_enum status_enum (status c) = true
  ∧ in_enum currentStep_enum (currentStep c) = true
  ∧ forallb message_valid (messages c) = true
  ∧ match json_get "severity" (symptoms (extractedData c)) with
    | Some v => in_enum severity_enum v
    | None => true
    end = true.
Proof.
  unfold schema_valid. rewrite !andb_true_iff, negb_true_iff. tauto.
Qed.

Lemma callAIAgentService_down (f : FetchResult) :
  agent_down f → callAIAgentService f = fallback.
Proof. intros [->|(st & json & -> & H)]; simpl; [done|]. by rewrite H. Qed.

Lemma after_fallback_valid env c msg :
  schema_valid c = true → Js.trim msg ≠ "" →
  schema_valid (after_fallback env c msg) = true.
Proof.
  intros Hv Hm. apply schema_valid_iff in Hv as (H1 & H2 & H3 & H4 & H5).
  apply schema_valid_iff. split_and!; try done.
  simpl. rewrite !forallb_app, H4. simpl.
  unfold message_valid. simpl. rewrite !messageId_nonempty, trim_idem.
  apply String.eqb_neq in Hm. by rewrite Hm.
Qed.

Lemma process_reply_fallback env appts coll c msg :
  schema_valid c = true → Js.trim msg ≠ "" →
  existsb (has_id (conversationId c)) coll = true →
  ∃ d, process_reply env appts coll
         (addMessage (now env) (rnd1 env) c "user" (Js.trim msg) "text" no_metadata)
         fallback
       = (Respond 200 d, replace (after_fallback env c msg) coll)
       ∧ d_status d = "error" ∧ d_message d = r_message fallback
       ∧ d_agentType d = Some "system" ∧ d_confidence d = Some 0%Q
       ∧ d_conversationId d = conversationId c.
Proof.
  intros Hv Hm Hex. unfold process_reply.
  change (cast_error (r_aiContext fallback)) with false.
  set (c6 := if Js.truthy (r_appointmentId fallback) then _ else _).
  assert (Hc6 : c6 = after_fallback env c msg) by reflexivity.
  clearbody c6. subst c6.
  assert (Hs : save_loaded false coll (after_fallback env c msg)
               = inr (replace (after_fallback env c msg) coll)).
  { apply save_loaded_inr. split; [done|].
    apply conversation_save_inr. split_and!; [by apply after_fallback_valid|done|done]. }
  rewrite Hs. simpl. eauto 10.
Qed.

Lemma trim_nonempty (msg : string) : Js.trim msg ≠ "" → msg ≠ "".
Proof. by intros H ->. Qed.

Lemma message_check_passes (msg : string) :
  Js.trim msg ≠ "" →
  negb (Js.truthy (Some msg)) || (String.length (Js.trim (default "" (Some msg))) =? 0)%nat = false.
Proof.
  intros H. pose proof (trim_nonempty msg H) as Hm. simpl.
  apply String.eqb_neq in Hm. rewrite Hm. simpl.
  destruct (Js.trim msg); [done|]. done.
Qed.

Lemma existsb_app_last (P : t → bool) (coll : list t) (c : t) :
  P c = true → existsb P (coll ++ [c]) = true.
Proof. intros H. rewrite existsb_app. simpl. rewrite H. by rewrite orb_true_r. Qed.

(** C7. When a chat request reaches the agent call and the call throws or
    is answered with a status outside 2xx, [callAIAgentService] returns
    the fallback (agent type 'system', confidence 0, new status 'error'),
    and [chatWithAgent] answers 200: the stored conversation has status
    'error' and ends with the fallback text as an agent message. *)
Theorem chatWithAgent_fallback (env : Env) (appts : gmap ObjectId Appointment.t)
    (coll : list t) (userId : ObjectId) (msg : string) (cid : option string)
    (f : FetchResult) (c : t) :
  Js.trim msg ≠ "" →
  resolves env coll userId cid c →
  agent_down f →
  callAIAgentService f = fallback
  ∧ r_agentType fallback = Some "system"
  ∧ r_confidence fallback = Some 0%Q
  ∧ r_newStatus fallback = Some "error"
  ∧ ∃ d coll',
      chatWithAgent env appts coll userId (Some msg) cid f = (Respond 200 d, coll')
      ∧ d_status d = "error" ∧ d_message d = r_message fallback
      ∧ d_agentType d = Some "system" ∧ d_confidence d = Some 0%Q
      ∧ after_fallback env c msg ∈ coll'
      ∧ conversationId (after_fallback env c msg) = conversationId c
      ∧ status (after_fallback env c msg) = "error"
      ∧ ∃ m, last (messages (after_fallback env c msg)) = Some m
             ∧ sender m = "agent" ∧ content m = r_message fallback
             ∧ agentType (metadata m) = Some "system"
             ∧ confidence (metadata m) = Some 0%Q.
Proof.
  intros Hm Hres Hdown.
  pose proof (callAIAgentService_down f Hdown) as Hf.
  split_and!; try done.
  assert (Hlast : ∃ m, last (messages (after_fallback env c msg)) = Some m
             ∧ sender m = "agent" ∧ content m = r_message fallback
             ∧ agentType (metadata m) = Some "system"
             ∧ confidence (metadata m) = Some 0%Q).
  { simpl. rewrite last_snoc. eexists. split; [done|]. by split_and!. }
  unfold chatWithAgent. rewrite (message_check_passes msg Hm), Hf.
  destruct cid as [id|]; simpl in Hres.
  - destruct Hres as (Hid & Hfind & Hexp & Hv).
    pose proof Hid as Hid'. apply String.eqb_neq in Hid'.
    simpl. rewrite Hid'. simpl. rewrite Hfind, Hexp.
    unfold findOne in Hfind. apply find_some in Hfind as [Hin Hp].
    apply andb_true_iff in Hp as [Hp _]. apply andb_true_iff in Hp as [Hp _].
    assert (Hex : existsb (has_id (conversationId c)) coll = true).
    { apply existsb_exists. exists c. split; [done|]. apply String.eqb_refl. }
    destruct (process_reply_fallback env appts coll c msg Hv Hm Hex)
      as (d & Hpr & Hd1 & Hd2 & Hd3 & Hd4 & Hd5).
    exists d, (replace (after_fallback env c msg) coll).
    split_and!; try done. by apply replace_elem_of.
  - destruct Hres as (Hu & Hfresh & ->).
    set (c0 := create (now env) userId (uuid env) "started" "initial_greeting") in *.
    assert (Hv : schema_valid c0 = true) by (by apply create_valid).
    assert (Hs : save coll true c0 = inr (coll ++ [c0])%list).
    { apply conversation_save_inr. by split_and!. }
    rewrite Hs.
    assert (Hex : existsb (has_id (conversationId c0)) (coll ++ [c0]) = true).
    { apply existsb_app_last. apply String.eqb_refl. }
    destruct (process_reply_fallback env appts (coll ++ [c0])%list c0 msg Hv Hm Hex)
      as (d & Hpr & Hd1 & Hd2 & Hd3 & Hd4 & Hd5).
    exists d, (replace (after_fallback env c0 msg) (coll ++ [c0])%list).
    split_and!; try done. by apply replace_elem_of.
Qed.


Lemma chatWithAgent_fallback_witness :
  ∃ d coll',
    chatWithAgent Samples.env1 ∅ [Samples.conv_started] "u1" (Some "hello") (Some "c1")
      FetchThrows = (Respond 200 d, coll')
    ∧ d_status d = "error".
Proof.
  destruct (chatWithAgent_fallback Samples.env1 ∅ [Samples.conv_started] "u1" "hello"
              (Some "c1") FetchThrows Samples.conv_started)
    as (_ & _ & _ & _ & d & coll' & H & Hd & _).
  - vm_compute. discriminate.
  - simpl. split_and!; [discriminate|reflexivity|reflexivity|reflexivity].
  - by left.
  - exists d, coll'. split; assumption.
Defined.


Example startNewConversation_example :
  let r := startNewConversation Samples.env1 [Samples.conv_slot] "u1" in
  status_of r.1 = Some 201
  ∧ (λ c, (conversationId c, status c, isActive c)) <$> r.2
    = [("c1", "cancelled", false); ("c2", "started", true)].
Proof. vm_compute. split; reflexivity. Qed.


End ConversationProps.

(** ** Email verification *)
Section UserProps.
Import User UserController.

Lemma verifyEmail_ok_iff env (users : gmap ObjectId t) uid otp_ :
  status_of (verifyEmail env users uid otp_).1 = Some 200 ↔
  ∃ u o e, users !! uid = Some u ∧ otp_ = Some o ∧ o ≠ ""
           ∧ emailOTP u = Some o ∧ emailOTPExpiry u = Some e ∧ now env < e.
Proof.
  unfold verifyEmail, findById. simpl.
  destruct otp_ as [o|]; simpl; [|naive_solver].
  destruct (String.eqb_spec o ""); simpl; [naive_solver|].
  destruct (users !! uid) as [u|]; simpl; [|naive_solver].
  case_bool_decide as Ho; simpl; [|naive_solver].
  destruct (emailOTPExpiry u) as [e|] eqn:He; simpl.
  - destruct (Z.ltb_spec (now env) e); simpl.
    + split; [|done]. intros _. exists u, o, e. done.
    + split; [done|].
      intros (u' & o' & e' & [= <-] & [= <-] & _ & _ & He' & ?).
      rewrite He in He'. injection He' as <-. lia.
  - split; [done|].
    intros (u' & o' & e' & [= <-] & _ & _ & _ & He' & _). congruence.
Qed.

Lemma verifyEmail_outcomes env (users : gmap ObjectId t) uid otp_ :
  (∃ u, users !! uid = Some u
        ∧ verifyEmail env users uid otp_
          = (Respond 200 (), save users (set_emailOTP (set_isEmailVerified u true) None None)))
  ∨ (∃ msg, verifyEmail env users uid otp_ = (ApiError 400 msg, users)).
Proof.
  unfold verifyEmail, findById. simpl.
  destruct (negb (Js.truthy otp_)); [right; eauto|].
  destruct (users !! uid) as [u|]; simpl; [|right; eauto].
  destruct (_ && _); [left; eauto|right; eauto].
Qed.

Lemma docs_elem_of (users : gmap ObjectId t) (v : t) :
  v ∈ docs users ↔ ∃ i, users !! i = Some v.
Proof.
  unfold docs. rewrite list_elem_of_fmap. split.
  - intros ([i v'] & -> & H). apply elem_of_map_to_list in H. eauto.
  - intros [i H]. exists (i, v). split; [done|]. by apply elem_of_map_to_list.
Qed.

Lemma unique_ok_spec (users : gmap ObjectId t) (u : t) :
  unique_ok users u = true ↔
  ∀ i v, users !! i = Some v → email v ≠ email u ∧ phone v ≠ phone u.
Proof.
  unfold unique_ok. rewrite forallb_forall. split.
  - intros H i v Hv.
    assert (Hin : In v (docs users)).
    { apply list_elem_of_In, docs_elem_of. eauto. }
    specialize (H v Hin). apply andb_true_iff in H as [H1 H2].
    apply negb_true_iff in H1, H2. by apply String.eqb_neq in H1, H2.
  - intros H v Hin. apply list_elem_of_In, docs_elem_of in Hin as [i Hv].
    destruct (H i v Hv) as [H1 H2]. apply String.eqb_neq in H1, H2.
    by rewrite H1, H2.
Qed.

Lemma findOne_unique (p : t → bool) (users : gmap ObjectId t) (u : t) :
  (∀ i v, users !! i = Some v → p v = true → v = u) →
  (∃ i, users !! i = Some u) → p u = true →
  findOne p users = Some u.
Proof.
  intros Huniq Hin Hp. unfold findOne.
  destruct (List.find p (docs users)) as [v|] eqn:E.
  - apply find_some in E as [Hv Hpv]. apply list_elem_of_In, docs_elem_of in Hv as [i Hv].
    by rewrite (Huniq i v Hv Hpv).
  - exfalso. apply docs_elem_of, list_elem_of_In in Hin.
    pose proof (find_none _ _ E u Hin). congruence.
Qed.

Lemma findOne_none (p : t → bool) (users : gmap ObjectId t) :
  (∀ i v, users !! i = Some v → p v = false) → findOne p users = None.
Proof.
  intros Hno. unfold findOne.
  destruct (List.find p (docs users)) as [v|] eqn:E; [|done].
  apply find_some in E as [Hv Hpv]. apply list_elem_of_In, docs_elem_of in Hv as [i Hv].
  rewrite (Hno i v Hv) in Hpv. done.
Qed.

Lemma findOne_Some (p : t → bool) (users : gmap ObjectId t) (u : t) :
  findOne p users = Some u → (∃ i, users !! i = Some u) ∧ p u = true.
Proof.
  unfold findOne. intros [Hv Hp]%find_some. split; [|done].
  by apply docs_elem_of, list_elem_of_In.
Qed.

Lemma findByEmailOrPhone_Some (users : gmap ObjectId t) x (u : t) :
  findByEmailOrPhone users x = Some u →
  (∃ i, users !! i = Some u) ∧ (email u = Js.trim x ∨ phone u = Js.trim x)
  ∧ isActive u = true.
Proof.
  unfold findByEmailOrPhone. intros [Hin Hp]%findOne_Some.
  apply andb_true_iff in Hp as [Hx Ha]. apply orb_true_iff in Hx.
  rewrite !String.eqb_eq in Hx. auto.
Qed.

Lemma findByEmailOrPhone_None (users : gmap ObjectId t) x :
  findByEmailOrPhone users x = None ↔
  ∀ i v, users !! i = Some v → isActive v = true →
         email v ≠ Js.trim x ∧ phone v ≠ Js.trim x.
Proof.
  unfold findByEmailOrPhone. split.
  - intros Hf i v Hv Ha.
    assert (Hin : In v (docs users)) by (apply list_elem_of_In, docs_elem_of; eauto).
    pose proof (find_none _ _ Hf v Hin) as Hp. simpl in Hp.
    rewrite Ha, andb_true_r in Hp. apply orb_false_iff in Hp as [H1 H2].
    by apply String.eqb_neq in H1, H2.
  - intros H. apply findOne_none. intros i v Hv.
    destruct (isActive v) eqn:Ha; [|by rewrite andb_false_r].
    destruct (H i v Hv Ha) as [H1 H2]. apply String.eqb_neq in H1, H2.
    by rewrite H1, H2.
Qed.

(** The requests that [signup] answers with 201. *)
Lemma signup_created_iff valid env (users : gmap ObjectId t) b :
  (∃ code i users', signup valid env users b = (Respond code i, users'))
  ↔ (Js.truthy (b_firstName b) = true ∧ Js.truthy (b_lastName b) = true
     ∧ Js.truthy (b_email b) = true ∧ Js.truthy (b_phone b) = true
     ∧ Js.truthy (b_password b) = true ∧ Js.truthy (b_dateOfBirth b) = true
     ∧ Js.truthy (b_gender b) = true)
    ∧ findByEmailOrPhone users (default "" (b_email b)) = None
    ∧ findByEmailOrPhone users (default "" (b_phone b)) = None
    ∧ (Js.truthy (b_city b) = true ∧ Js.truthy (b_state b) = true
       ∧ Js.truthy (b_zipCode b) = true)
    ∧ valid (userData env b) = true
    ∧ (∀ j v, users !! j = Some v →
              email v ≠ email (userData env b) ∧ phone v ≠ phone (userData env b))
    ∧ users !! newId env = None.
Proof.
  unfold signup. rewrite <- unique_ok_spec.
  destruct (Js.truthy (b_firstName b)), (Js.truthy (b_lastName b)),
    (Js.truthy (b_email b)), (Js.truthy (b_phone b)), (Js.truthy (b_password b)),
    (Js.truthy (b_dateOfBirth b)), (Js.truthy (b_gender b)); simpl;
    try (split; [by intros (? & ? & ? & ?)|naive_solver]).
  destruct (findByEmailOrPhone users (default "" (b_email b)));
    [split; [by intros (? & ? & ? & ?)|naive_solver]|].
  destruct (findByEmailOrPhone users (default "" (b_phone b)));
    [split; [by intros (? & ? & ? & ?)|naive_solver]|].
  destruct (Js.truthy (b_city b)), (Js.truthy (b_state b)), (Js.truthy (b_zipCode b));
    simpl; try (split; [by intros (? & ? & ? & ?)|naive_solver]).
  destruct (valid (userData env b)); simpl;
    [|split; [by intros (? & ? & ? & ?)|naive_solver]].
  destruct (unique_ok users (userData env b)); simpl;
    [|split; [by intros (? & ? & ? & ?)|naive_solver]].
  case_bool_decide as Hid.
  - split; [by intros (? & ? & ? & ?)|].
    intros (_ & _ & _ & _ & _ & _ & Hn). rewrite Hn in Hid. by destruct Hid.
  - split; [|eauto]. intros _. split_and!; auto.
    destruct (users !! newId env) eqn:E; [|done]. destruct Hid. eauto.
Qed.

(** The user that [signup] creates is stored by the save of a model with
    field constraints and unique indexes only. *)
Lemma signup_stores_by_save valid env (users users' : gmap ObjectId t) b code i :
  signup valid env users b = (Respond code i, users') →
  Crud.save_user valid users true (newId env) (userData env b) = inr users'.
Proof.
  unfold signup. intros H.
  destruct (negb (_ && _ && _ && _ && _ && _ && _)); [discriminate|].
  destruct (findByEmailOrPhone users _); [discriminate|].
  destruct (findByEmailOrPhone users _); [discriminate|].
  destruct (negb (_ && _ && _)); [discriminate|].
  destruct (negb (valid _)) eqn:Ev; [discriminate|].
  destruct (negb (unique_ok _ _) || _) eqn:Eu; [discriminate|].
  injection H as _ _ <-.
  apply orb_false_iff in Eu as [Eu Eid]. apply negb_false_iff in Eu.
  apply bool_decide_eq_false in Eid.
  unfold Crud.save_user, Crud.save. rewrite Ev.
  destruct (users !! newId env) eqn:E; [destruct Eid; eauto|].
  assert (Crud.clashes [email; phone] users (newId env) (userData env b) = false) as ->.
  { apply crud_clashes_false. intros j v Hj _.
    destruct (proj1 (unique_ok_spec _ _) Eu j v Hj). repeat constructor; done. }
  done.
Qed.

(** C5. [verifyEmail] answers 200 exactly when the request carries an otp
    equal to the stored [emailOTP] of the authenticated user and
    [emailOTPExpiry] is after the current time; then the stored user is
    verified and both fields are cleared.  In every other case it answers
    400 and the collection is unchanged.  [resendEmailOTP] answers 400 for
    a verified user and otherwise stores the generated otp with an expiry
    ten minutes ahead.  [signup] creates a user exactly for a request that
    carries the required fields and the address, whose email and phone no
    active user has, and whose document passes the validators and the
    unique indexes; the user it creates is stored with the generated otp
    and an expiry ten minutes ahead, not yet verified. *)
Theorem email_otp_workflow (env : Env) (users : gmap ObjectId t) (uid : ObjectId)
    (otp_ : option string) :
  let r := verifyEmail env users uid otp_ in
  (status_of r.1 = Some 200 ↔
     ∃ u o e, users !! uid = Some u ∧ otp_ = Some o ∧ o ≠ ""
              ∧ emailOTP u = Some o ∧ emailOTPExpiry u = Some e ∧ now env < e)
  ∧ (status_of r.1 = Some 200 →
       ∃ u u', users !! uid = Some u ∧ r.2 = <[_id u := u']> users
               ∧ isEmailVerified u' = true
               ∧ emailOTP u' = None ∧ emailOTPExpiry u' = None)
  ∧ (status_of r.1 ≠ Some 200 → status_of r.1 = Some 400 ∧ r.2 = users)
  ∧ (∀ u, users !! uid = Some u → isEmailVerified u = true →
       resendEmailOTP env users uid = (ApiError 400 "Email is already verified", users))
  ∧ (∀ u, users !! uid = Some u → isEmailVerified u = false →
       ∃ u', (resendEmailOTP env users uid).2 !! _id u = Some u'
             ∧ emailOTP u' = Some (otp env)
             ∧ emailOTPExpiry u' = Some (now env + 10 * 60 * 1000))
  ∧ (∀ valid b code i users',
       signup valid env users b = (Respond code i, users') →
       code = 201
       ∧ ∃ u', users' = <[i := u']> users ∧ users !! i = None
               ∧ emailOTP u' = Some (otp env)
               ∧ emailOTPExpiry u' = Some (now env + 10 * 60 * 1000)
               ∧ isEmailVerified u' = false)
  ∧ (∀ valid b,
       (∃ code i users', signup valid env users b = (Respond code i, users'))
       ↔ (Js.truthy (b_firstName b) = true ∧ Js.truthy (b_lastName b) = true
          ∧ Js.truthy (b_email b) = true ∧ Js.truthy (b_phone b) = true
          ∧ Js.truthy (b_password b) = true ∧ Js.truthy (b_dateOfBirth b) = true
          ∧ Js.truthy (b_gender b) = true)
         ∧ findByEmailOrPhone users (default "" (b_email b)) = None
         ∧ findByEmailOrPhone users (default "" (b_phone b)) = None
         ∧ (Js.truthy (b_city b) = true ∧ Js.truthy (b_state b) = true
            ∧ Js.truthy (b_zipCode b) = true)
         ∧ valid (userData env b) = true
         ∧ (∀ j v, users !! j = Some v →
                   email v ≠ email (userData env b) ∧ phone v ≠ phone (userData env b))
         ∧ users !! newId env = None).
Proof.
  intros r. split_and!.
  - apply verifyEmail_ok_iff.
  - subst r. intros H.
    destruct (verifyEmail_outcomes env users uid otp_) as [(u & Hu & ->)|(msg & Hr)].
    + exists u. eexists. split; [done|]. split; [reflexivity|]. done.
    + rewrite Hr in H. done.
  - subst r. intros H.
    destruct (verifyEmail_outcomes env users uid otp_) as [(u & Hu & Hr)|(msg & ->)].
    + rewrite Hr in H. done.
    + done.
  - intros u Hu Hv. unfold resendEmailOTP, findById. simpl. by rewrite Hu, Hv.
  - intros u Hu Hv. unfold resendEmailOTP, findById. simpl. rewrite Hu, Hv.
    eexists. split.
    + destruct (mailOk env); simpl; unfold save; simpl; apply lookup_insert_eq.
    + done.
  - intros valid b code i users' Hs.
    assert (Hc : ∃ c i' u', signup valid env users b = (Respond c i', u')) by eauto.
    apply signup_created_iff in Hc as (_ & Hf1 & Hf2 & _ & _ & _ & Hn).
    revert Hs. unfold signup.
    destruct (negb _); [done|]. rewrite Hf1, Hf2.
    destruct (negb _); [done|].
    destruct (negb (valid _)); [done|].
    destruct (_ || _); [done|].
    intros [= <- <- <-]. split; [done|]. eexists. split_and!; done.
  - intros valid b. apply signup_created_iff.
Qed.

(** A request with every field, for an email and a phone that no stored
    user has, is answered 201, and the created user carries the otp. *)
Lemma email_otp_workflow_witness :
  ∃ code i users' u',
    signup (λ _, true) Samples.uenv_ok Samples.users1 Users.body1 = (Respond code i, users')
    ∧ code = 201
    ∧ users' = <[i := u']> Samples.users1
    ∧ emailOTP u' = Some (otp Samples.uenv_ok)
    ∧ emailOTPExpiry u' = Some (now Samples.uenv_ok + 10 * 60 * 1000)
    ∧ isEmailVerified u' = false.
Proof.
  destruct (email_otp_workflow Samples.uenv_ok Samples.users1 "u1" None)
    as (_ & _ & _ & _ & _ & H6 & H7).
  destruct (proj2 (H7 (λ _, true) Users.body1)) as (code & i & users' & Hs).
  { split_and!; try reflexivity.
    intros j v Hv. unfold Samples.users1 in Hv.
    apply lookup_singleton_Some in Hv as [<- <-]. split; discriminate. }
  destruct (H6 _ _ _ _ _ Hs) as (Hc & u' & Hu & _ & Ho & He & Hv).
  exists code, i, users', u'. split_and!; done.
Defined.

Example verifyEmail_example :
  status_of (verifyEmail Samples.uenv_ok Samples.users1 "u1" (Some "123456")).1 = Some 200
  ∧ status_of (verifyEmail Samples.uenv_ok Samples.users1 "u1" (Some "000000")).1 = Some 400
  ∧ status_of (verifyEmail
                 {| now := 600000; otp := ""; newId := ""; mailOk := true |}
                 Samples.users1 "u1" (Some "123456")).1 = Some 400.
Proof. vm_compute. split_and!; reflexivity. Qed.


End UserProps.

(** ** Authentication *)
Section AuthProps.
Import Auth.
Variable jwt_verify : string → JwtResult.

Lemma protected_chains :
  Forall (λ e, ep_chain e = [authenticate_mw]) protected_endpoints.
Proof. vm_compute. repeat constructor. Qed.

Lemma protected_listing :
  (ep_handler <$> protected_endpoints)
  = [getProfile; updateProfile;
     chatWithAgent; startNewConversation; getUserConversations;
     getConversationHistory; endConversation;
     getUserAppointments; getAppointmentStats; getAppointmentDetails;
     cancelAppointment; rescheduleAppointment; getDoctorAvailableSlots].
Proof. reflexivity. Qed.

(** C6. [authenticate] rejects with 401 a request without a token, one
    whose token [jwt.verify] refuses, and one whose token names no user;
    it rejects with 403 when the user named is inactive; otherwise it
    passes that user on as [req.user].  On every profile, chat and
    appointment endpoint the handler is invoked only after [authenticate]
    has passed, with that user, and a rejection is the endpoint's answer. *)
Theorem authenticate_spec (users : gmap ObjectId User.t) (req : Request) :
  (Js.truthy (token_of req) = false →
     ∃ msg, authenticate jwt_verify users req = Rejected 401 msg)
  ∧ (∀ tok, token_of req = Some tok → tok ≠ "" →
       ((∀ p, jwt_verify tok ≠ Verified p) →
          ∃ msg, authenticate jwt_verify users req = Rejected 401 msg)
       ∧ (∀ p, jwt_verify tok = Verified p →
            (User.findById users (id p) = None →
               authenticate jwt_verify users req = Rejected 401 "Invalid access token")
            ∧ (∀ u, User.findById users (id p) = Some u →
                 (User.isActive u = false →
                    authenticate jwt_verify users req
                    = Rejected 403 "Account has been deactivated")
                 ∧ (User.isActive u = true →
                      authenticate jwt_verify users req = Next u))))
  ∧ (∀ u, authenticate jwt_verify users req = Next u →
       ∃ tok p i, token_of req = Some tok ∧ tok ≠ "" ∧ jwt_verify tok = Verified p
                  ∧ id p = Some i ∧ users !! i = Some u ∧ User.isActive u = true)
  ∧ (∀ e, e ∈ protected_endpoints →
       serve jwt_verify users req e
       = match authenticate jwt_verify users req with
         | Next u => Invoked (ep_handler e) (Some u)
         | Rejected code msg => Refused code msg
         end).
Proof.
  split_and!.
  - intros H. unfold authenticate. rewrite H. simpl. eauto.
  - intros tok Htok Hne.
    assert (Ht : Js.truthy (token_of req) = true).
    { rewrite Htok. simpl. apply String.eqb_neq in Hne. by rewrite Hne. }
    split.
    + intros Hbad. unfold authenticate. rewrite Ht, Htok. simpl.
      destruct (jwt_verify tok) as [p| | |] eqn:E; eauto. by destruct (Hbad p).
    + intros p Hp. unfold authenticate. rewrite Ht, Htok. simpl. rewrite Hp.
      split; [by intros ->|]. intros u -> . split; by intros ->.
  - intros u. unfold authenticate.
    destruct (Js.truthy (token_of req)) eqn:Ht; simpl; [|done].
    destruct (token_of req) as [tok|] eqn:Htok; [|done]. simpl.
    destruct (jwt_verify tok) as [p| | |] eqn:E; try done.
    destruct (User.findById users (id p)) as [u'|] eqn:Hf; [|done].
    destruct (User.isActive u') eqn:Ha; simpl; [|done].
    intros [= <-]. unfold User.findById in Hf.
    destruct (id p) as [i|] eqn:Hi; [|done]. simpl in Hf.
    exists tok, p, i. split_and!; try done.
    simpl in Ht. apply negb_true_iff in Ht. by apply String.eqb_neq.
  - intros e He.
    pose proof (proj1 (Forall_forall _ _) protected_chains e He) as Hc.
    unfold serve. rewrite Hc. simpl.
    by destruct (authenticate jwt_verify users req).
Qed.

End AuthProps.

(** ** Operation-specific failure rules *)
Section FailureRules.

Lemma cancelled_doc_valid (a : Appointment.t) now :
  Appointment.schema_valid a = true →
  Appointment.schema_valid
    {| Appointment._id := Appointment._id a; Appointment.patient := Appointment.patient a;
       Appointment.doctor := Appointment.doctor a;
       Appointment.appointmentDate := Appointment.appointmentDate a;
       Appointment.timeSlot := Appointment.timeSlot a;
       Appointment.symptoms := Appointment.symptoms a;
       Appointment.reasonForVisit := Appointment.reasonForVisit a;
       Appointment.status := "cancelled"; Appointment.priority := Appointment.priority a;
       Appointment.consultationFee := Appointment.consultationFee a;
       Appointment.paymentStatus := Appointment.paymentStatus a;
       Appointment.notes_patient := Appointment.notes_patient a;
       Appointment.cancelledAt := Some now;
       Appointment.cancelledBy := Some "patient";
       Appointment.cancellationReason := Some "Cancelled by patient" |} = true.
Proof.
  unfold Appointment.schema_valid. simpl. rewrite !andb_true_iff.
  intros (((((((((((H1 & H2) & H3) & H4) & H5) & H6) & H7) & H8) & H9) & H10) & H11) & H12).
  split_and!; done.
Qed.

(** C8, as the code has it.  Beyond mapping errors to status codes, two
    operations have failure rules of their own.  [cancelAppointment]
    refuses with 400, and changes nothing, when the patient's scheduled or
    confirmed appointment is less than two hours ahead; two hours or more
    ahead it answers 200 and stores the appointment as cancelled.
    [forgotPassword], when the mail with the reset otp cannot be sent,
    clears the otp it has just stored and answers 500. *)
Theorem failure_rules (now : Z) (m : gmap ObjectId Appointment.t) (a : Appointment.t)
    (env : UserController.Env) (users : gmap ObjectId User.t) (e : string) (u : User.t) :
  m !! Appointment._id a = Some a →
  Appointment.status a ∈ ["scheduled"; "confirmed"] →
  Appointment.schema_valid a = true →
  e ≠ "" →
  User.findOne (λ u, String.eqb (User.email u) (Js.trim (Js.toLowerCase e)) && User.isActive u)
    users = Some u →
  (Appointment.appointmentDate a - now < 2 * (1000 * 3600) →
     Appointment.cancelAppointment now m (Appointment.patient a) (Appointment._id a) None
     = (ApiError 400 "Appointments can only be cancelled at least 2 hours before the scheduled time", m))
  ∧ (2 * (1000 * 3600) ≤ Appointment.appointmentDate a - now →
     ∃ d m' a',
       Appointment.cancelAppointment now m (Appointment.patient a) (Appointment._id a) None
       = (Respond 200 d, m')
       ∧ m' !! Appointment._id a = Some a'
       ∧ Appointment.status a' = "cancelled"
       ∧ Appointment.cancelledBy a' = Some "patient")
  ∧ (UserController.mailOk env = false →
     ∃ users' u',
       UserController.forgotPassword env users (Some e)
       = (ApiError 500 "Failed to send password reset email. Please try again.", users')
       ∧ users' !! User._id u = Some u'
       ∧ User.resetPasswordOTP u' = None
       ∧ User.resetPasswordOTPExpiry u' = None)
  ∧ (UserController.mailOk env = true →
     ∃ users' u',
       UserController.forgotPassword env users (Some e) = (Respond 200 (), users')
       ∧ users' !! User._id u = Some u'
       ∧ User.resetPasswordOTP u' = Some (UserController.otp env)
       ∧ User.resetPasswordOTPExpiry u' = Some (UserController.now env + 15 * 60 * 1000)).
Proof.
  intros Hm Hst Hv He Hu.
  assert (Hfound : String.eqb (Appointment._id a) (Appointment._id a)
                   && String.eqb (Appointment.patient a) (Appointment.patient a)
                   && Appointment.in_enum ["scheduled"; "confirmed"] (Appointment.status a) = true).
  { rewrite !String.eqb_refl. simpl. unfold Appointment.in_enum. by apply bool_decide_eq_true. }
  pose proof He as He'. apply String.eqb_neq in He'.
  split_and!.
  - intros Hlate. unfold Appointment.cancelAppointment. rewrite Hm, Hfound.
    unfold Appointment.too_late, Appointment.two_hours_ms.
    destruct (Z.ltb_spec (Appointment.appointmentDate a - now) (2 * (1000 * 3600))); [done|lia].
  - intros Hearly. unfold Appointment.cancelAppointment. rewrite Hm, Hfound.
    unfold Appointment.too_late, Appointment.two_hours_ms.
    destruct (Z.ltb_spec (Appointment.appointmentDate a - now) (2 * (1000 * 3600))); [lia|].
    match goal with |- context [Appointment.save now m false ?x] => set (a' := x) end.
    assert (Hs : Appointment.save now m false a' = inr (<[Appointment._id a := a']> m)).
    { apply save_inr. split_and!.
      - by apply cancelled_doc_valid.
      - apply pre_save_None. unfold Appointment.hook_applies. simpl. rewrite Hm.
        unfold Appointment.isModified_date, Appointment.isModified_timeSlot. simpl.
        rewrite Z.eqb_refl, !String.eqb_refl. done.
      - simpl. rewrite Hm. eauto.
      - done. }
    rewrite Hs. eexists _, _, a'. split; [reflexivity|].
    split; [apply lookup_insert_eq|]. done.
  - intros Hmail. unfold UserController.forgotPassword.
    simpl. rewrite He'. simpl. rewrite Hu, Hmail.
    eexists _, _. split; [reflexivity|]. unfold User.save. simpl.
    split; [apply lookup_insert_eq|]. done.
  - intros Hmail. unfold UserController.forgotPassword.
    simpl. rewrite He'. simpl. rewrite Hu, Hmail.
    eexists _, _. split; [reflexivity|]. unfold User.save. simpl.
    split; [apply lookup_insert_eq|]. done.
Qed.

Lemma failure_rules_witness :
  Appointment.cancelAppointment 99000000 Samples.store1 "pat1" "a" None
  = (ApiError 400 "Appointments can only be cancelled at least 2 hours before the scheduled time",
     Samples.store1).
Proof.
  apply (failure_rules 99000000 Samples.store1 Samples.apptA
           Samples.uenv_mail_down Samples.users1 "Asha@Example.com" Samples.user1).
  - reflexivity.
  - apply elem_of_cons. by left.
  - reflexivity.
  - discriminate.
  - reflexivity.
  - vm_compute. reflexivity.
Defined.

(** C8, as stated, fails.  The same cancellation request on the same
    collection is answered 200 more than two hours ahead of the
    appointment and 400 less than two hours ahead; and when the reset mail
    cannot be sent, [forgotPassword] answers 500 and the otp that was
    stored for the mail is gone again, while it stays when the mail is
    sent. *)
Lemma time_window_and_cleanup :
  status_of (Appointment.cancelAppointment 0 Samples.store1 "pat1" "a" None).1 = Some 200
  ∧ status_of (Appointment.cancelAppointment 99000000 Samples.store1 "pat1" "a" None).1
    = Some 400
  ∧ status_of (UserController.forgotPassword Samples.uenv_mail_down Samples.users1
                 (Some "asha@example.com")).1 = Some 500
  ∧ User.resetPasswordOTP <$>
      (UserController.forgotPassword Samples.uenv_mail_down Samples.users1
         (Some "asha@example.com")).2 !! "u1" = Some None
  ∧ status_of (UserController.forgotPassword Samples.uenv_ok Samples.users1
                 (Some "asha@example.com")).1 = Some 200
  ∧ User.resetPasswordOTP <$>
      (UserController.forgotPassword Samples.uenv_ok Samples.users1
         (Some "asha@example.com")).2 !! "u1" = Some (Some "654321").
Proof. split_and!; reflexivity. Qed.


End FailureRules.

Section AuthExamples.
Import Auth.

Example authenticate_example :
  authenticate Samples.sample_jwt Samples.users1
    {| cookie_token := None; authorization := Some "Bearer good" |} = Next Samples.user1
  ∧ authenticate Samples.sample_jwt Samples.users1
      {| cookie_token := Some "old"; authorization := Some "Bearer good" |}
    = Rejected 401 "Access token has expired"
  ∧ authenticate Samples.sample_jwt Samples.users1
      {| cookie_token := None; authorization := Some "Bearer ghost" |}
    = Rejected 401 "Invalid access token"
  ∧ authenticate Samples.sample_jwt Samples.users1
      {| cookie_token := None; authorization := Some "Bearer " |}
    = Rejected 401 "Access token is required"
  ∧ serve Samples.sample_jwt Samples.users1
      {| cookie_token := None; authorization := None |}
      {| ep_method := "POST"; ep_path := "/message"; ep_chain := [authenticate_mw];
         ep_handler := chatWithAgent |}
    = Refused 401 "Access token is required".
Proof. vm_compute. split_and!; reflexivity. Qed.

End AuthExamples.

(** * Further properties of the code *)

(** ** The conversation collection under the chat operations *)
Section CollectionProps.
Import Conversation Chat Collection.

Lemma has_id_eq (cid : string) (c : t) : has_id cid c = true ↔ conversationId c = cid.
Proof. unfold has_id. apply String.eqb_eq. Qed.

Lemma replace_ids (c : t) (coll : list t) :
  conversationId <$> replace c coll = conversationId <$> coll.
Proof.
  induction coll as [|d coll IH]; [done|]. cbn [replace].
  destruct (has_id (conversationId c) d) eqn:E; rewrite !fmap_cons.
  - apply has_id_eq in E. by rewrite E.
  - by rewrite IH.
Qed.

Lemma existsb_has_id (cid : string) (coll : list t) :
  existsb (has_id cid) coll = true ↔ cid ∈ conversationId <$> coll.
Proof.
  rewrite existsb_exists, list_elem_of_fmap. split.
  - intros (d & Hd & E). apply has_id_eq in E. exists d. split; [done|].
    by apply list_elem_of_In.
  - intros (d & -> & Hd). exists d. split; [by apply list_elem_of_In|]. by apply has_id_eq.
Qed.

Lemma unique_ids_same (coll : list t) (x y : t) :
  unique_ids coll → x ∈ coll → y ∈ coll → conversationId x = conversationId y → x = y.
Proof.
  unfold unique_ids. induction coll as [|d coll IH]; simpl.
  - intros _ H. by apply elem_of_nil in H.
  - intros Hnd Hx Hy E. apply NoDup_cons in Hnd as [Hd Hnd].
    apply elem_of_cons in Hx as [->|Hx]; apply elem_of_cons in Hy as [->|Hy].
    + done.
    + destruct Hd. rewrite E. apply list_elem_of_fmap. eauto.
    + destruct Hd. rewrite <- E. apply list_elem_of_fmap. eauto.
    + by apply IH.
Qed.

(** Replacing a conversation of [userId] leaves the others' untouched. *)
Lemma replace_others (userId : ObjectId) (c : t) (coll : list t) :
  unique_ids coll → owns userId (conversationId c) coll → user c = userId →
  others userId (replace c coll) = others userId coll.
Proof.
  intros Hu (o & Ho & Hid & Hou) Hc. unfold others.
  assert (Hown : ∀ d, d ∈ coll → has_id (conversationId c) d = true → user d = userId).
  { intros d Hd E. apply has_id_eq in E.
    rewrite (unique_ids_same coll d o Hu Hd Ho); [done|congruence]. }
  clear Hu Ho Hid Hou. induction coll as [|d coll IH]; simpl; [done|].
  destruct (has_id (conversationId c) d) eqn:E.
  - rewrite !filter_cons.
    assert (user d = userId) by (apply Hown; [apply elem_of_cons; by left|done]).
    destruct (decide (user c ≠ userId)); [done|]. by destruct (decide (user d ≠ userId)).
  - rewrite !filter_cons, IH; [done|].
    intros d' Hd' E'. apply Hown; [apply elem_of_cons; by right|done].
Qed.

Lemma save_update_frame (userId : ObjectId) (coll coll' : list t) (c : t) :
  unique_ids coll → owns userId (conversationId c) coll → user c = userId →
  save coll false c = inr coll' →
  unique_ids coll' ∧ others userId coll' = others userId coll
  ∧ owns userId (conversationId c) coll'.
Proof.
  intros Hu Ho Hc Hs. apply conversation_save_inr in Hs as (_ & Hex & ->). simpl in Hex.
  split_and!.
  - unfold unique_ids. by rewrite replace_ids.
  - by apply replace_others.
  - exists c. split_and!; try done. by apply replace_elem_of.
Qed.

Lemma save_insert_frame (userId : ObjectId) (coll coll' : list t) (c : t) :
  unique_ids coll → user c = userId → save coll true c = inr coll' →
  unique_ids coll' ∧ others userId coll' = others userId coll
  ∧ owns userId (conversationId c) coll'.
Proof.
  intros Hu Hc Hs. apply conversation_save_inr in Hs as (_ & Hex & ->). simpl in Hex.
  split_and!.
  - unfold unique_ids. rewrite fmap_app. simpl. apply NoDup_app. split_and!; [done| |].
    + intros x Hx ->%list_elem_of_singleton.
      apply existsb_has_id in Hx. congruence.
    + apply NoDup_singleton.
  - unfold others. rewrite filter_app, filter_cons.
    destruct (decide (user c ≠ userId)); [done|]. simpl. by rewrite app_nil_r.
  - exists c. split_and!; try done. apply elem_of_app. right. by apply list_elem_of_singleton.
Qed.

Lemma apply_extracted_identity (c : t) (o : option AgentExtracted) :
  same_identity c (apply_extracted c o).
Proof.
  unfold apply_extracted. destruct o as [x|]; [|done].
  destruct (x_symptoms x), (x_recommendation x) as [r|], (x_selectedSlot x);
    try destruct (Js.truthy (Some r)); destruct (Js.truthy (x_selectedDoctor x)); done.
Qed.

Lemma reply_identity (env : Env) (c : t) (r : AgentResponse) :
  let c2 := addMessage (now env) (rnd2 env) c "agent" (r_message r) "text"
              {| agentType := r_agentType r; confidence := r_confidence r;
                 suggestions := r_suggestions r |} in
  let c3 := match r_newStatus r with
            | Some st => if Js.truthy (Some st)
                         then updateStatus (now env) c2 st (r_newStep r) else c2
            | None => c2
            end in
  let c4 := apply_extracted c3 (r_extractedData r) in
  let c5 := apply_aiContext c4 (r_aiContext r) in
  let c6 := if Js.truthy (r_appointmentId r)
            then complete (now env) c5 (r_appointmentId r) else c5 in
  same_identity c c6.
Proof.
  intros c2 c3 c4 c5 c6.
  assert (H3 : same_identity c c3).
  { subst c3 c2. destruct (r_newStatus r) as [st|]; [|done].
    destruct (Js.truthy (Some st)); [|done].
    unfold updateStatus. destruct (r_newStep r) as [s|]; [|done].
    by destruct (Js.truthy (Some s)). }
  assert (H4 : same_identity c c4).
  { destruct (apply_extracted_identity c3 (r_extractedData r)) as [? ?].
    destruct H3. subst c4. split; congruence. }
  assert (H5 : same_identity c c5).
  { subst c5. unfold apply_aiContext. by destruct (r_aiContext r). }
  subst c6. destruct (Js.truthy (r_appointmentId r)); [|done].
  unfold complete. destruct H5. by destruct (Js.truthy (r_appointmentId r)).
Qed.

Lemma on_error_frame (userId : ObjectId) env castError (coll : list t) (c : t) msg :
  unique_ids coll → owns userId (conversationId c) coll → user c = userId →
  unique_ids (on_error env castError coll c msg).2
  ∧ others userId (on_error env castError coll c msg).2 = others userId coll.
Proof.
  intros Hu Ho Hc. unfold on_error.
  destruct (save_loaded castError coll _) as [e|coll'] eqn:Hs; simpl; [done|].
  apply save_loaded_inr in Hs as [_ Hs].
  destruct (save_update_frame userId coll coll' (set_errorLog c _) Hu Ho Hc Hs)
    as (? & ? & _). done.
Qed.

Lemma process_reply_frame (userId : ObjectId) env appts (coll : list t) (c : t) r :
  unique_ids coll → owns userId (conversationId c) coll → user c = userId →
  unique_ids (process_reply env appts coll c r).2
  ∧ others userId (process_reply env appts coll c r).2 = others userId coll.
Proof.
  intros Hu Ho Hc. unfold process_reply.
  destruct (reply_identity env c r) as [Hu6 Hi6].
  set (c6 := if Js.truthy (r_appointmentId r) then _ else _) in *.
  clearbody c6.
  assert (Ho6 : owns userId (conversationId c6) coll) by (by rewrite Hi6).
  assert (Hc6 : user c6 = userId) by congruence.
  destruct (save_loaded _ coll c6) as [e|coll'] eqn:Hs.
  - by apply on_error_frame.
  - apply save_loaded_inr in Hs as [_ Hs].
    destruct (save_update_frame userId _ _ _ Hu Ho6 Hc6 Hs) as (Hu' & Hoth & Ho').
    destruct (_ && _); [|done].
    destruct (_ ≫= _); [done|].
    destruct (on_error_frame userId env (cast_error (r_aiContext r)) coll' c6
                "Cannot read properties of null" Hu' Ho' Hc6) as [? ?].
    split; [done|]. congruence.
Qed.

Lemma findOne_active_of (userId : ObjectId) (cid : string) (coll : list t) (c : t) :
  findOne (active_of userId cid) coll = Some c →
  c ∈ coll ∧ conversationId c = cid ∧ user c = userId ∧ isActive c = true.
Proof.
  unfold findOne. intros H. apply find_some in H as [Hin Hp].
  unfold active_of in Hp. apply andb_true_iff in Hp as [Hp Ha].
  apply andb_true_iff in Hp as [Hi Hu].
  apply has_id_eq in Hi. apply String.eqb_eq in Hu.
  split_and!; try done. by apply list_elem_of_In.
Qed.

Lemma chatWithAgent_frame (userId : ObjectId) env appts (coll : list t) message cid f :
  unique_ids coll →
  unique_ids (chatWithAgent env appts coll userId message cid f).2
  ∧ others userId (chatWithAgent env appts coll userId message cid f).2
    = others userId coll.
Proof.
  intros Hu. unfold chatWithAgent.
  destruct (_ || _); [done|].
  destruct (if Js.truthy cid then cid else None) as [cid'|].
  - change (λ c : t, has_id cid' c && (user c =? userId)%string && isActive c)
      with (active_of userId cid').
    destruct (findOne _ coll) as [c|] eqn:Hf; [|done].
    apply findOne_active_of in Hf as (Hin & Hid & Hc & _).
    assert (Ho : owns userId (conversationId c) coll) by (exists c; done).
    destruct (isExpired (now env) c).
    + destruct (save coll false _) as [e|coll'] eqn:Hs; [done|]. simpl.
      destruct (save_update_frame userId coll coll'
                  (set_isActive (set_status c "cancelled") false) Hu Ho Hc Hs)
        as (? & ? & _). done.
    + by apply process_reply_frame.
  - destruct (save coll true _) as [e|coll1] eqn:Hs; [done|].
    destruct (save_insert_frame userId coll coll1
                (create (now env) userId (uuid env) "started" "initial_greeting")
                Hu eq_refl Hs) as (Hu1 & Hoth & Ho1).
    destruct (process_reply_frame userId env appts coll1
                (addMessage (now env) (rnd1 env)
                   (create (now env) userId (uuid env) "started" "initial_greeting")
                   "user" (Js.trim (default "" message)) "text" no_metadata)
                (callAIAgentService f) Hu1 Ho1 eq_refl) as [? ?].
    split; [done|]. congruence.
Qed.

Lemma deactivate_open_frame (userId : ObjectId) (coll : list t) :
  conversationId <$> deactivate_open userId coll = conversationId <$> coll
  ∧ others userId (deactivate_open userId coll) = others userId coll.
Proof.
  unfold deactivate_open, others. induction coll as [|d coll [IH1 IH2]]; [done|].
  rewrite !fmap_cons, !filter_cons, IH1, IH2. split.
  - f_equal. by destruct (_ && _).
  - destruct (String.eqb (user d) userId && isActive d && open_status d) eqn:E; [|done].
    apply andb_true_iff in E as [E _]. apply andb_true_iff in E as [E _].
    apply String.eqb_eq in E. simpl.
    destruct (decide (user d ≠ userId)); done.
Qed.

Lemma startNewConversation_frame (userId : ObjectId) env (coll : list t) :
  unique_ids coll →
  unique_ids (startNewConversation env coll userId).2
  ∧ others userId (startNewConversation env coll userId).2 = others userId coll.
Proof.
  intros Hu. unfold startNewConversation.
  destruct (deactivate_open_frame userId coll) as [Hids Hoth].
  assert (Hu0 : unique_ids (deactivate_open userId coll)).
  { unfold unique_ids. by rewrite Hids. }
  set (c0 := create (now env) userId (uuid env) "started" "initial_greeting").
  destruct (save (deactivate_open userId coll) true c0) as [e|coll1] eqn:Hs1; [done|].
  destruct (save_insert_frame userId _ coll1 c0 Hu0 eq_refl Hs1) as (Hu1 & Hoth1 & Ho1).
  match goal with |- context [save coll1 false ?x] => set (c1 := x) end.
  destruct (save coll1 false c1) as [e|coll2] eqn:Hs2; simpl.
  - split; [done|]. congruence.
  - destruct (save_update_frame userId coll1 coll2 c1 Hu1 Ho1 eq_refl Hs2) as (? & ? & _).
    split; [done|]. congruence.
Qed.

Lemma endConversation_frame (userId : ObjectId) env (coll : list t) cid :
  unique_ids coll →
  unique_ids (endConversation env coll userId cid).2
  ∧ others userId (endConversation env coll userId cid).2 = others userId coll.
Proof.
  intros Hu. unfold endConversation.
  change (λ c : t, has_id cid c && (user c =? userId)%string && isActive c)
    with (active_of userId cid).
  destruct (findOne _ coll) as [c|] eqn:Hf; [|done].
  apply findOne_active_of in Hf as (Hin & Hid & Hc & _).
  assert (Ho : owns userId (conversationId c) coll) by (exists c; done).
  match goal with |- context [save coll false ?x] => set (c2 := x) end.
  destruct (save coll false c2) as [e|coll'] eqn:Hs; [done|]. simpl.
  destruct (save_update_frame userId coll coll' c2 Hu Ho Hc Hs) as (? & ? & _). done.
Qed.

(** X1. Under the unique index on [conversationId], whatever a user does
    through the chat endpoints (send a message, start a conversation, end
    one) leaves the conversations of every other user exactly as they were,
    and keeps the ids unique. *)
Theorem conversations_isolated (coll : list t) (userId : ObjectId) :
  unique_ids coll →
  (∀ env appts message cid f,
     unique_ids (chatWithAgent env appts coll userId message cid f).2
     ∧ others userId (chatWithAgent env appts coll userId message cid f).2
       = others userId coll)
  ∧ (∀ env,
       unique_ids (startNewConversation env coll userId).2
       ∧ others userId (startNewConversation env coll userId).2 = others userId coll)
  ∧ (∀ env cid,
       unique_ids (endConversation env coll userId cid).2
       ∧ others userId (endConversation env coll userId cid).2 = others userId coll).
Proof.
  intros Hu. split_and!.
  - intros. by apply chatWithAgent_frame.
  - intros. by apply startNewConversation_frame.
  - intros. by apply endConversation_frame.
Qed.

Lemma conversations_isolated_witness :
  others "u2" (chatWithAgent Samples.env1 ∅ [Samples.conv_slot] "u2" (Some "hello") None
                 FetchThrows).2
  = [Samples.conv_slot].
Proof.
  apply (conversations_isolated [Samples.conv_slot] "u2").
  apply NoDup_singleton.
Defined.


Lemma process_reply_unfold env appts (coll : list t) (c : t) (r : AgentResponse) :
  process_reply env appts coll c r =
  match save_loaded (cast_error (r_aiContext r)) coll (replied env c r) with
  | inl _ => on_error env (cast_error (r_aiContext r)) coll (replied env c r)
               "Conversation validation failed"
  | inr coll' =>
      let data ap :=
        {| d_conversationId := conversationId (replied env c r);
           d_message := r_message r;
           d_status := status (replied env c r);
           d_currentStep := currentStep (replied env c r);
           d_suggestions := r_suggestions r;
           d_agentType := r_agentType r;
           d_confidence := r_confidence r;
           d_requiresInput := default true (r_requiresInput r);
           d_isComplete := String.eqb (status (replied env c r)) "completed";
           d_appointment := ap |} in
      if String.eqb (status (replied env c r)) "completed"
         && Js.truthy (appointmentId (replied env c r)) then
        match appointmentId (replied env c r) ≫= (λ i, appts !! i) with
        | Some ap => (Respond 200 (data (Some (Appointment._id ap))), coll')
        | None => on_error env (cast_error (r_aiContext r)) coll' (replied env c r)
                    "Cannot read properties of null"
        end
      else (Respond 200 (data None), coll')
  end.
Proof. reflexivity. Qed.

Lemma apply_extracted_core (c : t) (o : option AgentExtracted) :
  same_core c (apply_extracted c o).
Proof.
  unfold apply_extracted, same_core. destruct o as [x|]; [|by split_and!].
  destruct (x_symptoms x), (x_recommendation x) as [r|], (x_selectedSlot x);
    try destruct (Js.truthy (Some r)); destruct (Js.truthy (x_selectedDoctor x));
    by split_and!.
Qed.

Lemma apply_aiContext_core (c : t) (o : option AgentAiContext) :
  same_core c (apply_aiContext c o)
  ∧ extractedData (apply_aiContext c o) = extractedData c.
Proof. unfold apply_aiContext, same_core. destruct o; by split_and!. Qed.

(** What the reply does to the conversation, field by field. *)
Lemma replied_fields (env : Env) (c : t) (r : AgentResponse) :
  let c' := replied env c r in
  user c' = user c ∧ conversationId c' = conversationId c
  ∧ messages c' = (messages c ++
       [message_of (now env) (rnd2 env) "agent" (r_message r) "text"
          {| agentType := r_agentType r; confidence := r_confidence r;
             suggestions := r_suggestions r |}])%list
  ∧ sessionTimeout c' = now env + thirty_minutes
  ∧ errorLog c' = errorLog c
  ∧ (Js.truthy (r_appointmentId r) = true →
       status c' = "completed" ∧ currentStep c' = "completed"
       ∧ isActive c' = false ∧ completedAt c' = Some (now env)
       ∧ appointmentId c' = r_appointmentId r)
  ∧ (Js.truthy (r_appointmentId r) = false →
       isActive c' = isActive c ∧ appointmentId c' = appointmentId c
       ∧ status c' = (if Js.truthy (r_newStatus r) then default "" (r_newStatus r)
                      else status c))
  ∧ (r_extractedData r = None → extractedData c' = extractedData c).
Proof.
  intros c'. subst c'. unfold replied.
  set (c2 := addMessage _ _ c _ _ _ _).
  set (c3 := match r_newStatus r with Some _ => _ | None => _ end).
  assert (H3 : user c3 = user c ∧ conversationId c3 = conversationId c
               ∧ messages c3 = messages c2 ∧ sessionTimeout c3 = now env + thirty_minutes
               ∧ errorLog c3 = errorLog c ∧ isActive c3 = isActive c
               ∧ appointmentId c3 = appointmentId c
               ∧ extractedData c3 = extractedData c
               ∧ status c3 = (if Js.truthy (r_newStatus r) then default "" (r_newStatus r)
                              else status c)).
  { subst c3 c2. destruct (r_newStatus r) as [st|]; [|by split_and!]. simpl.
    destruct (negb (st =? "")%string); [|by split_and!].
    unfold updateStatus. destruct (r_newStep r) as [s|]; [|by split_and!].
    destruct (Js.truthy (Some s)); by split_and!. }
  destruct H3 as (U3 & I3 & M3 & T3 & E3 & A3 & P3 & X3 & S3).
  destruct (apply_extracted_core c3 (r_extractedData r))
    as (U4 & I4 & S4 & C4 & M4 & P4 & T4 & A4 & K4 & E4).
  set (c4 := apply_extracted c3 (r_extractedData r)) in *.
  destruct (apply_aiContext_core c4 (r_aiContext r))
    as ((U5 & I5 & S5 & C5 & M5 & P5 & T5 & A5 & K5 & E5) & X5).
  set (c5 := apply_aiContext c4 (r_aiContext r)) in *.
  assert (HX : r_extractedData r = None → extractedData c5 = extractedData c).
  { intros Hn. rewrite X5. subst c4. rewrite Hn. simpl. done. }
  assert (M2 : messages c2 = (messages c ++
       [message_of (now env) (rnd2 env) "agent" (r_message r) "text"
          {| agentType := r_agentType r; confidence := r_confidence r;
             suggestions := r_suggestions r |}])%list) by reflexivity.
  clearbody c5 c4 c3 c2.
  destruct (Js.truthy (r_appointmentId r)) eqn:Hap.
  - unfold complete. rewrite Hap. simpl.
    split_and!; try congruence; try done.
  - split_and!; try congruence; try done. intros _. split_and!; congruence.
Qed.


Lemma chatWithAgent_existing env appts (coll : list t) userId msg cid f c :
  Js.trim msg ≠ "" → cid ≠ "" →
  findOne (active_of userId cid) coll = Some c →
  chatWithAgent env appts coll userId (Some msg) (Some cid) f =
  if isExpired (now env) c then
    match save coll false (set_isActive (set_status c "cancelled") false) with
    | inr coll' =>
        (ApiError 410 "Conversation session expired. Please start a new conversation.", coll')
    | inl _ => (Throw "ValidationError", coll)
    end
  else
    process_reply env appts coll
      (addMessage (now env) (rnd1 env) c "user" (Js.trim msg) "text" no_metadata)
      (callAIAgentService f).
Proof.
  intros Hm Hc Hf. unfold chatWithAgent. rewrite (message_check_passes msg Hm).
  apply String.eqb_neq in Hc. simpl. rewrite Hc. simpl.
  change (λ c : t, has_id cid c && (user c =? userId)%string && isActive c)
    with (active_of userId cid).
  by rewrite Hf.
Qed.

Lemma chatWithAgent_blank env appts (coll : list t) userId msg cid f :
  Js.trim msg = "" →
  chatWithAgent env appts coll userId (Some msg) cid f
  = (ApiError 400 "Message is required", coll).
Proof.
  intros Hm. unfold chatWithAgent. simpl. rewrite Hm. simpl.
  by rewrite orb_true_r.
Qed.

Lemma on_error_no_response env castError (coll coll' : list t) (c : t) msg code
    (d : ChatData) :
  on_error env castError coll c msg ≠ (Respond code d, coll').
Proof. unfold on_error. by destruct (save_loaded castError coll _). Qed.

Lemma invalid_status_not_saved (coll : list t) (isNew : bool) (c : t) :
  status c ∉ status_enum → ∃ e, save coll isNew c = inl e.
Proof.
  intros H. destruct (save coll isNew c) as [e|coll'] eqn:Hs; [eauto|].
  apply conversation_save_inr in Hs as (Hv & _). by apply schema_valid_status in Hv.
Qed.

(** X2. A chat message on an existing conversation that is answered is
    answered with 200, and then the stored conversation has grown by
    exactly the trimmed user message and the agent's reply, in this order,
    and its session runs for thirty more minutes; the message was not
    blank and the session had not expired. *)
Theorem answered_message_recorded (env : Env) (appts : gmap ObjectId Appointment.t)
    (coll coll' : list t) (userId : ObjectId) (msg cid : string) (f : FetchResult)
    (c : t) (code : Z) (d : ChatData) :
  cid ≠ "" →
  findOne (active_of userId cid) coll = Some c →
  chatWithAgent env appts coll userId (Some msg) (Some cid) f = (Respond code d, coll') →
  let r := callAIAgentService f in
  code = 200 ∧ Js.trim msg ≠ "" ∧ isExpired (now env) c = false
  ∧ d_message d = r_message r
  ∧ ∃ c', c' ∈ coll' ∧ coll' = replace c' coll
          ∧ conversationId c' = cid ∧ user c' = userId
          ∧ d_status d = status c'
          ∧ messages c' =
              (messages c ++
                [message_of (now env) (rnd1 env) "user" (Js.trim msg) "text" no_metadata;
                 message_of (now env) (rnd2 env) "agent" (r_message r) "text"
                   {| agentType := r_agentType r; confidence := r_confidence r;
                      suggestions := r_suggestions r |}])%list
          ∧ sessionTimeout c' = now env + thirty_minutes
          ∧ isExpired (now env) c' = false.
Proof.
  intros Hc Hf Hrun r.
  destruct (decide (Js.trim msg = "")) as [Hb|Hm].
  { rewrite (chatWithAgent_blank _ _ _ _ _ _ _ Hb) in Hrun. done. }
  rewrite (chatWithAgent_existing _ _ _ _ _ _ _ _ Hm Hc Hf) in Hrun.
  destruct (isExpired (now env) c) eqn:Hexp.
  { destruct (save coll false _); done. }
  rewrite process_reply_unfold in Hrun. fold r in Hrun.
  set (c1 := addMessage (now env) (rnd1 env) c "user" (Js.trim msg) "text" no_metadata) in *.
  destruct (replied_fields env c1 r) as (U & I & M & T & _ & _ & _ & _).
  destruct (save_loaded _ coll (replied env c1 r)) as [e|coll1] eqn:Hs.
  { by apply on_error_no_response in Hrun. }
  apply save_loaded_inr in Hs as [_ Hs].
  assert (Hd : ∀ ap, (Respond 200
            {| d_conversationId := conversationId (replied env c1 r);
               d_message := r_message r;
               d_status := status (replied env c1 r);
               d_currentStep := currentStep (replied env c1 r);
               d_suggestions := r_suggestions r;
               d_agentType := r_agentType r;
               d_confidence := r_confidence r;
               d_requiresInput := default true (r_requiresInput r);
               d_isComplete := String.eqb (status (replied env c1 r)) "completed";
               d_appointment := ap |}, coll1) = (Respond code d, coll') →
          code = 200 ∧ d_message d = r_message r ∧ d_status d = status (replied env c1 r)
          ∧ coll' = coll1).
  { intros ap [= <- <- <-]. done. }
  assert (Hres : code = 200 ∧ d_message d = r_message r
                 ∧ d_status d = status (replied env c1 r) ∧ coll' = coll1).
  { simpl in Hrun. destruct (_ && _).
    - destruct (_ ≫= _).
      + by eapply Hd.
      + by apply on_error_no_response in Hrun.
    - by eapply Hd. }
  destruct Hres as (-> & Hdm & Hds & ->).
  apply conversation_save_inr in Hs as (_ & Hex & ->). simpl in Hex.
  apply findOne_active_of in Hf as (Hin & Hid & Hu & _).
  split_and!; try done.
  exists (replied env c1 r). split_and!; try done.
  - by apply replace_elem_of.
  - by rewrite I.
  - by rewrite U.
  - rewrite M. subst c1. simpl. by rewrite <- app_assoc.
  - unfold isExpired. rewrite T. apply Z.ltb_ge. unfold thirty_minutes. lia.
Qed.


Lemma answered_message_recorded_witness :
  Js.trim "hello" ≠ "" ∧ isExpired (now Samples.env1) Samples.conv_started = false
  ∧ ∃ c', List.length (messages c') = 2%nat
          ∧ sessionTimeout c' = now Samples.env1 + thirty_minutes.
Proof.
  pose proof (answered_message_recorded Samples.env1 ∅ [Samples.conv_started] _
                "u1" "hello" "c1" FetchThrows Samples.conv_started 200 _
                ltac:(discriminate) eq_refl eq_refl) as H.
  destruct H as (_ & H1 & H2 & _ & c' & _ & _ & _ & _ & _ & Hm & Ht & _).
  split; [exact H1|]. split; [exact H2|].
  exists c'. split; [|exact Ht]. rewrite Hm. reflexivity.
Defined.


Lemma chatWithAgent_unknown env appts (coll : list t) userId msg cid f :
  Js.trim msg ≠ "" → cid ≠ "" →
  findOne (active_of userId cid) coll = None →
  chatWithAgent env appts coll userId (Some msg) (Some cid) f
  = (ApiError 404 "Conversation not found or expired", coll).
Proof.
  intros Hm Hc Hf. unfold chatWithAgent. rewrite (message_check_passes msg Hm).
  apply String.eqb_neq in Hc. simpl. rewrite Hc. simpl.
  change (λ c : t, has_id cid c && (user c =? userId)%string && isActive c)
    with (active_of userId cid).
  by rewrite Hf.
Qed.

Lemma replace_elem_of_inv (c' x : t) (coll : list t) :
  x ∈ replace c' coll → x = c' ∨ x ∈ coll.
Proof.
  induction coll as [|d coll IH]; simpl; [by right|].
  destruct (has_id (conversationId c') d).
  - intros [->|H]%elem_of_cons; [by left|]. right. apply elem_of_cons. by right.
  - intros [->|H]%elem_of_cons.
    + right. apply elem_of_cons. by left.
    + destruct (IH H); [by left|]. right. apply elem_of_cons. by right.
Qed.

(** Once the stored conversation under an id is inactive, the lookup of
    the chat controller finds nothing under that id. *)
Lemma find_replaced_inactive (userId : ObjectId) (cid : string) (c' : t) (coll : list t) :
  unique_ids coll → cid ∈ conversationId <$> coll →
  conversationId c' = cid → isActive c' = false →
  findOne (active_of userId cid) (replace c' coll) = None.
Proof.
  intros Hu Hin Hid Hact.
  destruct (findOne (active_of userId cid) (replace c' coll)) as [x|] eqn:Hf; [|done].
  exfalso. apply findOne_active_of in Hf as (Hx & Hxid & _ & Hxa).
  assert (Hu' : unique_ids (replace c' coll)).
  { unfold unique_ids. by rewrite replace_ids. }
  assert (Hc' : c' ∈ replace c' coll).
  { apply replace_elem_of. apply existsb_has_id. by rewrite Hid. }
  assert (x = c') by (apply (unique_ids_same _ x c' Hu' Hx Hc'); congruence).
  congruence.
Qed.

Lemma cancelled_valid (c : t) :
  schema_valid c = true →
  schema_valid (set_isActive (set_status c "cancelled") false) = true.
Proof.
  intros H. apply schema_valid_iff in H as (H1 & H2 & H3 & H4 & H5).
  apply schema_valid_iff. by split_and!.
Qed.

Lemma save_loaded_invalid_status (castError : bool) (coll : list t) (c : t) :
  status c ∉ status_enum → ∃ e, save_loaded castError coll c = inl e.
Proof.
  intros H. unfold save_loaded. destruct castError; [eauto|].
  by apply invalid_status_not_saved.
Qed.

(** A reply that leaves the document at a status outside the enumeration
    is saved neither by the [try] block nor by the [catch] block. *)
Lemma process_reply_invalid_status env appts (coll : list t) (c : t) (r : AgentResponse) :
  status (replied env c r) ∉ status_enum →
  process_reply env appts coll c r = (Throw "ValidationError", coll).
Proof.
  intros Hbad. rewrite process_reply_unfold.
  destruct (save_loaded_invalid_status (cast_error (r_aiContext r)) coll _ Hbad) as [e ->].
  unfold on_error.
  destruct (save_loaded_invalid_status (cast_error (r_aiContext r)) coll
              (set_errorLog (replied env c r)
                 (errorLog (replied env c r) ++
                  [{| e_timestamp := now env;
                      e_error := "Conversation validation failed";
                      e_step := currentStep (replied env c r);
                      e_resolved := false |}])) Hbad) as [e' ->].
  done.
Qed.

(** A reply whose [aiContext] has no [userPreferences] of its own leaves a
    cast error on the document: neither save goes through. *)
Lemma process_reply_cast_error env appts (coll : list t) (c : t) (r : AgentResponse) :
  cast_error (r_aiContext r) = true →
  process_reply env appts coll c r = (Throw "ValidationError", coll).
Proof. intros H. rewrite process_reply_unfold, H. reflexivity. Qed.

(** A request without conversation id, under a fresh uuid: the new
    conversation is stored before the agent is called. *)
Lemma chatWithAgent_new env appts (coll : list t) userId msg cid f :
  Js.trim msg ≠ "" → Js.truthy cid = false →
  uuid env ≠ "" → existsb (has_id (uuid env)) coll = false →
  let c := create (now env) userId (uuid env) "started" "initial_greeting" in
  chatWithAgent env appts coll userId (Some msg) cid f =
  process_reply env appts (coll ++ [c])
    (addMessage (now env) (rnd1 env) c "user" (Js.trim msg) "text" no_metadata)
    (callAIAgentService f).
Proof.
  intros Hm Hc Hu Hfresh c. unfold chatWithAgent.
  rewrite (message_check_passes msg Hm), Hc.
  fold c.
  assert (Hs : save coll true c = inr (coll ++ [c])%list).
  { apply conversation_save_inr. split_and!; [by apply create_valid|done|done]. }
  by rewrite Hs.
Qed.

(** X3. When the agent's reply names a status outside the schema's
    enumeration (and reports no appointment), the request fails with a
    validation error, and neither the status nor the user's message is
    stored.  A conversation that was continued is left as it was, and so
    is the whole collection.  For a request without conversation id, the
    conversation created for it was stored before the agent was called:
    the collection has gained exactly this conversation, at 'started' and
    without a message. *)
Theorem unknown_status_rejected (env : Env) (appts : gmap ObjectId Appointment.t)
    (coll : list t) (userId : ObjectId) (msg : string) (f : FetchResult)
    (st : string) :
  Js.trim msg ≠ "" →
  r_newStatus (callAIAgentService f) = Some st → st ≠ "" → st ∉ status_enum →
  Js.truthy (r_appointmentId (callAIAgentService f)) = false →
  (∀ cid c, cid ≠ "" → findOne (active_of userId cid) coll = Some c →
            isExpired (now env) c = false →
            chatWithAgent env appts coll userId (Some msg) (Some cid) f
            = (Throw "ValidationError", coll))
  ∧ (∀ cid, Js.truthy cid = false →
            uuid env ≠ "" → existsb (has_id (uuid env)) coll = false →
            chatWithAgent env appts coll userId (Some msg) cid f
            = (Throw "ValidationError",
               (coll ++ [create (now env) userId (uuid env) "started"
                           "initial_greeting"])%list)).
Proof.
  intros Hm Hst Hne Hbad Hap.
  set (r := callAIAgentService f) in *.
  assert (Hrep : ∀ c1, status (replied env c1 r) ∉ status_enum).
  { intros c1.
    destruct (replied_fields env c1 r) as (_ & _ & _ & _ & _ & _ & Hno & _).
    destruct (Hno Hap) as (_ & _ & Hs). rewrite Hst in Hs. simpl in Hs.
    apply String.eqb_neq in Hne. rewrite Hne in Hs. simpl in Hs. by rewrite Hs. }
  split.
  - intros cid c Hc Hf Hexp.
    rewrite (chatWithAgent_existing _ _ _ _ _ _ _ _ Hm Hc Hf), Hexp.
    by apply process_reply_invalid_status.
  - intros cid Hc Hu Hfresh.
    rewrite (chatWithAgent_new _ _ _ _ _ _ _ Hm Hc Hu Hfresh).
    by apply process_reply_invalid_status.
Qed.

Lemma unknown_status_rejected_witness :
  let f := FetchResponse 200 (Some MoreSamples.reply_unknown_status) in
  chatWithAgent Samples.env1 ∅ [Samples.conv_started] "u1" (Some "hello") (Some "c1") f
  = (Throw "ValidationError", [Samples.conv_started])
  ∧ chatWithAgent Samples.env1 ∅ [Samples.conv_started] "u1" (Some "hello") None f
    = (Throw "ValidationError",
       [Samples.conv_started;
        create 1000 "u1" "c2" "started" "initial_greeting"]).
Proof.
  intros f.
  assert (Hbad : "finished" ∉ status_enum).
  { intros H. unfold status_enum in H.
    repeat (apply elem_of_cons in H as [H|H]; [discriminate|]).
    by apply elem_of_nil in H. }
  destruct (unknown_status_rejected Samples.env1 ∅ [Samples.conv_started] "u1" "hello"
              f "finished" ltac:(vm_compute; discriminate) eq_refl
              ltac:(discriminate) Hbad eq_refl) as [H1 H2].
  split.
  - apply (H1 "c1" Samples.conv_started); [discriminate|reflexivity|reflexivity].
  - apply (H2 None); [reflexivity|discriminate|reflexivity].
Defined.

Lemma is_object_id_nonempty (s : string) : is_object_id s = true → s ≠ "".
Proof. by intros H ->. Qed.

Lemma replied_valid (env : Env) (c : t) (msg : string) (r : AgentResponse) (aid : string) :
  schema_valid c = true → Js.trim msg ≠ "" → Js.trim (r_message r) ≠ "" →
  r_appointmentId r = Some aid → aid ≠ "" → r_extractedData r = None →
  let c6 := replied env
              (addMessage (now env) (rnd1 env) c "user" (Js.trim msg) "text" no_metadata) r in
  schema_valid c6 = true
  ∧ ∀ l, schema_valid (set_errorLog c6 l) = true.
Proof.
  intros Hv Hm Hr Hap Haid Hx c6.
  set (c1 := addMessage (now env) (rnd1 env) c "user" (Js.trim msg) "text" no_metadata) in *.
  assert (Ht : Js.truthy (r_appointmentId r) = true).
  { rewrite Hap. simpl. apply String.eqb_neq in Haid. by rewrite Haid. }
  destruct (replied_fields env c1 r) as (_ & I & M & _ & _ & Hyes & _ & HX).
  destruct (Hyes Ht) as (S6 & C6 & _). specialize (HX Hx).
  apply schema_valid_iff in Hv as (H1 & H2 & H3 & H4 & H5).
  assert (Hmsgs : forallb message_valid (messages c6) = true).
  { subst c6. rewrite M. subst c1. simpl. rewrite !forallb_app, H4. simpl.
    unfold message_valid. simpl. rewrite !messageId_nonempty, !trim_idem.
    apply String.eqb_neq in Hm, Hr. by rewrite Hm, Hr. }
  unfold c6 in *.
  split; [|intros l]; apply schema_valid_iff; simpl; rewrite I, S6, C6, HX;
    by split_and!.
Qed.

(** X4. When the agent's reply carries the id of an appointment (24
    hexadecimal digits) that is not in the appointment collection, and no
    [aiContext] and no [extractedData], the request is answered 500
    although the conversation has already been stored as completed and
    inactive with that appointment id; the failure is added to its error
    log. *)
Theorem booked_reply_without_appointment (env : Env)
    (appts : gmap ObjectId Appointment.t) (coll : list t) (userId : ObjectId)
    (msg cid : string) (f : FetchResult) (c : t) (aid : string) :
  Js.trim msg ≠ "" → cid ≠ "" →
  findOne (active_of userId cid) coll = Some c →
  isExpired (now env) c = false → schema_valid c = true →
  Js.trim (r_message (callAIAgentService f)) ≠ "" →
  r_extractedData (callAIAgentService f) = None →
  r_aiContext (callAIAgentService f) = None →
  r_appointmentId (callAIAgentService f) = Some aid → is_object_id aid = true →
  appts !! aid = None →
  ∃ text coll' c',
    chatWithAgent env appts coll userId (Some msg) (Some cid) f
    = (ApiError 500 text, coll')
    ∧ c' ∈ coll' ∧ conversationId c' = cid
    ∧ status c' = "completed" ∧ isActive c' = false
    ∧ appointmentId c' = Some aid
    ∧ List.length (errorLog c') = S (List.length (errorLog c)).
Proof.
  intros Hm Hc Hf Hexp Hv Hr Hx Hctx Hap Hoid Hmiss.
  pose proof (is_object_id_nonempty aid Hoid) as Haid.
  rewrite (chatWithAgent_existing _ _ _ _ _ _ _ _ Hm Hc Hf), Hexp, process_reply_unfold.
  set (r := callAIAgentService f) in *.
  rewrite Hctx. cbn [cast_error]. unfold save_loaded at 1.
  destruct (replied_valid env c msg r aid Hv Hm Hr Hap Haid Hx) as [Hv6 Hv6'].
  set (c1 := addMessage (now env) (rnd1 env) c "user" (Js.trim msg) "text" no_metadata) in *.
  assert (Ht : Js.truthy (r_appointmentId r) = true).
  { rewrite Hap. simpl. apply String.eqb_neq in Haid. by rewrite Haid. }
  destruct (replied_fields env c1 r) as (_ & I & _ & _ & E & Hyes & _ & _).
  destruct (Hyes Ht) as (S6 & _ & A6 & _ & P6).
  set (c6 := replied env c1 r) in *.
  apply findOne_active_of in Hf as (Hin & Hid & _ & _).
  assert (Hex : existsb (has_id (conversationId c6)) coll = true).
  { apply existsb_has_id. rewrite I. simpl. apply list_elem_of_fmap. eauto. }
  assert (Hs : save coll false c6 = inr (replace c6 coll)).
  { apply conversation_save_inr. by split_and!. }
  rewrite Hs. simpl. rewrite S6, P6, Hap. simpl.
  apply String.eqb_neq in Haid. rewrite Haid. simpl. rewrite Hmiss.
  unfold on_error, save_loaded.
  set (c7 := set_errorLog c6 _).
  assert (Hs7 : save (replace c6 coll) false c7 = inr (replace c7 (replace c6 coll))).
  { apply conversation_save_inr. split_and!; [apply Hv6'| |done].
    simpl. apply existsb_has_id. rewrite replace_ids. by apply existsb_has_id. }
  rewrite Hs7. eexists _, (replace c7 (replace c6 coll)), c7. split_and!.
  - done.
  - apply replace_elem_of. simpl. apply existsb_has_id. rewrite replace_ids.
    by apply existsb_has_id.
  - simpl. by rewrite I.
  - done.
  - done.
  - simpl. by rewrite P6.
  - unfold c7. simpl. rewrite E, length_app. simpl. lia.
Qed.

Lemma booked_reply_without_appointment_witness :
  ∃ text coll' c',
    chatWithAgent Samples.env1 ∅ [Samples.conv_started] "u1" (Some "hello") (Some "c1")
      (FetchResponse 200 (Some MoreSamples.reply_booked))
    = (ApiError 500 text, coll')
    ∧ c' ∈ coll' ∧ status c' = "completed"
    ∧ appointmentId c' = Some "64b7f0c2a1d3e4f5a6b7c8d9".
Proof.
  destruct (booked_reply_without_appointment Samples.env1 ∅ [Samples.conv_started] "u1"
              "hello" "c1" (FetchResponse 200 (Some MoreSamples.reply_booked))
              Samples.conv_started "64b7f0c2a1d3e4f5a6b7c8d9")
    as (text & coll' & c' & H & Hin & _ & Hs & _ & Hap & _);
    try reflexivity; try discriminate; try (vm_compute; discriminate).
  exists text, coll', c'. split; [exact H|]. split; [exact Hin|]. split; [exact Hs|exact Hap].
Defined.

(** A reply whose [aiContext] has no [userPreferences] of its own is not
    stored at all, whatever else it carries: the request ends in the
    validation error of the second save. *)
Example aiContext_reply_not_stored :
  chatWithAgent Samples.env1 ∅ [Samples.conv_started] "u1" (Some "hello") (Some "c1")
    (FetchResponse 200 (Some MoreSamples.reply_context))
  = (Throw "ValidationError", [Samples.conv_started]).
Proof. vm_compute. reflexivity. Qed.

(** X5. A message on a conversation whose session has run out is answered
    410 without consulting the agent; the conversation is stored as
    cancelled and inactive, and from then on every message under its id is
    answered 404. *)
Theorem expired_session_closed (env : Env) (appts : gmap ObjectId Appointment.t)
    (coll : list t) (userId : ObjectId) (msg cid : string) (f : FetchResult) (c : t) :
  unique_ids coll →
  Js.trim msg ≠ "" → cid ≠ "" →
  findOne (active_of userId cid) coll = Some c →
  isExpired (now env) c = true → schema_valid c = true →
  ∃ coll' c',
    chatWithAgent env appts coll userId (Some msg) (Some cid) f
    = (ApiError 410 "Conversation session expired. Please start a new conversation.", coll')
    ∧ c' ∈ coll' ∧ conversationId c' = cid
    ∧ status c' = "cancelled" ∧ isActive c' = false ∧ messages c' = messages c
    ∧ ∀ env' appts' msg' f', Js.trim msg' ≠ "" →
        chatWithAgent env' appts' coll' userId (Some msg') (Some cid) f'
        = (ApiError 404 "Conversation not found or expired", coll').
Proof.
  intros Hu Hm Hc Hf Hexp Hv.
  rewrite (chatWithAgent_existing _ _ _ _ _ _ _ _ Hm Hc Hf), Hexp.
  apply findOne_active_of in Hf as (Hin & Hid & _ & _).
  set (c' := set_isActive (set_status c "cancelled") false).
  assert (Hids : cid ∈ conversationId <$> coll).
  { apply list_elem_of_fmap. eauto. }
  assert (Hs : save coll false c' = inr (replace c' coll)).
  { apply conversation_save_inr. split_and!; [by apply cancelled_valid| |done].
    simpl. apply existsb_has_id. by rewrite Hid. }
  rewrite Hs. exists (replace c' coll), c'. split_and!; try done.
  - apply replace_elem_of. simpl. apply existsb_has_id. by rewrite Hid.
  - intros env' appts' msg' f' Hm'. apply chatWithAgent_unknown; try done.
    by apply find_replaced_inactive.
Qed.

Lemma expired_session_closed_witness :
  ∃ coll',
    chatWithAgent MoreSamples.env_late ∅ [Samples.conv_started] "u1" (Some "hello")
      (Some "c1") FetchThrows
    = (ApiError 410 "Conversation session expired. Please start a new conversation.", coll').
Proof.
  destruct (expired_session_closed MoreSamples.env_late ∅ [Samples.conv_started] "u1"
              "hello" "c1" FetchThrows Samples.conv_started)
    as (coll' & c' & H & _);
    try reflexivity; try discriminate; try (vm_compute; discriminate).
  - apply NoDup_singleton.
  - exists coll'. exact H.
Defined.

(** X6. Once a conversation has been ended, ending it again and sending a
    message under its id are both answered 404 and change nothing. *)
Theorem ended_conversation_closed (env : Env) (coll coll' : list t) (userId : ObjectId)
    (cid : string) (code : Z) (d : ChatData) :
  unique_ids coll →
  endConversation env coll userId cid = (Respond code d, coll') →
  (∀ env', endConversation env' coll' userId cid
           = (ApiError 404 "Active conversation not found", coll'))
  ∧ (∀ env' appts msg f, cid ≠ "" → Js.trim msg ≠ "" →
       chatWithAgent env' appts coll' userId (Some msg) (Some cid) f
       = (ApiError 404 "Conversation not found or expired", coll')).
Proof.
  intros Hu. unfold endConversation at 1.
  change (λ c : t, has_id cid c && (user c =? userId)%string && isActive c)
    with (active_of userId cid).
  destruct (findOne _ coll) as [c|] eqn:Hf; [|done].
  apply findOne_active_of in Hf as (Hin & Hid & _ & _).
  match goal with |- context [save coll false ?x] => set (c2 := x) end.
  destruct (save coll false c2) as [e|coll''] eqn:Hs; [done|].
  intros [= _ _ <-]. apply conversation_save_inr in Hs as (_ & _ & ->).
  assert (Hnone : findOne (active_of userId cid) (replace c2 coll) = None).
  { apply find_replaced_inactive; try done. apply list_elem_of_fmap. eauto. }
  split.
  - intros env'. unfold endConversation.
    change (λ c : t, has_id cid c && (user c =? userId)%string && isActive c)
      with (active_of userId cid).
    by rewrite Hnone.
  - intros env' appts msg f Hc Hm. by apply chatWithAgent_unknown.
Qed.

Lemma ended_conversation_closed_witness :
  let coll' := (endConversation Samples.env1 [Samples.conv_started] "u1" "c1").2 in
  (∀ env', endConversation env' coll' "u1" "c1"
           = (ApiError 404 "Active conversation not found", coll'))
  ∧ (∀ env' appts msg f, "c1" ≠ "" → Js.trim msg ≠ "" →
       chatWithAgent env' appts coll' "u1" (Some msg) (Some "c1") f
       = (ApiError 404 "Conversation not found or expired", coll')).
Proof.
  cbv zeta.
  eapply (ended_conversation_closed Samples.env1 [Samples.conv_started] _ "u1" "c1"
            200 _ (NoDup_singleton _) eq_refl).
Defined.


(** X7. [cleanupExpired] closes exactly the conversations that are active,
    of an open status and past their session timeout: afterwards no active
    conversation of an open status is expired, every other conversation is
    stored as before, a closed one keeps everything but its status and
    activity, and running the cleanup again at the same time changes
    nothing. *)
Theorem cleanupExpired_spec (now : Z) (coll : list t) :
  cleanupExpired now (cleanupExpired now coll) = cleanupExpired now coll
  ∧ conversationId <$> cleanupExpired now coll = conversationId <$> coll
  ∧ Forall (λ c, isActive c = true → open_status c = true → isExpired now c = false)
           (cleanupExpired now coll)
  ∧ (∀ c, c ∈ coll →
       (isExpired now c = false ∨ open_status c = false ∨ isActive c = false) →
       c ∈ cleanupExpired now coll)
  ∧ (∀ c', c' ∈ cleanupExpired now coll →
       c' ∈ coll
       ∨ ∃ c, c ∈ coll ∧ isExpired now c = true ∧ open_status c = true
              ∧ isActive c = true
              ∧ c' = set_isActive (set_status c "cancelled") false).
Proof.
  unfold cleanupExpired, isExpired. split_and!.
  - rewrite <- list_fmap_compose. apply list_fmap_ext. intros _ c _. simpl.
    destruct ((sessionTimeout c <? now) && open_status c && isActive c) eqn:E; simpl.
    + by rewrite andb_false_r.
    + by rewrite E.
  - rewrite <- list_fmap_compose. apply list_fmap_ext. intros _ c _. simpl.
    by destruct (_ && _).
  - apply Forall_fmap, Forall_forall. intros c _. simpl.
    destruct ((sessionTimeout c <? now) && open_status c && isActive c) eqn:E; simpl.
    + done.
    + intros Ha Ho. rewrite Ha, Ho, !andb_true_r in E. done.
  - intros c Hc Hkeep. apply list_elem_of_fmap. exists c. split; [|done].
    destruct ((sessionTimeout c <? now) && open_status c && isActive c) eqn:E; [|done].
    apply andb_true_iff in E as [E Ha]. apply andb_true_iff in E as [Ht Ho].
    destruct Hkeep as [?|[?|?]]; congruence.
  - intros c' (c & -> & Hc)%list_elem_of_fmap.
    destruct ((sessionTimeout c <? now) && open_status c && isActive c) eqn:E.
    + right. apply andb_true_iff in E as [E Ha]. apply andb_true_iff in E as [Ht Ho].
      exists c. by split_and!.
    + by left.
Qed.


End CollectionProps.

(** ** The user collection under sign-up and verification *)
Section UsersProps.
Import User UserController Users.

Lemma signup_inv valid env (users users' : gmap ObjectId t) b code i :
  signup valid env users b = (Respond code i, users') →
  ∃ u, i = newId env ∧ code = 201 ∧ users !! newId env = None
       ∧ users' = <[newId env := u]> users
       ∧ _id u = newId env
       ∧ email u = Js.trim (Js.toLowerCase (default "" (b_email b)))
       ∧ phone u = Js.trim (default "" (b_phone b))
       ∧ isActive u = true ∧ isEmailVerified u = false
       ∧ emailOTP u = Some (otp env)
       ∧ emailOTPExpiry u = Some (now env + ten_minutes)
       ∧ valid u = true ∧ unique_ok users u = true.
Proof.
  unfold signup.
  destruct (negb _); [done|].
  destruct (findByEmailOrPhone users _); [done|].
  destruct (findByEmailOrPhone users _); [done|].
  destruct (negb _); [done|].
  match goal with |- context [valid ?x] => set (u := x) end.
  destruct (valid u) eqn:Hv; [|done]. simpl.
  destruct (unique_ok users u) eqn:Hq; [|done]. simpl.
  case_bool_decide as Hid; [done|].
  intros [= <- <- <-]. exists u. split_and!; try done.
  destruct (users !! newId env) eqn:E; [|done]. destruct Hid. eauto.
Qed.

(** X8. The one-time password that [signup] stores verifies the new
    account: with it [verifyEmail] answers 200 exactly as long as less than
    ten minutes have passed since the sign-up, and with any other
    password it answers 400. *)
Theorem signup_then_verify (valid : t → bool) (env env' : Env)
    (users users' : gmap ObjectId t) (b : SignupBody) (code : Z) (i : ObjectId) :
  signup valid env users b = (Respond code i, users') →
  otp env ≠ "" →
  (status_of (verifyEmail env' users' i (Some (otp env))).1 = Some 200
   ↔ now env' < now env + 10 * 60 * 1000)
  ∧ (∀ o, o ≠ otp env →
       verifyEmail env' users' i (Some o)
       = (ApiError 400 (if String.eqb o "" then "Email OTP is required"
                        else "Invalid or expired email OTP"), users')).
Proof.
  intros Hs Hotp.
  apply signup_inv in Hs as (u & -> & _ & _ & -> & _ & _ & _ & _ & _ & Ho & He & _).
  split.
  - rewrite verifyEmail_ok_iff. rewrite lookup_insert_eq. split.
    + intros (u' & o & e & [= <-] & [= <-] & _ & _ & He' & Hlt).
      rewrite He in He'. injection He' as <-. exact Hlt.
    + intros Hlt. exists u, (otp env), (now env + ten_minutes). by split_and!.
  - intros o Hne. unfold verifyEmail, findById. simpl.
    destruct (String.eqb_spec o ""); simpl; [done|].
    rewrite lookup_insert_eq. simpl. rewrite Ho.
    case_bool_decide as E; [congruence|]. done.
Qed.

Lemma signup_then_verify_witness :
  status_of (verifyEmail Samples.uenv_ok
               (signup (λ _, true) Samples.uenv_ok Samples.users1 body1).2 "u2"
               (Some "654321")).1 = Some 200.
Proof.
  apply (signup_then_verify (λ _, true) Samples.uenv_ok Samples.uenv_ok Samples.users1
           _ body1 201 "u2" eq_refl).
  - discriminate.
  - reflexivity.
Defined.

(** X9. [resendEmailOTP] replaces the stored one-time password whether or
    not the mail goes out: afterwards the new password verifies for ten
    minutes, and every other password, the previous one included, is
    refused. *)
Theorem resend_replaces_otp (env env' : Env) (users : gmap ObjectId t)
    (uid : ObjectId) (u : t) :
  users !! uid = Some u → _id u = uid → isEmailVerified u = false →
  otp env ≠ "" →
  let r := resendEmailOTP env users uid in
  status_of r.1 = Some (if mailOk env then 200 else 500)
  ∧ (status_of (verifyEmail env' r.2 uid (Some (otp env))).1 = Some 200
     ↔ now env' < now env + 10 * 60 * 1000)
  ∧ (∀ o, o ≠ otp env → status_of (verifyEmail env' r.2 uid (Some o)).1 = Some 400).
Proof.
  intros Hu Hid Hv Hotp r.
  assert (Hr2 : r.2 = <[uid := set_emailOTP u (Some (otp env)) (Some (now env + ten_minutes))]> users).
  { subst r. unfold resendEmailOTP, findById. simpl. rewrite Hu, Hv.
    unfold save. simpl. rewrite Hid. by destruct (mailOk env). }
  split_and!.
  - subst r. unfold resendEmailOTP, findById. simpl. rewrite Hu, Hv.
    by destruct (mailOk env).
  - rewrite Hr2, verifyEmail_ok_iff, lookup_insert_eq. split.
    + intros (u' & o & e & [= <-] & [= <-] & _ & _ & [= <-] & Hlt). exact Hlt.
    + intros Hlt. eexists _, (otp env), (now env + ten_minutes). by split_and!.
  - intros o Hne. rewrite Hr2.
    destruct (verifyEmail_outcomes env' (<[uid:=set_emailOTP u (Some (otp env))
                (Some (now env + ten_minutes))]> users) uid (Some o))
      as [(u' & Hu' & Hr)|(msg & ->)]; [|done].
    exfalso.
    assert (Hok : status_of (verifyEmail env' (<[uid:=set_emailOTP u (Some (otp env))
                (Some (now env + ten_minutes))]> users) uid (Some o)).1 = Some 200)
      by (by rewrite Hr).
    apply verifyEmail_ok_iff in Hok as (u'' & o' & e & Hl & [= <-] & _ & Ho & _).
    rewrite lookup_insert_eq in Hl. injection Hl as <-. simpl in Ho. congruence.
Qed.

Lemma resend_replaces_otp_witness :
  let r := resendEmailOTP Samples.uenv_mail_down Samples.users1 "u1" in
  status_of r.1 = Some (if mailOk Samples.uenv_mail_down then 200 else 500)
  ∧ (status_of (verifyEmail Samples.uenv_ok r.2 "u1"
                  (Some (otp Samples.uenv_mail_down))).1 = Some 200
     ↔ now Samples.uenv_ok < now Samples.uenv_mail_down + 10 * 60 * 1000)
  ∧ (∀ o, o ≠ otp Samples.uenv_mail_down →
          status_of (verifyEmail Samples.uenv_ok r.2 "u1" (Some o)).1 = Some 400).
Proof.
  apply (resend_replaces_otp Samples.uenv_mail_down Samples.uenv_ok Samples.users1 "u1"
           Samples.user1); try reflexivity. discriminate.
Defined.

(** X10. A one-time password verifies once: after [verifyEmail] has
    answered 200, it answers 400 to every further attempt, and
    [resendEmailOTP] answers 400 as well. *)
Theorem verify_once (env env' : Env) (users : gmap ObjectId t) (uid : ObjectId)
    (otp_ : option string) (u : t) :
  users !! uid = Some u → _id u = uid →
  status_of (verifyEmail env users uid otp_).1 = Some 200 →
  let users' := (verifyEmail env users uid otp_).2 in
  (∀ o, status_of (verifyEmail env' users' uid o).1 = Some 400
        ∧ (verifyEmail env' users' uid o).2 = users')
  ∧ resendEmailOTP env' users' uid = (ApiError 400 "Email is already verified", users').
Proof.
  intros Hu Hid Hok users'.
  assert (Hu' : users' = <[uid := set_emailOTP (set_isEmailVerified u true) None None]> users).
  { subst users'.
    destruct (verifyEmail_outcomes env users uid otp_) as [(u0 & Hu0 & ->)|(msg & Hr)].
    - rewrite Hu in Hu0. injection Hu0 as <-. unfold save. simpl. by rewrite Hid.
    - rewrite Hr in Hok. done. }
  rewrite Hu'. split.
  - intros o.
    destruct (verifyEmail_outcomes env' (<[uid := set_emailOTP (set_isEmailVerified u true)
                None None]> users) uid o) as [(u0 & Hu0 & Hr)|(msg & ->)]; [|done].
    exfalso.
    assert (Hok' : status_of (verifyEmail env' (<[uid := set_emailOTP
                (set_isEmailVerified u true) None None]> users) uid o).1 = Some 200)
      by (by rewrite Hr).
    apply verifyEmail_ok_iff in Hok' as (u'' & o' & e & Hl & _ & _ & Ho & _).
    rewrite lookup_insert_eq in Hl. injection Hl as <-. done.
  - unfold resendEmailOTP, findById. simpl. by rewrite lookup_insert_eq.
Qed.

Lemma verify_once_witness :
  resendEmailOTP Samples.uenv_ok
    (verifyEmail Samples.uenv_ok Samples.users1 "u1" (Some "123456")).2 "u1"
  = (ApiError 400 "Email is already verified",
     (verifyEmail Samples.uenv_ok Samples.users1 "u1" (Some "123456")).2).
Proof.
  apply (verify_once Samples.uenv_ok Samples.uenv_ok Samples.users1 "u1" (Some "123456")
           Samples.user1); reflexivity.
Defined.

Lemma signup_unchanged_or_created valid env (users : gmap ObjectId t) b :
  (signup valid env users b).2 = users
  ∨ ∃ code i, signup valid env users b = (Respond code i, (signup valid env users b).2).
Proof.
  unfold signup.
  destruct (negb _); [by left|].
  destruct (findByEmailOrPhone users _); [by left|].
  destruct (findByEmailOrPhone users _); [by left|].
  destruct (negb _); [by left|].
  destruct (negb (valid _)); [by left|].
  destruct (_ || _); [by left|]. right. eauto.
Qed.

(** X11. [signup] keeps the user collection well formed: every document
    stays under its own [_id], and no two documents share an email or a
    phone number. *)
Theorem signup_keeps_contacts_distinct (valid : t → bool) (env : Env)
    (users : gmap ObjectId t) (b : SignupBody) :
  keyed users → distinct_contacts users →
  keyed (signup valid env users b).2
  ∧ distinct_contacts (signup valid env users b).2.
Proof.
  intros Hk Hd.
  destruct (signup_unchanged_or_created valid env users b) as [->|(code & i & Hs)]; [done|].
  apply signup_inv in Hs as (u & _ & _ & Hfresh & -> & Hid & _ & _ & _ & _ & _ & _ & _ & Hq).
  pose proof (proj1 (unique_ok_spec users u) Hq) as Hu.
  split.
  - intros j v [[<- <-]|[_ Hv]]%lookup_insert_Some; [done|]. by apply Hk.
  - intros j k v w Hv Hw Hjk.
    apply lookup_insert_Some in Hv as [[<- <-]|[Hj Hv]];
      apply lookup_insert_Some in Hw as [[<- <-]|[Hk' Hw]].
    + done.
    + destruct (Hu k w Hw). split; congruence.
    + by apply (Hu j v).
    + by apply (Hd j k).
Qed.

Lemma signup_keeps_contacts_distinct_witness :
  distinct_contacts (signup (λ _, true) Samples.uenv_ok Samples.users1 body1).2.
Proof.
  apply (signup_keeps_contacts_distinct (λ _, true) Samples.uenv_ok Samples.users1 body1);
    unfold Samples.users1.
  - intros i u [<- <-]%lookup_singleton_Some. reflexivity.
  - intros i j u v [<- <-]%lookup_singleton_Some [<- <-]%lookup_singleton_Some H. done.
Defined.

(** X12. [signup] answers 409 exactly when an active user has, as email
    or as phone, the trimmed text of the request's email or of its phone.
    So a request whose email, lowercased and trimmed, is that of a stored
    user whom this lookup does not find (a deactivated user, or an email
    sent in another case) is not answered 409: it fails in [User.create]
    instead, on the unique index if not before on validation, with an
    exception that is no [ApiError], and nothing is stored. *)
Theorem signup_duplicate_not_409 (valid : t → bool) (env : Env)
    (users : gmap ObjectId t) (b : SignupBody) :
  Js.truthy (b_firstName b) = true → Js.truthy (b_lastName b) = true →
  Js.truthy (b_email b) = true → Js.truthy (b_phone b) = true →
  Js.truthy (b_password b) = true → Js.truthy (b_dateOfBirth b) = true →
  Js.truthy (b_gender b) = true →
  let e := default "" (b_email b) in
  let p := default "" (b_phone b) in
  let r := signup valid env users b in
  (status_of r.1 = Some 409 ↔
     ∃ j v, users !! j = Some v ∧ isActive v = true
            ∧ (email v = Js.trim e ∨ phone v = Js.trim e
               ∨ email v = Js.trim p ∨ phone v = Js.trim p))
  ∧ (∀ j v,
       Js.truthy (b_city b) = true → Js.truthy (b_state b) = true →
       Js.truthy (b_zipCode b) = true →
       users !! j = Some v → email v = Js.trim (Js.toLowerCase e) →
       status_of r.1 ≠ Some 409 →
       ∃ text, r = (Throw text, users)).
Proof.
  intros H1 H2 H3 H4 H5 H6 H7. cbv zeta.
  unfold signup. rewrite H1, H2, H3, H4, H5, H6, H7. cbn [andb negb].
  destruct (findByEmailOrPhone users (default "" (b_email b))) as [u|] eqn:Hf1.
  { apply findByEmailOrPhone_Some in Hf1 as ([i Hi] & Hx & Ha). split.
    - split; [|done]. intros _. exists i, u. tauto.
    - intros j v _ _ _ _ _ Hn. by destruct Hn. }
  destruct (findByEmailOrPhone users (default "" (b_phone b))) as [u|] eqn:Hf2.
  { apply findByEmailOrPhone_Some in Hf2 as ([i Hi] & Hx & Ha). split.
    - split; [|done]. intros _. exists i, u. tauto.
    - intros j v _ _ _ _ _ Hn. by destruct Hn. }
  split.
  - split.
    + destruct (negb _); [done|]. destruct (negb (valid _)); [done|].
      by destruct (_ || _).
    + intros (j & v & Hv & Ha & Hx). exfalso.
      destruct (proj1 (findByEmailOrPhone_None _ _) Hf1 j v Hv Ha).
      destruct (proj1 (findByEmailOrPhone_None _ _) Hf2 j v Hv Ha). tauto.
  - intros j v H8 H9 H10 Hv He _. rewrite H8, H9, H10. cbn [andb negb].
    destruct (valid _); simpl; [|eauto].
    assert (Hq : unique_ok users (userData env b) = false).
    { destruct (unique_ok users (userData env b)) eqn:E; [|done].
      destruct (proj1 (unique_ok_spec users _) E j v Hv) as [Hne _]. by destruct Hne. }
    rewrite Hq. simpl. eauto.
Qed.

Lemma signup_duplicate_not_409_witness :
  (status_of (signup (λ _, true) Samples.uenv_ok {[ "u1" := user1_inactive ]} body_again).1
   = Some 409 ↔
     ∃ j v, ({[ "u1" := user1_inactive ]} : gmap ObjectId t) !! j = Some v
            ∧ isActive v = true
            ∧ (email v = Js.trim "asha@example.com" ∨ phone v = Js.trim "asha@example.com"
               ∨ email v = Js.trim "+919900000000" ∨ phone v = Js.trim "+919900000000"))
  ∧ ∃ text, signup (λ _, true) Samples.uenv_ok {[ "u1" := user1_inactive ]} body_again
            = (Throw text, {[ "u1" := user1_inactive ]}).
Proof.
  destruct (signup_duplicate_not_409 (λ _, true) Samples.uenv_ok
              {[ "u1" := user1_inactive ]} body_again) as [Ha Hb]; try reflexivity.
  split; [exact Ha|].
  apply (Hb "u1" user1_inactive); try reflexivity. vm_compute. discriminate.
Defined.

(** The same email, sent with blanks around it while the user is active,
    is found by the lookup. *)
Example signup_padded_email :
  status_of
    (signup (λ _, true) Samples.uenv_ok Samples.users1
       {| b_firstName := Some "Asha"; b_lastName := Some "Rao";
          b_email := Some "  asha@example.com "; b_phone := Some "+919811111111";
          b_password := Some "correct horse"; b_dateOfBirth := Some "1990-02-28";
          b_gender := Some "female"; b_city := Some "Pune"; b_state := Some "MH";
          b_zipCode := Some "411001" |}).1
  = Some 409.
Proof. reflexivity. Qed.

End UsersProps.

(** ** Cancelling and rescheduling appointments *)
Section AppointmentMore.
Import Appointment AppointmentController.

Lemma open_status_booked (s : string) :
  in_enum ["scheduled"; "confirmed"] s = true → in_enum booked_status s = true.
Proof.
  unfold in_enum, booked_status. rewrite !bool_decide_eq_true.
  intros H. repeat (apply elem_of_cons in H as [->|H]).
  - apply elem_of_cons; by left.
  - apply elem_of_cons; right. apply elem_of_cons; by left.
  - by apply elem_of_nil in H.
Qed.

Lemma in_enum_elem_of (e : list string) (s : string) : in_enum e s = true ↔ s ∈ e.
Proof. unfold in_enum. apply bool_decide_eq_true. Qed.

Lemma cancelAppointment_inv now (m m' : gmap ObjectId t) userId id reason code d :
  cancelAppointment now m userId id reason = (Respond code d, m') →
  ∃ a a', m !! id = Some a ∧ _id a = id ∧ patient a = userId
          ∧ in_enum ["scheduled"; "confirmed"] (status a) = true
          ∧ too_late now a = false
          ∧ save now m false a' = inr m'
          ∧ _id a' = id ∧ patient a' = userId ∧ doctor a' = doctor a
          ∧ appointmentDate a' = appointmentDate a ∧ timeSlot a' = timeSlot a
          ∧ status a' = "cancelled" ∧ cancelledAt a' = Some now
          ∧ cancelledBy a' = Some "patient"
          ∧ code = 200.
Proof.
  unfold cancelAppointment. intros H.
  destruct (m !! id) as [a|] eqn:Ha; [|discriminate].
  destruct (String.eqb (_id a) id && String.eqb (patient a) userId
            && in_enum ["scheduled"; "confirmed"] (status a)) eqn:Hq; [|discriminate].
  apply andb_true_iff in Hq as [Hq Hst]. apply andb_true_iff in Hq as [Hid Hpat].
  apply String.eqb_eq in Hid, Hpat.
  destruct (too_late now a) eqn:Hl; [discriminate|].
  match type of H with
  | match save now m false ?x with _ => _ end = _ => set (a' := x) in *
  end.
  destruct (save now m false a') as [e|m2] eqn:Hs; [discriminate|].
  injection H as <- _ <-.
  exists a, a'. split_and!; auto.
Qed.

(** X13.  A cancellation that [cancelAppointment] answers with success was
    asked by the patient of a scheduled or confirmed appointment at least
    two hours ahead.  It stores the appointment as cancelled by the
    patient at the time of the request and leaves the date and the slot as
    they were.  Afterwards the same appointment cannot be cancelled again
    (404, whatever the time and the reason), and [checkConflict] reports
    exactly the conflicts with the other stored appointments: the
    cancelled one no longer blocks its slot. *)
Theorem cancellation_frees_slot now (m m' : gmap ObjectId t) userId id reason code d :
  cancelAppointment now m userId id reason = (Respond code d, m') →
  ∃ a a',
    m !! id = Some a ∧ patient a = userId
    ∧ status a ∈ ["scheduled"; "confirmed"]
    ∧ 2 * (1000 * 3600) ≤ appointmentDate a - now
    ∧ m' = <[id := a']> m
    ∧ status a' = "cancelled" ∧ cancelledAt a' = Some now
    ∧ cancelledBy a' = Some "patient"
    ∧ appointmentDate a' = appointmentDate a ∧ timeSlot a' = timeSlot a
    ∧ (∀ now' reason',
         cancelAppointment now' m' userId id reason'
         = (ApiError 404 "Appointment not found or cannot be cancelled", m'))
    ∧ (∀ doctorId date st et ex,
         checkConflict m' doctorId date st et ex = true ↔
         ∃ j b, j ≠ id ∧ m !! j = Some b ∧ conflicts_with doctorId date st et ex b = true).
Proof.
  intros H.
  destruct (cancelAppointment_inv _ _ _ _ _ _ _ _ H)
    as (a & a' & Ha & Hid & Hpat & Hst & Hl & Hs & Hid' & Hpat' & Hdoc & Hdate & Hslot
        & Hst' & Hat & Hby & ->).
  apply save_inr in Hs as (_ & _ & _ & ->). rewrite Hid'.
  exists a, a'. split_and!; auto.
  - by apply in_enum_elem_of.
  - unfold too_late, two_hours_ms in Hl. apply Z.ltb_ge in Hl. lia.
  - intros now' reason'. unfold cancelAppointment. rewrite lookup_insert_eq.
    rewrite Hst'. by rewrite andb_false_r.
  - intros doctorId date st et ex. rewrite checkConflict_true. split.
    + intros (j & b & Hb & Hc).
      apply lookup_insert_Some in Hb as [[<- <-]|[Hj Hb]]; [|eauto].
      unfold conflicts_with in Hc. rewrite Hst' in Hc.
      rewrite !andb_true_iff in Hc. destruct Hc as [[[[_ Hc] _] _] _]. discriminate.
    + intros (j & b & Hj & Hb & Hc). exists j, b. split; [|done].
      rewrite lookup_insert_ne; auto.
Qed.

Lemma cancellation_frees_slot_witness :
  ∃ a a',
    Samples.store1 !! "a" = Some a ∧ patient a = "pat1"
    ∧ status a ∈ ["scheduled"; "confirmed"]
    ∧ 2 * (1000 * 3600) ≤ appointmentDate a - 0
    ∧ (cancelAppointment 0 Samples.store1 "pat1" "a" None).2 = <["a" := a']> Samples.store1
    ∧ status a' = "cancelled" ∧ cancelledAt a' = Some 0
    ∧ cancelledBy a' = Some "patient"
    ∧ appointmentDate a' = appointmentDate a ∧ timeSlot a' = timeSlot a
    ∧ (∀ now' reason',
         cancelAppointment now' (cancelAppointment 0 Samples.store1 "pat1" "a" None).2 "pat1" "a" reason'
         = (ApiError 404 "Appointment not found or cannot be cancelled", (cancelAppointment 0 Samples.store1 "pat1" "a" None).2))
    ∧ (∀ doctorId date st et ex,
         checkConflict (cancelAppointment 0 Samples.store1 "pat1" "a" None).2 doctorId date st et ex = true ↔
         ∃ j b, j ≠ "a" ∧ Samples.store1 !! j = Some b
                ∧ conflicts_with doctorId date st et ex b = true).
Proof.
  apply (cancellation_frees_slot 0 Samples.store1
           (cancelAppointment 0 Samples.store1 "pat1" "a" None).2 "pat1" "a" None 200
           {| cd_appointmentId := "a"; cd_status := "cancelled"; cd_cancelledAt := Some 0 |}).
  vm_compute. reflexivity.
Defined.

Lemma rescheduleAppointment_inv now (m m' : gmap ObjectId t) userId id newDate
    newStartTime newEndTime reason code d :
  rescheduleAppointment now m userId id newDate newStartTime newEndTime reason
  = (Respond code d, m') →
  ∃ a date st et,
    newDate = Some date ∧ newStartTime = Some st ∧ newEndTime = Some et
    ∧ m !! id = Some a ∧ _id a = id ∧ patient a = userId
    ∧ in_enum ["scheduled"; "confirmed"] (status a) = true
    ∧ now ≤ date
    ∧ checkConflict m (doctor a) date st et (Some id) = false
    ∧ save now m false
        (with_schedule a date {| startTime := st; endTime := et |} "scheduled"
           (if Js.truthy reason then Js.trim <$> reason else notes_patient a))
      = inr m'
    ∧ code = 200 ∧ rd_status d = "scheduled" ∧ rd_appointmentDate d = date.
Proof.
  unfold rescheduleAppointment. intros H.
  destruct newDate as [date|]; [|discriminate].
  destruct (negb (Js.truthy newStartTime) || negb (Js.truthy newEndTime)) eqn:Ht;
    [discriminate|].
  apply orb_false_iff in Ht as [Hts Hte]. apply negb_false_iff in Hts, Hte.
  destruct newStartTime as [st|]; [|discriminate].
  destruct newEndTime as [et|]; [|discriminate].
  simpl in H.
  destruct (m !! id) as [a|] eqn:Ha; [|discriminate].
  destruct (String.eqb (_id a) id && String.eqb (patient a) userId
            && in_enum ["scheduled"; "confirmed"] (status a)) eqn:Hq; [|discriminate].
  apply andb_true_iff in Hq as [Hq Hst]. apply andb_true_iff in Hq as [Hid Hpat].
  apply String.eqb_eq in Hid, Hpat.
  simpl in H.
  destruct (Z.ltb_spec date now); [discriminate|].
  destruct (checkConflict m (doctor a) date st et (Some id)) eqn:Hc; [discriminate|].
  match type of H with
  | match save now m false ?x with _ => _ end = _ => set (a' := x) in *
  end.
  destruct (save now m false a') as [e|m2] eqn:Hs; [discriminate|].
  injection H as <- <- <-.
  exists a, date, st, et. split_and!; auto.
Qed.

Lemma rescheduleAppointment_unchanged now (m : gmap ObjectId t) userId id newDate
    newStartTime newEndTime reason :
  let r := rescheduleAppointment now m userId id newDate newStartTime newEndTime reason in
  (∃ d, r.1 = Respond 200 d) ∨ r.2 = m.
Proof.
  unfold rescheduleAppointment.
  destruct newDate as [date|]; [|by right].
  destruct (negb (Js.truthy newStartTime) || negb (Js.truthy newEndTime)); [by right|].
  destruct (m !! id) as [a|]; [|by right].
  destruct (negb _); [by right|].
  destruct (date <? now); [by right|].
  destruct (checkConflict _ _ _ _ _ _); [by right|].
  destruct (save _ _ _ _); [by right|]. left. eauto.
Qed.

(** X14.  [rescheduleAppointment] keeps the collection consistent: if
    every appointment is stored under its own id and no two booked
    appointments of one doctor at one date overlap, the same holds after
    the request, whatever its outcome, and no appointment other than the
    addressed one is touched. *)
Theorem reschedule_keeps_bookings_apart now (m : gmap ObjectId t) userId id newDate
    newStartTime newEndTime reason :
  keyed m → no_double_booking m →
  let m' := (rescheduleAppointment now m userId id newDate newStartTime newEndTime reason).2 in
  keyed m' ∧ no_double_booking m' ∧ ∀ j, j ≠ id → m' !! j = m !! j.
Proof.
  intros Hk Hinv.
  destruct (rescheduleAppointment now m userId id newDate newStartTime newEndTime reason)
    as [o m'] eqn:E.
  pose proof (rescheduleAppointment_unchanged now m userId id newDate newStartTime
                newEndTime reason) as Hu.
  rewrite E in Hu. simpl in Hu. simpl.
  destruct Hu as [[d ->]| ->]; [|done].
  destruct (rescheduleAppointment_inv _ _ _ _ _ _ _ _ _ _ _ E)
    as (a & date & st & et & -> & -> & -> & Ha & Hid & Hpat & Hst & Hnow & Hc & Hs & _).
  split_and!.
  - exact (save_keyed _ _ _ _ _ Hk Hs).
  - apply (save_keeps_no_double_booking _ _ _ _ _ Hk Hinv Hs).
    right. exists a. simpl. rewrite Hid. split_and!; auto.
    intros _. unfold booked. by apply open_status_booked.
  - intros j Hj. apply save_inr in Hs as (_ & _ & _ & ->). simpl.
    rewrite Hid. by rewrite lookup_insert_ne.
Qed.

Lemma reschedule_keeps_bookings_apart_witness :
  let m' := (rescheduleAppointment 0 Samples.store3 "pat2" "b" (Some 100000000)
               (Some "10:30") (Some "11:30") None).2 in
  keyed m' ∧ no_double_booking m' ∧ ∀ j, j ≠ "b" → m' !! j = Samples.store3 !! j.
Proof.
  apply (reschedule_keeps_bookings_apart 0 Samples.store3 "pat2" "b" (Some 100000000)
           (Some "10:30") (Some "11:30") None store3_keyed store3_no_double_booking).
Defined.

(** X15.  A reschedule that [rescheduleAppointment] answers with success
    was asked by the patient of a scheduled or confirmed appointment, for
    a date that is not before the time of the request and with two times
    of the form the schema demands; no other booked appointment of the
    same doctor at the new date conflicts with the new slot.  The
    appointment is stored with the new date and slot and with the status
    [scheduled], also when it was [confirmed]; the patient and the doctor
    stay. *)
Theorem reschedule_accepted now (m m' : gmap ObjectId t) userId id newDate
    newStartTime newEndTime reason code d :
  rescheduleAppointment now m userId id newDate newStartTime newEndTime reason
  = (Respond code d, m') →
  ∃ a a' date st et,
    newDate = Some date ∧ newStartTime = Some st ∧ newEndTime = Some et
    ∧ m !! id = Some a ∧ patient a = userId
    ∧ status a ∈ ["scheduled"; "confirmed"]
    ∧ now ≤ date
    ∧ valid_time st = true ∧ valid_time et = true
    ∧ (∀ j b, m !! j = Some b → conflicts_with (doctor a) date st et (Some id) b = false)
    ∧ m' = <[id := a']> m
    ∧ appointmentDate a' = date
    ∧ timeSlot a' = {| startTime := st; endTime := et |}
    ∧ status a' = "scheduled"
    ∧ patient a' = patient a ∧ doctor a' = doctor a
    ∧ rd_status d = "scheduled" ∧ rd_appointmentDate d = date.
Proof.
  intros H.
  destruct (rescheduleAppointment_inv _ _ _ _ _ _ _ _ _ _ _ H)
    as (a & date & st & et & -> & -> & -> & Ha & Hid & Hpat & Hst & Hnow & Hc & Hs
        & _ & Hd1 & Hd2).
  pose proof Hs as Hs'.
  apply save_inr in Hs' as (Hv & _ & _ & ->). simpl. rewrite Hid.
  eexists a, _, date, st, et. split_and!; try reflexivity; auto.
  - by apply in_enum_elem_of.
  - unfold schema_valid in Hv. simpl in Hv. rewrite !andb_true_iff in Hv. tauto.
  - unfold schema_valid in Hv. simpl in Hv. rewrite !andb_true_iff in Hv. tauto.
  - by apply checkConflict_false.
Qed.

Lemma reschedule_accepted_witness :
  ∃ a a' date st et,
    Some 100000000 = Some date ∧ Some "10:30" = Some st ∧ Some "11:30" = Some et
    ∧ Samples.store3 !! "b" = Some a ∧ patient a = "pat2"
    ∧ status a ∈ ["scheduled"; "confirmed"]
    ∧ 0 ≤ date
    ∧ valid_time st = true ∧ valid_time et = true
    ∧ (∀ j b, Samples.store3 !! j = Some b →
              conflicts_with (doctor a) date st et (Some "b") b = false)
    ∧ (rescheduleAppointment 0 Samples.store3 "pat2" "b" (Some 100000000)
         (Some "10:30") (Some "11:30") None).2 = <["b" := a']> Samples.store3
    ∧ appointmentDate a' = date
    ∧ timeSlot a' = {| startTime := st; endTime := et |}
    ∧ status a' = "scheduled"
    ∧ patient a' = patient a ∧ doctor a' = doctor a
    ∧ rd_status {| rd_appointmentId := "b"; rd_appointmentDate := 100000000;
                   rd_timeSlot := {| startTime := "10:30"; endTime := "11:30" |};
                   rd_status := "scheduled" |} = "scheduled"
    ∧ rd_appointmentDate {| rd_appointmentId := "b"; rd_appointmentDate := 100000000;
                   rd_timeSlot := {| startTime := "10:30"; endTime := "11:30" |};
                   rd_status := "scheduled" |} = date.
Proof.
  apply (reschedule_accepted 0 Samples.store3
           (rescheduleAppointment 0 Samples.store3 "pat2" "b" (Some 100000000)
              (Some "10:30") (Some "11:30") None).2
           "pat2" "b" (Some 100000000) (Some "10:30") (Some "11:30") None 200).
  vm_compute. reflexivity.
Defined.

Lemma existingAppointments_elem_of (m : gmap ObjectId t) doctorId dayStart dayEnd (b : t) :
  b ∈ existingAppointments m doctorId dayStart dayEnd ↔
  (∃ j, m !! j = Some b) ∧ doctor b = doctorId
  ∧ dayStart ≤ appointmentDate b < dayEnd ∧ booked b = true.
Proof.
  unfold existingAppointments, booked.
  rewrite list_elem_of_In, filter_In, <- list_elem_of_In, list_elem_of_fmap.
  rewrite !andb_true_iff, String.eqb_eq, Z.leb_le, Z.ltb_lt. split.
  - intros [([j b'] & -> & Hb%elem_of_map_to_list) H]. simpl in *.
    split; [eauto|]. tauto.
  - intros [[j Hb] H]. split; [|tauto].
    exists (j, b). split; [done|]. by apply elem_of_map_to_list.
Qed.

Lemma availableSlotsForDay_elem_of (daySlots : list Doctor.Slot) (existing : list t) slot :
  slot ∈ availableSlotsForDay daySlots existing ↔
  slot ∈ daySlots
  ∧ ∀ a, a ∈ existing →
         ¬ (startTime (timeSlot a) = Doctor.startTime slot
            ∧ endTime (timeSlot a) = Doctor.endTime slot).
Proof.
  unfold availableSlotsForDay.
  rewrite list_elem_of_In, filter_In, <- list_elem_of_In, negb_true_iff.
  apply and_iff_compat_l. split.
  - intros Hn a Ha [H1 H2].
    assert (existsb (λ appointment : t,
              String.eqb (startTime (timeSlot appointment)) (Doctor.startTime slot)
              && String.eqb (endTime (timeSlot appointment)) (Doctor.endTime slot)) existing
            = true); [|congruence].
    apply existsb_exists. exists a. split; [by apply list_elem_of_In|].
    rewrite H1, H2, !String.eqb_refl. done.
  - intros H. apply not_true_is_false. intros (a & Ha & He)%existsb_exists.
    apply andb_true_iff in He as [H1%String.eqb_eq H2%String.eqb_eq].
    apply (H a); [by apply list_elem_of_In|done].
Qed.

(** X16.  The slot listing and the booking check disagree.  For one day,
    [getDoctorAvailableSlots] drops a slot of the doctor's timetable only
    when a booked appointment of that day has the same start and the same
    end, while a new appointment is refused as soon as it overlaps a
    booked one.  So a slot that overlaps a booking without repeating its
    times is listed as available, and the appointment that takes it at the
    date of that booking is not saved. *)
Theorem offered_slot_can_be_refused now (m : gmap ObjectId t) doctorId dayStart dayEnd
    (daySlots : list Doctor.Slot) (slot : Doctor.Slot) (b n : t) :
  keyed m →
  slot ∈ daySlots →
  b ∈ existingAppointments m doctorId dayStart dayEnd →
  (∀ a, a ∈ existingAppointments m doctorId dayStart dayEnd →
        ¬ (startTime (timeSlot a) = Doctor.startTime slot
           ∧ endTime (timeSlot a) = Doctor.endTime slot)) →
  Js.str_lt (startTime (timeSlot b)) (Doctor.endTime slot) = true →
  Js.str_lt (Doctor.startTime slot) (endTime (timeSlot b)) = true →
  doctor n = doctorId →
  appointmentDate n = appointmentDate b →
  timeSlot n = {| startTime := Doctor.startTime slot; endTime := Doctor.endTime slot |} →
  m !! _id n = None →
  slot ∈ availableSlotsForDay daySlots (existingAppointments m doctorId dayStart dayEnd)
  ∧ ∃ e, save now m true n = inl e.
Proof.
  intros Hk Hslot Hb Hno H1 H2 Hdoc Hdate Hts Hnew. split.
  - apply availableSlotsForDay_elem_of. auto.
  - destruct (save now m true n) as [e|m'] eqn:Hs; [eauto|]. exfalso.
    apply save_inr in Hs as (_ & Hpre & _ & _).
    destruct (proj1 (pre_save_None _ _ _ _) Hpre eq_refl) as [_ Hc].
    apply existingAppointments_elem_of in Hb as ([j Hj] & Hd & _ & Hbk).
    pose proof (proj1 (checkConflict_false _ _ _ _ _ _) Hc j b Hj) as Hcw.
    assert (conflicts_with (doctor n) (appointmentDate n) (startTime (timeSlot n))
              (endTime (timeSlot n)) (Some (_id n)) b = true); [|congruence].
    apply conflicts_with_true. rewrite Hts. simpl. split_and!; auto; [congruence|].
    intros E. rewrite (Hk j b Hj) in E. congruence.
Qed.

Lemma offered_slot_can_be_refused_witness :
  let slot := {| Doctor.startTime := "10:30"; Doctor.endTime := "11:30";
                 Doctor.maxPatients := 1%Q |} in
  let n := with_schedule (Samples.appt "n" "pat2" 100000000 "scheduled") 100000000
             {| startTime := "10:30"; endTime := "11:30" |} "scheduled" None in
  slot ∈ availableSlotsForDay [slot]
           (existingAppointments Samples.store1 "doc1" 86400000 172800000)
  ∧ ∃ e, save 0 Samples.store1 true n = inl e.
Proof.
  apply (offered_slot_can_be_refused 0 Samples.store1 "doc1" 86400000 172800000
           [ {| Doctor.startTime := "10:30"; Doctor.endTime := "11:30";
                Doctor.maxPatients := 1%Q |} ] _ Samples.apptA _ store1_keyed).
  - apply list_elem_of_singleton. reflexivity.
  - vm_compute. apply list_elem_of_singleton. reflexivity.
  - intros a Ha. vm_compute in Ha. apply list_elem_of_singleton in Ha. subst a.
    intros [H _]. discriminate.
  - reflexivity.
  - reflexivity.
  - reflexivity.
  - reflexivity.
  - reflexivity.
  - reflexivity.
Defined.


End AppointmentMore.

(** ** Times of day: the order of the strings and the order of the clock *)
Section TimeProps.
Import Appointment AppointmentVirtuals Chars.

Lemma is_digit_code c : is_digit c = true ↔ 48 ≤ code c ≤ 57.
Proof.
  unfold is_digit, code. rewrite andb_true_iff, !N.leb_le. lia.
Qed.

Lemma in_range_code lo hi c :
  in_range lo hi c = true ↔ Z.of_N lo ≤ code c ≤ Z.of_N hi.
Proof.
  unfold in_range, code. rewrite andb_true_iff, !N.leb_le. lia.
Qed.

Lemma code_inj c d : code c = code d → c = d.
Proof.
  unfold code. intros H. apply N2Z.inj in H.
  rewrite <- (ascii_N_embedding c), <- (ascii_N_embedding d). by rewrite H.
Qed.

Lemma digit_not_colon c : 48 ≤ code c ≤ 57 → Ascii.eqb c ":" = false.
Proof.
  intros H. apply Ascii.eqb_neq. intros ->. vm_compute in H. destruct H as [_ H]. by apply H.
Qed.

Lemma digit_value_code c : 48 ≤ code c ≤ 57 → digit_value c = Some (code c - 48).
Proof.
  intros H. unfold digit_value. by rewrite (proj2 (is_digit_code c) H).
Qed.

Lemma ascii_compare_code c d : Ascii.compare c d = (code c ?= code d).
Proof. unfold Ascii.compare, code. by rewrite N2Z.inj_compare. Qed.

Lemma forall_ascii (f : ascii → bool) : forallb f all_ascii = true → ∀ c, f c = true.
Proof.
  intros H c. apply (proj1 (forallb_forall f all_ascii) H).
  unfold all_ascii. apply in_map_iff. exists (nat_of_ascii c).
  split; [apply ascii_nat_embedding|].
  apply in_seq. pose proof (nat_ascii_bounded c). lia.
Qed.

Lemma match_colon {A} (c : ascii) (Y Z : A) :
  match c with ":"%char => Y | _ => Z end = if Ascii.eqb c ":" then Y else Z.
Proof. by destruct c as [[] [] [] [] [] [] [] []]. Qed.

Lemma valid_time_2 c1 c2 : valid_time (String c1 (String c2 "")) = false.
Proof. by destruct c2 as [[] [] [] [] [] [] [] []]. Qed.

Lemma valid_time_3 c1 c2 c3 : valid_time (String c1 (String c2 (String c3 ""))) = false.
Proof.
  pose (F := λ a b : ascii, negb (valid_time (String "0" (String a (String b ""))))).
  assert (H : forallb (λ a, forallb (F a) all_ascii) all_ascii = true)
    by (vm_compute; reflexivity).
  pose proof (forall_ascii _ (forall_ascii _ H c2) c3) as H'.
  unfold F in H'. apply negb_true_iff in H'. exact H'.
Qed.

Lemma valid_time_6 c1 c2 c3 c4 c5 c6 s :
  valid_time (String c1 (String c2 (String c3 (String c4 (String c5 (String c6 s))))))
  = false.
Proof.
  pose (F := λ a b : ascii,
          negb (valid_time (String "0" (String a (String b
                  (String "0" (String "0" (String "0" ""))))))) ).
  assert (H : forallb (λ a, forallb (F a) all_ascii) all_ascii = true)
    by (vm_compute; reflexivity).
  pose proof (forall_ascii _ (forall_ascii _ H c2) c3) as H'.
  unfold F in H'. apply negb_true_iff in H'. exact H'.
Qed.

Lemma valid_time_4 c1 c2 c3 c4 :
  valid_time (String c1 (String c2 (String c3 (String c4 ""))))
  = if Ascii.eqb c2 ":" then is_digit c1 && in_range 48 53 c3 && is_digit c4 else false.
Proof.
  destruct c3 as [[] [] [] [] [] [] [] []];
    unfold valid_time; cbv iota; apply (match_colon c2).
Qed.

Lemma valid_time_5 c1 c2 c3 c4 c5 :
  valid_time (String c1 (String c2 (String c3 (String c4 (String c5 "")))))
  = if Ascii.eqb c3 ":"
    then ((in_range 48 49 c1 && is_digit c2) || (Ascii.eqb c1 "2" && in_range 48 51 c2))
         && in_range 48 53 c4 && is_digit c5
    else false.
Proof.
  destruct c2 as [[] [] [] [] [] [] [] []];
    unfold valid_time; cbv iota; apply (match_colon c3).
Qed.

Lemma valid_time_inv (s : string) :
  valid_time s = true →
  (∃ h m1 m2, s = String h (String ":" (String m1 (String m2 "")))
     ∧ 48 ≤ code h ≤ 57 ∧ 48 ≤ code m1 ≤ 53 ∧ 48 ≤ code m2 ≤ 57)
  ∨ (∃ h1 h2 m1 m2, s = String h1 (String h2 (String ":" (String m1 (String m2 ""))))
     ∧ ((48 ≤ code h1 ≤ 49 ∧ 48 ≤ code h2 ≤ 57) ∨ (code h1 = 50 ∧ 48 ≤ code h2 ≤ 51))
     ∧ 48 ≤ code m1 ≤ 53 ∧ 48 ≤ code m2 ≤ 57).
Proof.
  destruct s as [|c1 [|c2 [|c3 [|c4 [|c5 [|c6 s]]]]]]; try discriminate.
  - by rewrite valid_time_2.
  - by rewrite valid_time_3.
  - rewrite valid_time_4. destruct (Ascii.eqb_spec c2 ":") as [->|]; [|done].
    rewrite !andb_true_iff, !is_digit_code, !in_range_code. intros [[H1 H2] H3].
    left. exists c1, c3, c4. split; [done|]. simpl in *. lia.
  - rewrite valid_time_5. destruct (Ascii.eqb_spec c3 ":") as [->|]; [|done].
    rewrite !andb_true_iff, orb_true_iff, !andb_true_iff, !is_digit_code,
      !in_range_code, Ascii.eqb_eq.
    intros [[H1 H2] H3]. right. exists c1, c2, c4, c5. split; [done|].
    simpl in *. split; [|lia].
    destruct H1 as [H1|[-> H1]]; [left; lia|right]. split; [reflexivity|lia].
  - by rewrite valid_time_6.
Qed.

Lemma total_minutes_4 h m1 m2 :
  48 ≤ code h ≤ 57 → 48 ≤ code m1 ≤ 57 → 48 ≤ code m2 ≤ 57 →
  total_minutes (String h (String ":" (String m1 (String m2 ""))))
  = Some ((code h - 48) * 60 + ((code m1 - 48) * 10 + (code m2 - 48))).
Proof.
  intros Hh H1 H2. unfold total_minutes, hours_minutes, split. cbn [split_go].
  rewrite (digit_not_colon h Hh), (digit_not_colon m1 H1), (digit_not_colon m2 H2).
  cbn [split_go Ascii.eqb Bool.eqb]. unfold Number. simpl.
  rewrite (digit_value_code h Hh), (digit_value_code m1 H1), (digit_value_code m2 H2).
  simpl. f_equal; lia.
Qed.

Lemma total_minutes_5 h1 h2 m1 m2 :
  48 ≤ code h1 ≤ 57 → 48 ≤ code h2 ≤ 57 → 48 ≤ code m1 ≤ 57 → 48 ≤ code m2 ≤ 57 →
  total_minutes (String h1 (String h2 (String ":" (String m1 (String m2 "")))))
  = Some (((code h1 - 48) * 10 + (code h2 - 48)) * 60
          + ((code m1 - 48) * 10 + (code m2 - 48))).
Proof.
  intros Hh1 Hh2 H1 H2. unfold total_minutes, hours_minutes, split. cbn [split_go].
  rewrite (digit_not_colon h1 Hh1), (digit_not_colon h2 Hh2),
    (digit_not_colon m1 H1), (digit_not_colon m2 H2).
  cbn [split_go Ascii.eqb Bool.eqb]. unfold Number. simpl.
  rewrite (digit_value_code h1 Hh1), (digit_value_code h2 Hh2),
    (digit_value_code m1 H1), (digit_value_code m2 H2).
  simpl. f_equal; lia.
Qed.

Lemma compare_cons c d s t :
  String.compare (String c s) (String d t)
  = match code c ?= code d with Eq => String.compare s t | r => r end.
Proof. simpl. by rewrite ascii_compare_code. Qed.

Ltac order_cases :=
  repeat match goal with
  | |- context [?x ?= ?y] => destruct (Z.compare_spec x y)
  end;
  split; intros; try discriminate; try reflexivity; try lia.

(** The clock order and the string order of two valid times with the same
    number of hour digits agree. *)
Lemma valid_time_order (s t : string) :
  valid_time s = true → valid_time t = true → String.length s = String.length t →
  ∃ ms mt, total_minutes s = Some ms ∧ total_minutes t = Some mt
           ∧ 0 ≤ ms < 1440 ∧ 0 ≤ mt < 1440
           ∧ (Js.str_lt s t = true ↔ ms < mt).
Proof.
  intros Hs Ht Hlen.
  destruct (valid_time_inv s Hs) as [(h & m1 & m2 & -> & Hh & H1 & H2)
                                    |(h1 & h2 & m1 & m2 & -> & Hh & H1 & H2)];
  destruct (valid_time_inv t Ht) as [(h' & m1' & m2' & -> & Hh' & H1' & H2')
                                    |(h1' & h2' & m1' & m2' & -> & Hh' & H1' & H2')];
  try discriminate.
  - rewrite !total_minutes_4 by lia. eexists _, _. split_and!; try reflexivity; try lia.
    rewrite str_lt_iff, !compare_cons. cbn [String.compare]. order_cases.
  - rewrite !total_minutes_5 by lia. eexists _, _. split_and!; try reflexivity; try lia.
    rewrite str_lt_iff, !compare_cons. cbn [String.compare]. order_cases.
Qed.

(** X17.  For an appointment that passes the schema the virtual [duration]
    is a number of minutes strictly between -1440 and 1440; the schema
    does not ask the end to come after the start.  When the two times are
    written with the same number of hour digits, the duration is positive
    exactly when the start precedes the end in the order of strings, which
    is the order the conflict check uses. *)
Theorem duration_spec (a : t) :
  schema_valid a = true →
  ∃ d, duration a = Some d ∧ -1440 < d < 1440
       ∧ (String.length (startTime (timeSlot a)) = String.length (endTime (timeSlot a)) →
          (0 < d ↔ Js.str_lt (startTime (timeSlot a)) (endTime (timeSlot a)) = true)).
Proof.
  intros Hv. unfold schema_valid in Hv. rewrite !andb_true_iff in Hv.
  destruct Hv as [[[[[[[[[[[Hs He] _] _] _] _] _] _] _] _] _] _].
  unfold duration.
  assert (∃ ms, total_minutes (startTime (timeSlot a)) = Some ms ∧ 0 ≤ ms < 1440)
    as (ms & Ems & Hms).
  { destruct (valid_time_order _ _ Hs Hs eq_refl) as (ms & _ & E & _ & H & _). eauto. }
  assert (∃ me, total_minutes (endTime (timeSlot a)) = Some me ∧ 0 ≤ me < 1440)
    as (me & Eme & Hme).
  { destruct (valid_time_order _ _ He He eq_refl) as (me & _ & E & _ & H & _). eauto. }
  rewrite Ems, Eme. eexists. split; [reflexivity|]. split; [lia|].
  intros Hlen.
  destruct (valid_time_order _ _ Hs He Hlen) as (ms' & me' & E1 & E2 & _ & _ & Hiff).
  rewrite Hiff. rewrite Ems in E1. rewrite Eme in E2.
  injection E1 as <-. injection E2 as <-. lia.
Qed.

Lemma duration_spec_witness :
  ∃ d, duration Samples.apptA = Some d ∧ -1440 < d < 1440
       ∧ (String.length (startTime (timeSlot Samples.apptA))
          = String.length (endTime (timeSlot Samples.apptA)) →
          (0 < d ↔ Js.str_lt (startTime (timeSlot Samples.apptA))
                     (endTime (timeSlot Samples.apptA)) = true)).
Proof. apply (duration_spec Samples.apptA). reflexivity. Defined.

(** X18.  The schema also admits an hour written with one digit, and then
    the order of strings is not the order of the clock.  A booked
    appointment that starts at an hour from 3 to 9 written with one digit
    is never reported by [checkConflict]'s query for a slot that ends at
    10:00 or later, although it starts before that slot ends; whether the
    two overlap is not looked at. *)
Theorem one_digit_hour_hides_conflict doctorId date st et ex (b : t) ms me :
  valid_time (startTime (timeSlot b)) = true → valid_time et = true →
  String.length (startTime (timeSlot b)) = 4%nat → String.length et = 5%nat →
  total_minutes (startTime (timeSlot b)) = Some ms → total_minutes et = Some me →
  180 ≤ ms → 600 ≤ me →
  ms < me ∧ conflicts_with doctorId date st et ex b = false.
Proof.
  intros Hs He Hls Hle Ems Eme Hms Hme.
  destruct (valid_time_inv _ Hs) as [(h & m1 & m2 & Es & Hh & H1 & H2)
                                    |(h1 & h2 & m1 & m2 & Es & _)];
    [|rewrite Es in Hls; discriminate].
  destruct (valid_time_inv _ He) as [(h' & m1' & m2' & Ee & _)
                                    |(h1' & h2' & m1' & m2' & -> & Hh' & H1' & H2')];
    [rewrite Ee in Hle; discriminate|].
  rewrite Es in Ems. rewrite total_minutes_4 in Ems by lia.
  rewrite total_minutes_5 in Eme by lia.
  injection Ems as <-. injection Eme as <-.
  split; [lia|].
  assert (Js.str_lt (startTime (timeSlot b))
            (String h1' (String h2' (String ":" (String m1' (String m2' ""))))) = false)
    as Hlt.
  { apply not_true_is_false. rewrite str_lt_iff, Es, compare_cons.
    destruct (Z.compare_spec (code h) (code h1')); try discriminate; lia. }
  unfold conflicts_with. rewrite Hlt. by rewrite !andb_false_r.
Qed.

Lemma one_digit_hour_hides_conflict_witness :
  let b := AppointmentController.with_schedule Samples.apptA 100000000
             {| startTime := "9:00"; endTime := "11:00" |} "scheduled" None in
  540 < 630 ∧ conflicts_with "doc1" 100000000 "10:00" "10:30" None b = false.
Proof.
  apply (one_digit_hour_hides_conflict "doc1" 100000000 "10:00" "10:30" None
           (AppointmentController.with_schedule Samples.apptA 100000000
              {| startTime := "9:00"; endTime := "11:00" |} "scheduled" None) 540 630);
    (reflexivity || lia).
Defined.

End TimeProps.

(** ** Listing a patient's appointments *)
Section AppointmentQueries.
Import Appointment AppointmentController.

#[local] Instance date_le_total : Total date_le.
Proof. intros a b. unfold date_le. lia. Qed.
#[local] Instance date_ge_total : Total date_ge.
Proof. intros a b. unfold date_ge. lia. Qed.
#[local] Instance date_le_trans : Transitive date_le.
Proof. intros a b c. unfold date_le. lia. Qed.
#[local] Instance date_ge_trans : Transitive date_ge.
Proof. intros a b c. unfold date_ge. lia. Qed.

Lemma docs_filter_elem_of (m : gmap ObjectId t) (f : t → bool) (a : t) :
  a ∈ List.filter f (map_to_list m).*2 ↔ (∃ j, m !! j = Some a) ∧ f a = true.
Proof.
  rewrite list_elem_of_In, filter_In, <- list_elem_of_In, list_elem_of_fmap.
  apply and_iff_compat_r. split.
  - intros ([j b] & -> & Hb%elem_of_map_to_list). eauto.
  - intros [j Hb]. exists (j, a). split; [done|]. by apply elem_of_map_to_list.
Qed.

(** X19.  What [getUserAppointments] selects before it cuts out a page.
    The appointments found are the stored ones of the requesting patient
    that pass the status test and the date test.  With [upcoming=true] the
    status must be scheduled or confirmed and the [status] parameter is
    ignored; otherwise a non-empty [status] parameter must be matched.
    With both [startDate] and [endDate] the date must lie in that range,
    and then [upcoming=true] no longer asks for a date from now on;
    without the range [upcoming=true] asks for it.  The list is in
    ascending date order with [upcoming=true] and in descending order
    otherwise. *)
Theorem user_appointments_query now (m : gmap ObjectId t) userId status_ upcoming
    startDate endDate :
  let found := findUserAppointments now m userId status_ upcoming startDate endDate in
  (∀ a, a ∈ found ↔
        (∃ j, m !! j = Some a) ∧ patient a = userId
        ∧ (if bool_decide (upcoming = Some "true")
           then status a ∈ ["scheduled"; "confirmed"]
           else ∀ s, status_ = Some s → s ≠ "" → status a = s)
        ∧ match startDate, endDate with
          | Some s, Some e => s ≤ appointmentDate a ≤ e
          | _, _ => upcoming = Some "true" → now ≤ appointmentDate a
          end)
  ∧ (if bool_decide (upcoming = Some "true")
     then StronglySorted date_le found else StronglySorted date_ge found).
Proof.
  unfold findUserAppointments. split.
  - intros a.
    assert (Hq : user_query now userId status_ upcoming startDate endDate a = true ↔
                 patient a = userId
                 ∧ (if bool_decide (upcoming = Some "true")
                    then status a ∈ ["scheduled"; "confirmed"]
                    else ∀ s, status_ = Some s → s ≠ "" → status a = s)
                 ∧ match startDate, endDate with
                   | Some s, Some e => s ≤ appointmentDate a ≤ e
                   | _, _ => upcoming = Some "true" → now ≤ appointmentDate a
                   end).
    { unfold user_query. rewrite !andb_true_iff, String.eqb_eq.
      assert (H1 : (if bool_decide (upcoming = Some "true")
                    then in_enum ["scheduled"; "confirmed"] (status a)
                    else match status_ with
                         | Some s => if Js.truthy status_ then String.eqb (status a) s
                                     else true
                         | None => true
                         end) = true ↔
                   (if bool_decide (upcoming = Some "true")
                    then status a ∈ ["scheduled"; "confirmed"]
                    else ∀ s, status_ = Some s → s ≠ "" → status a = s)).
      { case_bool_decide; [apply in_enum_elem_of|].
        destruct status_ as [s|]; [|naive_solver].
        destruct s as [|c s]; simpl; [naive_solver|].
        rewrite String.eqb_eq. split; [by intros -> ? [= <-]|].
        intros H'. by apply H'. }
      assert (H2 : match startDate, endDate with
                   | Some s, Some e => (s <=? appointmentDate a) && (appointmentDate a <=? e)
                   | _, _ => if bool_decide (upcoming = Some "true")
                             then now <=? appointmentDate a else true
                   end = true ↔
                   match startDate, endDate with
                   | Some s, Some e => s ≤ appointmentDate a ≤ e
                   | _, _ => upcoming = Some "true" → now ≤ appointmentDate a
                   end).
      { destruct startDate as [s|], endDate as [e|];
          rewrite ?andb_true_iff, ?Z.leb_le; try done;
          case_bool_decide; rewrite ?Z.leb_le; naive_solver. }
      rewrite H1, H2. tauto. }
    rewrite <- Hq, <- docs_filter_elem_of.
    case_bool_decide; by rewrite merge_sort_Permutation.
  - case_bool_decide; apply StronglySorted_merge_sort; apply _.
Qed.

Lemma ceil_div_gt (total page limit : nat) :
  (0 < limit)%nat →
  (page < (total + limit - 1) / limit ↔ page * limit < total)%nat.
Proof.
  intros Hl. split.
  - intros H.
    destruct (Nat.lt_ge_cases (page * limit) total) as [|Hge]; [done|]. exfalso.
    assert ((total + limit - 1) / limit < S page)%nat; [|lia].
    apply Nat.Div0.div_lt_upper_bound. nia.
  - intros H. apply (Nat.div_le_lower_bound (total + limit - 1) limit (S page)); [lia|nia].
Qed.

(** X20.  The page that [getUserAppointments] returns, for a page number
    and a limit that are positive integers.  [total] counts all the
    appointments the query selects, whatever the page; the page holds at
    most [limit] of them, namely as many as remain after the
    [(page - 1) * limit] skipped ones, and every one of them is selected
    by the query.  [hasNext] says exactly that appointments remain after
    this page, [hasPrev] that the page is not the first, and [totalPages]
    is the least number of pages that hold them all. *)
Theorem user_appointments_page now (m : gmap ObjectId t) userId (page limit : positive)
    status_ upcoming startDate endDate :
  let r := getUserAppointments now m userId page limit status_ upcoming startDate endDate in
  let found := findUserAppointments now m userId status_ upcoming startDate endDate in
  pg_total r = List.length found
  ∧ List.length (items r)
    = (Pos.to_nat limit `min` (pg_total r - (Pos.to_nat page - 1) * Pos.to_nat limit))%nat
  ∧ (∀ a, a ∈ items r → a ∈ found)
  ∧ (pg_hasNext r = true ↔ (Pos.to_nat page * Pos.to_nat limit < pg_total r)%nat)
  ∧ (pg_hasPrev r = true ↔ page ≠ 1%positive)
  ∧ (pg_total r ≤ pg_totalPages r * Pos.to_nat limit)%nat
  ∧ (∀ k, (pg_total r ≤ k * Pos.to_nat limit)%nat → (pg_totalPages r ≤ k)%nat).
Proof.
  simpl. set (found := findUserAppointments _ _ _ _ _ _ _).
  pose proof (Pos2Nat.is_pos limit) as Hl. pose proof (Pos2Nat.is_pos page) as Hp.
  split_and!.
  - done.
  - unfold paginate. by rewrite length_take, length_drop.
  - intros a Ha. unfold paginate in Ha.
    apply subseteq_take in Ha. by apply subseteq_drop in Ha.
  - rewrite Nat.ltb_lt. unfold totalPages. by apply ceil_div_gt.
  - rewrite Nat.ltb_lt. split.
    + intros H ->. simpl in H. lia.
    + intros H. assert (Pos.to_nat page ≠ 1%nat); [|lia].
      intros E. apply H. apply Pos2Nat.inj. by rewrite E.
  - unfold totalPages.
    destruct (Nat.le_gt_cases (List.length found)
                ((List.length found + Pos.to_nat limit - 1) / Pos.to_nat limit
                 * Pos.to_nat limit)) as [|Hgt]; [done|].
    apply ceil_div_gt in Hgt; lia.
  - intros k Hk. unfold totalPages.
    destruct (Nat.le_gt_cases ((List.length found + Pos.to_nat limit - 1) / Pos.to_nat limit) k)
      as [|Hgt]; [done|].
    apply ceil_div_gt in Hgt; lia.
Qed.

(** X22.  [findByDateRange] returns, in ascending date order, exactly the
    stored appointments whose date lies between the two bounds, both
    included, and that match each of the [doctor], [patient] and [status]
    options that is given and not empty.  When the first bound is after
    the second nothing is found. *)
Theorem findByDateRange_spec (m : gmap ObjectId t) startDate endDate o_doctor o_patient
    o_status :
  let found := findByDateRange m startDate endDate o_doctor o_patient o_status in
  (∀ a, a ∈ found ↔
        (∃ j, m !! j = Some a)
        ∧ startDate ≤ appointmentDate a ≤ endDate
        ∧ (∀ x, o_doctor = Some x → x ≠ "" → doctor a = x)
        ∧ (∀ x, o_patient = Some x → x ≠ "" → patient a = x)
        ∧ (∀ x, o_status = Some x → x ≠ "" → status a = x))
  ∧ StronglySorted date_le found
  ∧ (endDate < startDate → found = []).
Proof.
  assert (Hopt : ∀ (o : option string) (v : string),
            match o with
            | Some x => if Js.truthy o then String.eqb v x else true
            | None => true
            end = true ↔ (∀ x, o = Some x → x ≠ "" → v = x)).
  { intros [[|c x]|] v; simpl; [naive_solver| |naive_solver].
    rewrite String.eqb_eq. split; [by intros -> ? [= <-]|]. intros H. by apply H. }
  assert (Hmem : ∀ a, a ∈ findByDateRange m startDate endDate o_doctor o_patient o_status ↔
        (∃ j, m !! j = Some a)
        ∧ startDate ≤ appointmentDate a ≤ endDate
        ∧ (∀ x, o_doctor = Some x → x ≠ "" → doctor a = x)
        ∧ (∀ x, o_patient = Some x → x ≠ "" → patient a = x)
        ∧ (∀ x, o_status = Some x → x ≠ "" → status a = x)).
  { intros a. unfold findByDateRange. rewrite merge_sort_Permutation, docs_filter_elem_of.
    rewrite !andb_true_iff, !Hopt, !Z.leb_le. tauto. }
  split_and!.
  - exact Hmem.
  - unfold findByDateRange. apply StronglySorted_merge_sort; apply _.
  - intros Hlt. simpl.
    destruct (findByDateRange m startDate endDate o_doctor o_patient o_status) as [|a l] eqn:E;
      [done|].
    assert (Ha : a ∈ a :: l) by (apply elem_of_cons; by left).
    apply Hmem in Ha. lia.
Qed.


End AppointmentQueries.

(** ** More on rescheduling and on date ranges *)
Section AppointmentMore2.
Import Appointment AppointmentController AppointmentVirtuals.

(** X21.  What suffices for a reschedule.  The patient's scheduled or
    confirmed appointment, stored in a form that passes the schema, is
    moved to any date that is not before the time of the request and to
    any two well-formed times for which [checkConflict] finds no other
    booking, provided the reason, if one is given, has at most 500
    characters after trimming.  The date the appointment had plays no
    part: an appointment whose date has passed, and which is therefore
    not upcoming, is rescheduled as well. *)
Theorem reschedule_succeeds now (m : gmap ObjectId t) (a : t) (date : Z) (st et : string)
    (reason : option string) :
  m !! _id a = Some a →
  status a ∈ ["scheduled"; "confirmed"] →
  schema_valid a = true →
  now ≤ date →
  valid_time st = true → valid_time et = true →
  (∀ r, reason = Some r → (String.length (Js.trim r) ≤ 500)%nat) →
  checkConflict m (doctor a) date st et (Some (_id a)) = false →
  ∃ d a',
    rescheduleAppointment now m (patient a) (_id a) (Some date) (Some st) (Some et) reason
    = (Respond 200 d, <[_id a := a']> m)
    ∧ appointmentDate a' = date
    ∧ timeSlot a' = {| startTime := st; endTime := et |}
    ∧ status a' = "scheduled".
Proof.
  intros Ha Hst Hv Hnow Hvs Hve Hr Hc.
  assert (Hts : Js.truthy (Some st) = true).
  { destruct st; [discriminate|reflexivity]. }
  assert (Hte : Js.truthy (Some et) = true).
  { destruct et; [discriminate|reflexivity]. }
  unfold rescheduleAppointment. rewrite Hts, Hte. cbn [negb orb default from_option id].
  rewrite Ha. rewrite !String.eqb_refl, (proj2 (in_enum_elem_of _ _) Hst).
  cbn [andb negb].
  destruct (Z.ltb_spec date now); [lia|]. rewrite Hc.
  set (a' := with_schedule a date _ _ _).
  assert (Hs : save now m false a' = inr (<[_id a := a']> m)).
  { apply save_inr. split_and!.
    - unfold schema_valid in *. subst a'. cbn [with_schedule timeSlot startTime endTime
        symptoms reasonForVisit status priority consultationFee paymentStatus
        notes_patient cancelledBy cancellationReason].
      rewrite !andb_true_iff in Hv. rewrite !andb_true_iff.
      destruct Hv as [[[[[[[[[[[? ?] ?] ?] ?] ?] ?] ?] ?] Hn] ?] ?].
      split_and!; auto.
      destruct reason as [r|]; [|done].
      destruct (Js.truthy (Some r)); [|done]. simpl.
      apply Nat.leb_le. by apply Hr.
    - apply pre_save_None. intros _. split; [done|]. exact Hc.
    - simpl. rewrite Ha. eauto.
    - done. }
  rewrite Hs. eexists _, a'. split_and!; reflexivity.
Qed.

Lemma reschedule_succeeds_witness :
  let a := Samples.appt "a" "pat1" 100000000 "confirmed" in
  let m : gmap ObjectId t := {[ "a" := a ]} in
  AppointmentVirtuals.isUpcoming 200000000 a = false
  ∧ ∃ d a',
      rescheduleAppointment 200000000 m "pat1" "a" (Some 300000000) (Some "9:00")
        (Some "9:30") (Some " later ")
      = (Respond 200 d, <["a" := a']> m)
      ∧ appointmentDate a' = 300000000
      ∧ timeSlot a' = {| startTime := "9:00"; endTime := "9:30" |}
      ∧ status a' = "scheduled".
Proof.
  split; [reflexivity|].
  apply (reschedule_succeeds 200000000
           {[ "a" := Samples.appt "a" "pat1" 100000000 "confirmed" ]}
           (Samples.appt "a" "pat1" 100000000 "confirmed") 300000000 "9:00" "9:30"
           (Some " later ")).
  - reflexivity.
  - apply elem_of_cons; right. apply elem_of_cons; by left.
  - reflexivity.
  - lia.
  - reflexivity.
  - reflexivity.
  - intros r [= <-]. vm_compute. lia.
  - reflexivity.
Defined.

End AppointmentMore2.

(** ** Passwords, login and optional authentication *)
Section AccountProps.
Import User UserController Account Users.

(** A query that fixes the email finds the one document with that email,
    if that document passes the query. *)
Lemma findOne_by_email (p : t → bool) (users : gmap ObjectId t) uid (u : t) :
  distinct_contacts users → users !! uid = Some u →
  (∀ v, p v = true → email v = email u) →
  findOne p users = if p u then Some u else None.
Proof.
  intros Hd Hu Hp.
  assert (Hsame : ∀ i v, users !! i = Some v → p v = true → v = u).
  { intros i v Hv Hpv. destruct (decide (i = uid)) as [->|Hne]; [congruence|].
    destruct (Hd i uid v u Hv Hu Hne) as [He _]. by specialize (Hp v Hpv). }
  destruct (p u) eqn:Hpu.
  - apply findOne_unique; eauto.
  - apply findOne_none. intros i v Hv. destruct (p v) eqn:Hpv; [|done].
    rewrite (Hsame i v Hv Hpv) in Hpv. congruence.
Qed.

Lemma distinct_contacts_update (users : gmap ObjectId t) uid (u u' : t) :
  distinct_contacts users → users !! uid = Some u →
  email u' = email u → phone u' = phone u →
  distinct_contacts (<[uid := u']> users).
Proof.
  intros Hd Hu He Hp i j v w Hv Hw Hij.
  apply lookup_insert_Some in Hv as [[<- <-]|[Hi Hv]];
    apply lookup_insert_Some in Hw as [[<- <-]|[Hj Hw]].
  - done.
  - rewrite He, Hp. by apply (Hd uid j).
  - rewrite He, Hp. by apply (Hd i uid).
  - by apply (Hd i j).
Qed.

Lemma truthy_Some (s : string) : Js.truthy (Some s) = true ↔ s ≠ "".
Proof. simpl. rewrite negb_true_iff. apply String.eqb_neq. Qed.

Lemma long_nonempty (s : string) : (8 ≤ Js.length s)%nat → s ≠ "".
Proof. intros H ->. simpl in H. lia. Qed.

Lemma forgotPassword_stores env (users : gmap ObjectId t) uid (u : t) e :
  keyed users → distinct_contacts users →
  users !! uid = Some u → isActive u = true →
  e ≠ "" → email u = Js.trim (Js.toLowerCase e) → mailOk env = true →
  forgotPassword env users (Some e)
  = (Respond 200 (),
     <[uid := set_resetOTP u (Some (otp env)) (Some (now env + fifteen_minutes))]> users).
Proof.
  intros Hk Hd Hu Ha He Hm Hmail. unfold forgotPassword.
  rewrite (proj2 (truthy_Some e) He). cbn [negb].
  rewrite (findOne_by_email _ users uid u Hd Hu).
  - rewrite Hm, String.eqb_refl, Ha, Hmail. cbn [andb]. unfold save. simpl.
    by rewrite (Hk uid u Hu).
  - intros v [Hv _]%andb_true_iff. apply String.eqb_eq in Hv. congruence.
Qed.

Lemma resetPassword_cases hash env (users : gmap ObjectId t) pw uid (u : t) e o np :
  keyed users → distinct_contacts users →
  users !! uid = Some u →
  e ≠ "" → email u = Js.trim (Js.toLowerCase e) →
  (8 ≤ Js.length np)%nat →
  resetPassword hash env users pw (Some e) (Some o) (Some np)
  = if negb (String.eqb o "") && reset_query env (Some e) (Some o) u
    then (Respond 200 (),
          (<[uid := set_resetOTP u None None]> users, <[uid := hash np]> pw))
    else if String.eqb o ""
    then (ApiError 400 "Email, OTP and new password are required", (users, pw))
    else (ApiError 400 "Invalid or expired password reset OTP", (users, pw)).
Proof.
  intros Hk Hd Hu He Hm Hlen. unfold resetPassword.
  rewrite (proj2 (truthy_Some e) He), (proj2 (truthy_Some np) (long_nonempty np Hlen)).
  cbn [negb orb default from_option id].
  destruct (String.eqb_spec o "") as [->|Ho]; [reflexivity|].
  rewrite (proj2 (truthy_Some o) Ho). cbn [negb orb andb].
  destruct (Nat.ltb_spec (Js.length np) 8); [lia|].
  rewrite (findOne_by_email _ users uid u Hd Hu).
  - destruct (reset_query env (Some e) (Some o) u); [|done].
    unfold save. simpl. by rewrite (Hk uid u Hu).
  - intros v Hv. unfold reset_query in Hv. rewrite !andb_true_iff in Hv.
    destruct Hv as [[[Hv _] _] _]. apply String.eqb_eq in Hv. simpl in Hv. congruence.
Qed.

(** X23.  The one-time password that [forgotPassword] mails resets the
    password: with it, and a new password of at least 8 characters,
    [resetPassword] answers 200 exactly as long as less than fifteen
    minutes have passed, and then the hash of the new password is stored
    for this user and no other user document is touched.  The password
    is used up by that: every later reset with it is answered 400.  Any
    other one-time password is answered 400 as well. *)
Theorem forgot_then_reset hash env env' (users : gmap ObjectId t) pw uid (u : t) e np :
  keyed users → distinct_contacts users →
  users !! uid = Some u → isActive u = true →
  e ≠ "" → email u = Js.trim (Js.toLowerCase e) →
  otp env ≠ "" → mailOk env = true →
  (8 ≤ Js.length np)%nat →
  let users1 := (forgotPassword env users (Some e)).2 in
  let r := resetPassword hash env' users1 pw (Some e) (Some (otp env)) (Some np) in
  (status_of r.1 = Some 200 ↔ now env' < now env + 15 * 60 * 1000)
  ∧ (status_of r.1 = Some 200 →
     r.2.2 = <[uid := hash np]> pw
     ∧ (∀ j, j ≠ uid → r.2.1 !! j = users !! j)
     ∧ ∀ env'' np', (8 ≤ Js.length np')%nat →
         resetPassword hash env'' r.2.1 r.2.2 (Some e) (Some (otp env)) (Some np')
         = (ApiError 400 "Invalid or expired password reset OTP", r.2))
  ∧ (∀ o, o ≠ otp env →
       status_of (resetPassword hash env' users1 pw (Some e) (Some o) (Some np)).1
       = Some 400).
Proof.
  intros Hk Hd Hu Ha He Hm Ho Hmail Hlen.
  rewrite (forgotPassword_stores env users uid u e Hk Hd Hu Ha He Hm Hmail).
  cbn [snd]. set (u1 := set_resetOTP u _ _).
  assert (Hk1 : keyed (<[uid := u1]> users)).
  { intros i v [[<- <-]|[_ Hv]]%lookup_insert_Some; [exact (Hk uid u Hu)|by apply Hk]. }
  assert (Hd1 : distinct_contacts (<[uid := u1]> users))
    by (by apply (distinct_contacts_update users uid u u1)).
  assert (Hu1 : <[uid := u1]> users !! uid = Some u1) by apply lookup_insert_eq.
  assert (Hq : reset_query env' (Some e) (Some (otp env)) u1
               = (now env' <? now env + fifteen_minutes)).
  { unfold reset_query. subst u1. simpl. rewrite Hm, String.eqb_refl, Ha.
    rewrite bool_decide_eq_true_2 by done. by rewrite andb_true_r. }
  rewrite (resetPassword_cases hash env' _ pw uid u1 e (otp env) np Hk1 Hd1 Hu1 He Hm Hlen).
  rewrite (proj2 (String.eqb_neq _ _) Ho), Hq. cbn [negb andb].
  unfold fifteen_minutes.
  destruct (Z.ltb_spec (now env') (now env + 15 * 60 * 1000)) as [Hlt|Hge].
  - split_and!.
    + done.
    + intros _. cbn [fst snd]. split_and!.
      * done.
      * intros j Hj. by rewrite !lookup_insert_ne.
      * intros env'' np' Hlen'.
        set (u2 := set_resetOTP u1 None None).
        assert (Hk2 : keyed (<[uid := u2]> (<[uid := u1]> users))).
        { intros i v [[<- <-]|[_ Hv]]%lookup_insert_Some; [exact (Hk uid u Hu)|by apply Hk1]. }
        assert (Hd2 : distinct_contacts (<[uid := u2]> (<[uid := u1]> users)))
          by (by apply (distinct_contacts_update _ uid u1 u2)).
        rewrite (resetPassword_cases hash env'' _ _ uid u2 e (otp env) np' Hk2 Hd2
                   (lookup_insert_eq _ _ _) He Hm Hlen').
        rewrite (proj2 (String.eqb_neq _ _) Ho).
        unfold reset_query. subst u2. simpl.
        by rewrite !andb_false_r.
    + intros o Hne.
      rewrite (resetPassword_cases hash env' _ pw uid u1 e o np Hk1 Hd1 Hu1 He Hm Hlen).
      assert (reset_query env' (Some e) (Some o) u1 = false) as ->.
      { unfold reset_query. subst u1. simpl.
        rewrite (bool_decide_eq_false_2 (Some (otp env) = Some o)) by congruence.
        by rewrite andb_false_r. }
      rewrite andb_false_r. by destruct (String.eqb o "").
  - split_and!.
    + simpl. split; [discriminate|lia].
    + simpl. discriminate.
    + intros o Hne.
      rewrite (resetPassword_cases hash env' _ pw uid u1 e o np Hk1 Hd1 Hu1 He Hm Hlen).
      assert (reset_query env' (Some e) (Some o) u1 = false) as ->.
      { unfold reset_query. subst u1. simpl.
        rewrite (bool_decide_eq_false_2 (Some (otp env) = Some o)) by congruence.
        by rewrite andb_false_r. }
      rewrite andb_false_r. by destruct (String.eqb o "").
Qed.

Lemma users1_keyed : keyed Samples.users1.
Proof.
  intros i v H. unfold Samples.users1 in H.
  apply lookup_singleton_Some in H as [<- <-]. reflexivity.
Qed.

Lemma users1_distinct : distinct_contacts Samples.users1.
Proof.
  intros i j v w Hv Hw Hij. unfold Samples.users1 in *.
  apply lookup_singleton_Some in Hv as [<- _].
  apply lookup_singleton_Some in Hw as [<- _]. done.
Qed.

Lemma forgot_then_reset_witness :
  let users1 := (forgotPassword Samples.uenv_ok Samples.users1 (Some " Asha@Example.com")).2 in
  let r := resetPassword AccountSamples.hash Samples.uenv_ok users1 AccountSamples.passwords1
             (Some " Asha@Example.com") (Some (otp Samples.uenv_ok)) (Some "new secret") in
  (status_of r.1 = Some 200 ↔ now Samples.uenv_ok < now Samples.uenv_ok + 15 * 60 * 1000)
  ∧ (status_of r.1 = Some 200 →
     r.2.2 = <["u1" := AccountSamples.hash "new secret"]> AccountSamples.passwords1
     ∧ (∀ j, j ≠ "u1" → r.2.1 !! j = Samples.users1 !! j)
     ∧ ∀ env'' np', (8 ≤ Js.length np')%nat →
         resetPassword AccountSamples.hash env'' r.2.1 r.2.2 (Some " Asha@Example.com")
           (Some (otp Samples.uenv_ok)) (Some np')
         = (ApiError 400 "Invalid or expired password reset OTP", r.2))
  ∧ (∀ o, o ≠ otp Samples.uenv_ok →
       status_of (resetPassword AccountSamples.hash Samples.uenv_ok users1
                    AccountSamples.passwords1 (Some " Asha@Example.com") (Some o)
                    (Some "new secret")).1
       = Some 400).
Proof.
  apply (forgot_then_reset AccountSamples.hash Samples.uenv_ok Samples.uenv_ok
           Samples.users1 AccountSamples.passwords1 "u1" Samples.user1
           " Asha@Example.com" "new secret" users1_keyed users1_distinct);
    try reflexivity; try discriminate.
  simpl. lia.
Defined.

Lemma login_success_inv compare tok (users : gmap ObjectId t) pw identifier password
    code d :
  login compare tok users pw identifier password = Respond code d →
  code = 200
  ∧ ∃ i u, users !! i = Some u ∧ isActive u = true
           ∧ (email u = Js.trim (Js.toLowerCase (default "" identifier))
              ∨ phone u = Js.trim (Js.toLowerCase (default "" identifier)))
           ∧ comparePassword compare pw u (default "" password) = Some true
           ∧ ld_token d = tok u ∧ ld_user d = users !! _id u.
Proof.
  unfold login.
  destruct (negb (Js.truthy identifier) || negb (Js.truthy password)); [done|].
  destruct (findByEmailOrPhone users _) as [u|] eqn:Hf; [|done].
  apply findByEmailOrPhone_Some in Hf as ([i Hi] & Hx & Ha). rewrite Ha. cbn [negb].
  rewrite trim_idem in Hx.
  destruct (comparePassword compare pw u (default "" password)) as [[]|] eqn:Hc;
    try done.
  intros [= <- <-]. split; [done|]. exists i, u. split_and!; auto.
Qed.

(** X24.  [login] never answers 403: the lookup it uses only finds active
    users, so the branch for a deactivated account cannot be reached.
    When every user whose email or phone is the identifier, lowercased
    and trimmed, has been deactivated, the answer is the 401 given for an
    unknown identifier and for a wrong password.  A login that succeeds
    was made for an active user with that email or phone whose stored
    password the given one matches, and it carries that user's token. *)
Theorem login_outcomes compare tok (users : gmap ObjectId t) pw identifier password :
  let norm := Js.trim (Js.toLowerCase (default "" identifier)) in
  let r := login compare tok users pw identifier password in
  status_of r ≠ Some 403
  ∧ (Js.truthy identifier = true → Js.truthy password = true →
     (∀ i u, users !! i = Some u → email u = norm ∨ phone u = norm → isActive u = false) →
     r = ApiError 401 "Invalid credentials")
  ∧ (∀ code d, r = Respond code d →
       code = 200
       ∧ ∃ i u, users !! i = Some u ∧ isActive u = true
                ∧ (email u = norm ∨ phone u = norm)
                ∧ comparePassword compare pw u (default "" password) = Some true
                ∧ ld_token d = tok u ∧ ld_user d = users !! _id u).
Proof.
  cbv zeta. split_and!.
  - unfold login.
    destruct (negb (Js.truthy identifier) || negb (Js.truthy password)); [done|].
    destruct (findByEmailOrPhone users _) as [u|] eqn:Hf; [|done].
    apply findByEmailOrPhone_Some in Hf as (_ & _ & Ha). rewrite Ha. cbn [negb].
    by destruct (comparePassword compare pw u (default "" password)) as [[]|].
  - intros H1 H2 Hall. unfold login. rewrite H1, H2. cbn [negb orb].
    destruct (findByEmailOrPhone users _) as [u|] eqn:Hf; [|done].
    apply findByEmailOrPhone_Some in Hf as ([i Hi] & Hx & Ha).
    rewrite trim_idem in Hx. rewrite (Hall i u Hi Hx) in Ha. done.
  - intros code d. apply login_success_inv.
Qed.

Lemma substring_0_length (s : string) : String.substring 0 (String.length s) s = s.
Proof. induction s as [|c s IH]; simpl; [done|]. by rewrite IH. Qed.

Lemma prefix_append (p t : string) : String.prefix p (String.append p t) = true.
Proof.
  induction p as [|c p IH]; simpl; [by destruct t|].
  rewrite IH. by destruct (ascii_dec c c).
Qed.

Lemma substring_append (p t : string) :
  String.substring (String.length p) (String.length (String.append p t) - String.length p)
    (String.append p t) = t.
Proof.
  induction p as [|c p IH]; simpl; [|exact IH].
  rewrite Nat.sub_0_r. apply substring_0_length.
Qed.

Lemma remove_first_prefix (pat s : string) :
  String.prefix pat s = true →
  Auth.remove_first pat s
  = String.substring (String.length pat) (String.length s - String.length pat) s.
Proof.
  intros H. destruct s as [|c s]; [by destruct pat|].
  cbn [Auth.remove_first]. by rewrite H.
Qed.

Lemma token_of_bearer (tok : string) :
  Auth.token_of {| Auth.cookie_token := None;
                   Auth.authorization := Some (String.append "Bearer " tok) |}
  = Some tok.
Proof.
  unfold Auth.token_of. cbn [Auth.cookie_token Auth.authorization Js.truthy].
  rewrite fmap_Some. eexists. split; [reflexivity|].
  rewrite remove_first_prefix by apply prefix_append.
  symmetry. apply substring_append.
Qed.

(** X25.  The token of a successful [login] authenticates its user.  If
    the verifier accepts the token minted for each stored user and reads
    that user's [_id] from it, then after a login that succeeded
    [authenticate] lets a request through that carries the token in the
    cookie, or in the Authorization header behind [Bearer ], and sets
    [req.user] to the user the login returned. *)
Theorem login_then_authenticate compare tok jwt_verify (users : gmap ObjectId t) pw
    identifier password code d :
  keyed users →
  (∀ i u, users !! i = Some u →
          tok u ≠ "" ∧ jwt_verify (tok u) = Auth.Verified {| Auth.id := Some (_id u) |}) →
  login compare tok users pw identifier password = Respond code d →
  ∃ u, ld_user d = Some u
       ∧ Auth.authenticate jwt_verify users
           {| Auth.cookie_token := Some (ld_token d); Auth.authorization := None |}
         = Auth.Next u
       ∧ Auth.authenticate jwt_verify users
           {| Auth.cookie_token := None;
              Auth.authorization := Some (String.append "Bearer " (ld_token d)) |}
         = Auth.Next u.
Proof.
  intros Hk Htok Hl.
  destruct (login_success_inv _ _ _ _ _ _ _ _ Hl) as (_ & i & u & Hi & Ha & _ & _ & Ht & Hu).
  destruct (Htok i u Hi) as [Hne Hv].
  rewrite (Hk i u Hi) in Hu. rewrite Hi in Hu.
  exists u. split; [done|].
  assert (Hauth : ∀ req, Auth.token_of req = Some (tok u) →
                         Auth.authenticate jwt_verify users req = Auth.Next u).
  { intros req Hreq. unfold Auth.authenticate. rewrite Hreq.
    rewrite (proj2 (truthy_Some _) Hne). cbn [negb default from_option id].
    rewrite Hv. simpl. rewrite (Hk i u Hi), Hi, Ha. done. }
  rewrite Ht. split; apply Hauth.
  - unfold Auth.token_of. simpl. by rewrite (proj2 (String.eqb_neq _ _) Hne).
  - apply token_of_bearer.
Qed.

Lemma login_then_authenticate_witness :
  ∃ u, Some Samples.user1 = Some u
       ∧ Auth.authenticate Samples.sample_jwt Samples.users1
           {| Auth.cookie_token := Some "good"; Auth.authorization := None |}
         = Auth.Next u
       ∧ Auth.authenticate Samples.sample_jwt Samples.users1
           {| Auth.cookie_token := None;
              Auth.authorization := Some (String.append "Bearer " "good") |}
         = Auth.Next u.
Proof.
  apply (login_then_authenticate AccountSamples.compare AccountSamples.token
           Samples.sample_jwt Samples.users1 AccountSamples.passwords1
           (Some "ASHA@example.com ") (Some "old secret") 200
           {| ld_user := Some Samples.user1; ld_token := "good" |} users1_keyed).
  - intros i u H. unfold Samples.users1 in H.
    apply lookup_singleton_Some in H as [<- <-]. split; [discriminate|reflexivity].
  - reflexivity.
Defined.

(** X26.  [changePassword], when bcrypt matches a password against a hash
    of its own making exactly for the password hashed: a change that is
    answered with success was made by a stored user who gave the current
    password and a new one of at least 8 characters; afterwards the new
    password matches and the one given as current no longer does, and the
    passwords of the other users are as before. *)
Theorem change_password_replaces hash compare (users : gmap ObjectId t) pw pw' uid
    currentPassword newPassword code d :
  keyed users →
  (∀ p q, compare p (hash q) = true ↔ p = q) →
  changePassword hash compare users pw uid currentPassword newPassword
  = (Respond code d, pw') →
  ∃ u cur new,
    users !! uid = Some u ∧ currentPassword = Some cur ∧ newPassword = Some new
    ∧ (8 ≤ Js.length new)%nat
    ∧ comparePassword compare pw u cur = Some true
    ∧ comparePassword compare pw' u new = Some true
    ∧ comparePassword compare pw' u cur = Some false
    ∧ ∀ j, j ≠ uid → pw' !! j = pw !! j.
Proof.
  intros Hk Hcmp. unfold changePassword.
  destruct (negb (Js.truthy currentPassword) || negb (Js.truthy newPassword)) eqn:Ht;
    [discriminate|].
  apply orb_false_iff in Ht as [Htc Htn]. apply negb_false_iff in Htc, Htn.
  destruct currentPassword as [cur|]; [|discriminate].
  destruct newPassword as [new|]; [|discriminate].
  cbn [default from_option id].
  destruct (Nat.ltb_spec (Js.length new) 8); [discriminate|].
  unfold findById. simpl.
  destruct (users !! uid) as [u|] eqn:Hu; [|discriminate].
  destruct (comparePassword compare pw u cur) as [[]|] eqn:Hc1; try discriminate.
  destruct (comparePassword compare pw u new) as [[]|] eqn:Hc2; try discriminate.
  intros [= _ _ <-]. rewrite (Hk uid u Hu).
  exists u, cur, new. split_and!; auto.
  - unfold comparePassword. rewrite (Hk uid u Hu), lookup_insert_eq. simpl.
    f_equal. by apply Hcmp.
  - unfold comparePassword. rewrite (Hk uid u Hu), lookup_insert_eq. simpl.
    f_equal. apply not_true_is_false. intros E%Hcmp. subst new. congruence.
  - intros j Hj. by rewrite lookup_insert_ne.
Qed.

Lemma change_password_replaces_witness :
  ∃ u cur new,
    Samples.users1 !! "u1" = Some u ∧ Some "old secret" = Some cur
    ∧ Some "new secret" = Some new
    ∧ (8 ≤ Js.length new)%nat
    ∧ comparePassword AccountSamples.compare AccountSamples.passwords1 u cur = Some true
    ∧ comparePassword AccountSamples.compare
        (<["u1" := AccountSamples.hash "new secret"]> AccountSamples.passwords1) u new
      = Some true
    ∧ comparePassword AccountSamples.compare
        (<["u1" := AccountSamples.hash "new secret"]> AccountSamples.passwords1) u cur
      = Some false
    ∧ ∀ j, j ≠ "u1" →
           <["u1" := AccountSamples.hash "new secret"]> AccountSamples.passwords1 !! j
           = AccountSamples.passwords1 !! j.
Proof.
  apply (change_password_replaces AccountSamples.hash AccountSamples.compare Samples.users1
           AccountSamples.passwords1 _ "u1" (Some "old secret") (Some "new secret") 200 ()
           users1_keyed).
  - intros p q. unfold AccountSamples.compare, AccountSamples.hash.
    rewrite String.eqb_eq. split; [|by intros ->].
    intros H. injection H as H. exact H.
  - reflexivity.
Defined.

(** A new password of seven characters is refused by both operations,
    although its text takes nine bytes. *)
Example seven_characters_refused :
  Js.length "pässwör" = 7%nat ∧ String.length "pässwör" = 9%nat
  ∧ (resetPassword AccountSamples.hash Samples.uenv_ok Samples.users1
       AccountSamples.passwords1 (Some "asha@example.com") (Some "123456")
       (Some "pässwör")).1
    = ApiError 400 "Password must be at least 8 characters long"
  ∧ (changePassword AccountSamples.hash AccountSamples.compare Samples.users1
       AccountSamples.passwords1 "u1" (Some "old secret") (Some "pässwör")).1
    = ApiError 400 "New password must be at least 8 characters long".
Proof. vm_compute. split_and!; reflexivity. Qed.

(** X27.  [optionalAuth] attaches a user to the request exactly when
    [authenticate] would let the request through, and then the same
    user; where [authenticate] refuses, [optionalAuth] goes on without a
    user. *)
Theorem optionalAuth_spec jwt_verify (users : gmap ObjectId t) (req : Auth.Request) :
  OptionalAuth.optionalAuth jwt_verify users req
  = match Auth.authenticate jwt_verify users req with
    | Auth.Next u => Some u
    | Auth.Rejected _ _ => None
    end.
Proof.
  unfold OptionalAuth.optionalAuth, Auth.authenticate.
  destruct (Js.truthy (Auth.token_of req)); [|done]. cbn [negb].
  destruct (jwt_verify _) as [p| | |]; try done.
  destruct (findById users (Auth.id p)) as [u|]; [|done].
  by destruct (isActive u).
Qed.

End AccountProps.

(** ** Listing specializations and searching doctors *)
Section DoctorProps.
Import DoctorController.

#[local] Instance name_le_total {num} : Total (@name_le num).
Proof.
  intros a b. unfold name_le.
  destruct (Js.str_lt (Specialization.name a) (Specialization.name b)) eqn:E.
  - left. by apply str_lt_le.
  - right. by apply str_not_lt_le.
Qed.

#[local] Instance name_le_trans {num} : Transitive (@name_le num).
Proof. intros a b c. unfold name_le. apply str_le_trans. Qed.

#[local] Instance rating_ge_total : Total rating_ge.
Proof.
  intros a b. unfold rating_ge.
  destruct (Qlt_le_dec (Doctor.rating a) (Doctor.rating b)) as [H|H].
  - right. apply Qle_bool_iff. by apply Qlt_le_weak.
  - left. by apply Qle_bool_iff.
Qed.

(** X28.  [getSpecializations], for a request without [search], lists in
    the order of their names exactly the specializations whose [isActive]
    flag equals the outcome of comparing the [isActive] parameter with the
    text 'true'.  The parameter's default is the boolean [true], which is
    not that text: a request that leaves the parameter out is given the
    inactive specializations, and only [isActive=true] lists the active
    ones. *)
Theorem getSpecializations_spec {num} (coll : list (Specialization.t num))
    (isActive_ : option string) :
  let found := getSpecializations coll isActive_ in
  (∀ s, s ∈ found ↔
        s ∈ coll ∧ Specialization.isActive s = bool_decide (isActive_ = Some "true"))
  ∧ StronglySorted name_le found
  ∧ (∀ s, s ∈ getSpecializations coll None ↔ s ∈ coll ∧ Specialization.isActive s = false).
Proof.
  assert (Hmem : ∀ q s, s ∈ getSpecializations coll q ↔
            s ∈ coll ∧ Specialization.isActive s = bool_decide (q = Some "true")).
  { intros q s. unfold getSpecializations.
    rewrite merge_sort_Permutation, list_elem_of_In, filter_In, <- list_elem_of_In.
    apply and_iff_compat_l.
    assert (is_true_text match q with
                         | Some s0 => QString s0
                         | None => QBool true
                         end = bool_decide (q = Some "true")) as ->.
    { destruct q as [x|]; simpl; [|done].
      destruct (String.eqb_spec x "true") as [->|Hne].
      - by rewrite bool_decide_eq_true_2.
      - rewrite bool_decide_eq_false_2; [done|]. by intros [= ->]. }
    destruct (Specialization.isActive s), (bool_decide (q = Some "true")); simpl;
      naive_solver. }
  split_and!.
  - intros s. apply Hmem.
  - unfold getSpecializations. apply StronglySorted_merge_sort; apply _.
  - intros s. by rewrite Hmem.
Qed.

Section Symptoms.
Context {num : Type} {numbers : Specialization.Numbers num}.

(** The specializations recommended are the first three of the candidates
    in sorted order. *)
Lemma recommended_sorted (specs : list (Specialization.t num)) (s : string) :
  ∃ L, take 3 (Specialization.findBySymptoms specs s) = take 3 L
       ∧ StronglySorted Specialization.score_ge L
       ∧ L ≡ₚ Specialization.candidates specs (Js.split_ws (Js.toLowerCase s)).
Proof.
  destruct (findBySymptoms_sorted specs s) as (L & Hres & HL & HP).
  exists L. split_and!; [|done..]. rewrite Hres, take_take. reflexivity.
Qed.

(** X29.  [searchDoctorsBySymptoms] answers 400 when the symptoms are
    missing or blank and 200 otherwise.  In a 200 answer at most three
    specializations are recommended, in descending order of their score;
    each of them is an active specialization of the collection, and its
    score is the sum, over its common symptoms, of the weight multiplied
    by the number of the entry's keywords among the words of the
    lowercased symptoms, and is above 0; an active specialization with
    such a score above 0 is left out only when three that the sort puts
    before it are recommended.  Every doctor listed is an active doctor of
    the collection whose specialization is one of those recommended; there
    are at most [limit] of them, and [totalDoctors] counts the doctors of
    this page. *)
Theorem searchDoctorsBySymptoms_spec (specs : list (Specialization.t num))
    (doctors : list Doctor.t) (symptoms : option string) (page limit : positive) :
  let r := searchDoctorsBySymptoms specs doctors symptoms page limit in
  let W := Js.split_ws (Js.toLowerCase (default "" symptoms)) in
  let score (sd : Specialization.t num) : num :=
    Specialization.sum
      ((λ e, Specialization.multiply (Specialization.weight e)
               (size (list_to_set (Specialization.keywords e) ∩ list_to_set W
                      : gset string)))
       <$> Specialization.commonSymptoms sd) in
  (status_of r = Some 400 ↔ ∀ s, symptoms = Some s → Js.trim s = "")
  ∧ (status_of r = Some 400 ∨ status_of r = Some 200)
  ∧ (∀ code d, r = Respond code d →
       (List.length (sd_specializations d) ≤ 3)%nat
       ∧ StronglySorted
           (λ a b, Specialization.sort_ge (Specialization.matchScore a)
                     (Specialization.matchScore b) = true)
           (sd_specializations d)
       ∧ (∀ sp, sp ∈ sd_specializations d →
            Specialization.doc sp ∈ specs
            ∧ Specialization.isActive (Specialization.doc sp) = true
            ∧ Specialization.matchScore sp = score (Specialization.doc sp)
            ∧ Specialization.gt_zero (Specialization.matchScore sp) = true)
       ∧ (∀ sd, sd ∈ specs → Specialization.isActive sd = true →
            Specialization.gt_zero (score sd) = true →
            {| Specialization.doc := sd; Specialization.matchScore := score sd |}
              ∈ sd_specializations d
            ∨ (List.length (sd_specializations d) = 3%nat
               ∧ ∀ sp, sp ∈ sd_specializations d →
                   Specialization.sort_ge (Specialization.matchScore sp) (score sd)
                   = true))
       ∧ (∀ dr, dr ∈ sd_doctors d →
            dr ∈ doctors ∧ Doctor.isActive dr = true
            ∧ ∃ sp, sp ∈ sd_specializations d
                    ∧ Doctor.specialization dr = Specialization.name (Specialization.doc sp))
       ∧ (List.length (sd_doctors d) ≤ Pos.to_nat limit)%nat
       ∧ sd_totalDoctors d = List.length (sd_doctors d)).
Proof.
  cbv zeta. unfold searchDoctorsBySymptoms.
  destruct symptoms as [s|]; [|split_and!; [split; [by intros|done]|by left|done]].
  assert (Hblank : negb (Js.truthy (Some s)) || (String.length (Js.trim s) =? 0)%nat = true
                   ↔ Js.trim s = "").
  { rewrite orb_true_iff, negb_true_iff, Nat.eqb_eq. split.
    - intros [H|H].
      + destruct s; [reflexivity|discriminate].
      + by destruct (Js.trim s).
    - intros ->. by right. }
  destruct (negb (Js.truthy (Some s)) || (String.length (Js.trim s) =? 0)%nat) eqn:Hb.
  { split_and!; [|by left|done]. split; [|done].
    intros _ s' [= <-]. by apply Hblank. }
  assert (Hnb : Js.trim s ≠ "").
  { intros E. apply Hblank in E. congruence. }
  cbn [default from_option id].
  set (W := Js.split_ws (Js.toLowerCase s)).
  set (score := λ sd : Specialization.t num,
         Specialization.sum
           ((λ e, Specialization.multiply (Specialization.weight e)
                    (size (list_to_set (Specialization.keywords e) ∩ list_to_set W
                           : gset string)))
            <$> Specialization.commonSymptoms sd)).
  assert (Hadd : ∀ sd, Specialization.addFields W sd
                       = {| Specialization.doc := sd;
                            Specialization.matchScore := score sd |}) by reflexivity.
  set (matching := Specialization.findBySymptoms specs s).
  destruct (recommended_sorted specs s) as (L & Hrec & HL & HP).
  fold matching in Hrec. fold W in HP.
  split_and!.
  - split; [destruct (List.length matching =? 0)%nat; discriminate|].
    intros H. destruct Hnb. by apply H.
  - right. by destruct (List.length matching =? 0)%nat.
  - destruct (Nat.eqb_spec (List.length matching) 0) as [Hz|Hnz].
    + intros code d [= <- <-]. simpl.
      apply length_zero_iff_nil in Hz.
      split_and!; try lia; try done.
      * constructor.
      * intros sp Hsp. by apply elem_of_nil in Hsp.
      * intros sd Hsd Ha Hs. exfalso.
        assert (Hin : Specialization.addFields W sd ∈ L).
        { rewrite HP. apply candidates_elem_of. eauto 6. }
        destruct (sorted_top Specialization.score_ge 3 L _ HL Hin) as [Htop|[Hlen _]].
        -- rewrite <- Hrec, Hz in Htop. by apply elem_of_nil in Htop.
        -- rewrite <- Hrec, Hz in Hlen. discriminate.
      * intros dr Hdr. by apply elem_of_nil in Hdr.
    + intros code d [= <- <-]. simpl. rewrite Hrec. split_and!.
      * rewrite length_take. lia.
      * rewrite <- (take_drop 3 L) in HL. by apply StronglySorted_app_1_l in HL.
      * intros sp Hsp. apply take_elem_of in Hsp. rewrite HP in Hsp.
        apply candidates_elem_of in Hsp as (sd & Hsd & Ha & -> & Hs). simpl. auto.
      * intros sd Hsd Ha Hs.
        assert (Hin : Specialization.addFields W sd ∈ L).
        { rewrite HP. apply candidates_elem_of. eauto 6. }
        destruct (sorted_top Specialization.score_ge 3 L _ HL Hin) as [Htop|[Hlen Hge]];
          [by left|].
        right. split; [done|]. intros sp Hsp. exact (Hge sp Hsp).
      * intros dr Hdr. unfold AppointmentController.paginate in Hdr.
        apply take_elem_of in Hdr. apply subseteq_drop in Hdr.
        rewrite merge_sort_Permutation in Hdr.
        apply list_elem_of_In, filter_In in Hdr as [Hin Hp].
        apply andb_true_iff in Hp as [Hsp Ha]. apply bool_decide_eq_true in Hsp.
        apply list_elem_of_fmap in Hsp as (sp & Hname & Hsp).
        split_and!; [by apply list_elem_of_In|done|eauto].
      * unfold AppointmentController.paginate. rewrite length_take. lia.
      * done.
Qed.

End Symptoms.

(** Two doctors of a recommended and one of another specialization: the
    search for chest pain lists the two cardiologists, the better rated
    first, under the one recommended specialization. *)
Example searchDoctorsBySymptoms_example :
  match searchDoctorsBySymptoms [Samples.dermatology; Samples.cardiology]
          DoctorSamples.doctors (Some "chest pain") 1 10 with
  | Respond 200 d =>
      Doctor.name <$> sd_doctors d = ["Dr. Rao"; "Dr. Iyer"]
      ∧ (λ sp, (Specialization.name (Specialization.doc sp), Specialization.matchScore sp))
          <$> sd_specializations d = [("Cardiology", (6 # 2)%Q)]
  | _ => False
  end.
Proof. vm_compute. split; reflexivity. Qed.

End DoctorProps.

(** ** Ages *)
Section AgeProps.
Import UserUtils.

(** X30.  [calculateAge] counts the birthdays that have come: the age is
    the one number [a] for which today is not before the birthday [a]
    years after the birth and is before the next one, days compared by
    year, month and day of the month.  So the age grows on the birthday
    itself, for a birth on 29 February in a year without that day on
    1 March, and a birth date after today gives a negative age. *)
Theorem calculateAge_spec (today dob : Day) (a : Z) :
  calculateAge today (Some dob) = Some a
  ↔ ¬ day_lt today (birthday dob a) ∧ day_lt today (birthday dob (a + 1)).
Proof.
  unfold calculateAge, day_lt, birthday. simpl.
  destruct (Z.ltb_spec (month today - month dob) 0);
    destruct (Z.eqb_spec (month today - month dob) 0);
    destruct (Z.ltb_spec (date today) (date dob)); simpl;
    (split; [intros [= <-]; lia | intros [H1 H2]; f_equal; lia]).
Qed.

End AgeProps.
